(** * PayFlow: the payroll variable graph and the agent monitor

    A shallow embedding of two Python modules of the repository:

    - [src/app/monitoring.py]: class [AgentMonitor], the process-wide event
      log with its sessions and subscribers;
    - [src/payroll_variable_agent.py]: class [PayrollVariableGraph], the
      registries of payroll variables and the graph of calculation nodes,
      together with the part of the [networkx.DiGraph] class it relies on,
      and the tools of the agent that work on the object of the module;
    - [src/app/views.py] and [src/app/services.py]: the monitoring views
      and the services that call the two classes.

    Python dictionaries keep their insertion order, and that order is what
    the textual projections and the topological sort iterate over, so a
    dictionary is an association list ([PyDict]).  Exceptions are values of
    [exn] carried by [result].  Readings of [datetime.now()] are explicit
    arguments of the operations that take them. *)

From Stdlib Require Import ZArith Lia.
From stdpp Require Import base option list strings relations gmap pretty.

(** ** Python values, exceptions and results *)

(** The values that travel through keyword arguments, JSON payloads and
    event data; [PTime] is a reading of the clock as [isoformat()] renders
    it. *)
Inductive pyval : Type :=
| PNone
| PBool (b : bool)
| PInt (z : Z)
| PStr (s : string)
| PTime (t : Z).

(** The exceptions the modules raise or let through.  The three
    [ValueError]s the class raises itself, with the two messages of
    [execute_calculation] and the one of [connect_calculations], are
    separate constructors; [ValueError] is any other one.  [OutOfFuel] is
    no exception of Python: it stands for a run of [topological_sort] that
    exhausts the fuel of its loop, which no graph brings about. *)
Inductive exn : Type :=
| UnknownNode (node_id : string)
| MissingArguments (node_id : string) (missing_vars : list string)
| NodesMustExist
| ValueError (msg : string)
| KeyError (key : string)
| TypeError (msg : string)
| AttributeError (msg : string)
| NameError (name : string)
| NetworkXError (msg : string)
| NetworkXUnfeasible (msg : string)
| RuntimeError (msg : string)
| FunctionRaised (msg : string)
| OutOfFuel.

Inductive result (A : Type) : Type :=
| Ok (a : A)
| Raise (e : exn).
Arguments Ok {A} a.
Arguments Raise {A} e.

(** Sequencing: an exception raised by the first computation leaves the
    whole. *)
#[global] Instance result_ret : MRet result := λ A a, Ok a.
#[global] Instance result_bind : MBind result := λ A B k r,
  match r with
  | Ok a => k a
  | Raise e => Raise e
  end.

(** A loop [for x in xs: acc = f(acc, x)] whose body may raise. *)
Fixpoint foldM {A B : Type} (f : B → A → result B) (acc : B) (xs : list A)
  : result B :=
  match xs with
  | [] => Ok acc
  | x :: rest => acc' ← f acc x; foldM f acc' rest
  end.

(** [try: ... except KeyError: raise NetworkXError(msg)] *)
Definition key_error_as_networkx {A : Type} (msg : string) (r : result A)
  : result A :=
  match r with
  | Raise (KeyError _) => Raise (NetworkXError msg)
  | _ => r
  end.

(** The class hierarchy of networkx's exceptions, as far as the [except]
    clauses of the repository go: [NetworkXUnfeasible] derives from
    [NetworkXAlgorithmError], which derives from [NetworkXException];
    [NetworkXError] derives from [NetworkXException] too, and neither of the
    two is a subclass of the other. *)
Definition isinstance_NetworkXError (e : exn) : bool :=
  match e with
  | NetworkXError _ => true
  | _ => false
  end.

(** [repr] of a list of strings without quotes or backslashes in them,
    and [str(e)]. *)
Definition repr_list (l : list string) : string :=
  "[" +:+ String.concat ", " ((λ x, "'" +:+ x +:+ "'") <$> l) +:+ "]".

Definition str_exn (e : exn) : string :=
  match e with
  | UnknownNode n => "Aucune fonction trouvée pour le nœud '" +:+ n +:+ "'"
  | MissingArguments n missing_vars =>
      "Variables manquantes pour '" +:+ n +:+ "': " +:+ repr_list missing_vars
  | NodesMustExist =>
      "Les deux nœuds doivent exister avant de créer une connexion"
  | KeyError k => "'" +:+ k +:+ "'"
  | NameError name => "name '" +:+ name +:+ "' is not defined"
  | ValueError msg | TypeError msg | AttributeError msg
  | NetworkXError msg | NetworkXUnfeasible msg
  | RuntimeError msg | FunctionRaised msg => msg
  | OutOfFuel => ""
  end.

(** ** Insertion-ordered dictionaries *)

Module PyDict.

Abbreviation t K V := (list (K * V)).

Section defs.
Context {K V : Type} `{EqDecision K}.

Definition empty : t K V := [].

(** [d.get(k)] *)
Fixpoint get (k : K) (d : t K V) : option V :=
  match d with
  | [] => None
  | (k', v) :: rest => if decide (k = k') then Some v else get k rest
  end.

(** [k in d] *)
Definition mem (k : K) (d : t K V) : bool :=
  match get k d with Some _ => true | None => false end.

(** [d[k] = v]: an existing key keeps its position, a new one goes last. *)
Fixpoint set (k : K) (v : V) (d : t K V) : t K V :=
  match d with
  | [] => [(k, v)]
  | (k', v') :: rest =>
      if decide (k = k') then (k, v) :: rest else (k', v') :: set k v rest
  end.

(** The dictionary without key [k] (the effect of [del d[k]] once the key
    is known to be there). *)
Definition remove (k : K) (d : t K V) : t K V :=
  filter (λ kv, kv.1 ≠ k) d.

(** [list(d.keys())] and [len(d)] *)
Definition keys (d : t K V) : list K := d.*1.
Definition len (d : t K V) : nat := length d.

(** [d.update(new)] *)
Definition update (new : t K V) (d : t K V) : t K V :=
  foldl (λ acc kv, set kv.1 kv.2 acc) d new.

(** A list is a dictionary when no key occurs twice. *)
Definition wf (d : t K V) : Prop := NoDup (keys d).

End defs.

(** [del d[k]], which raises [KeyError] on a missing key. *)
Definition del {V : Type} (k : string) (d : t string V) : result (t string V) :=
  if mem k d then Ok (remove k d) else Raise (KeyError k).

(** [d[k]] *)
Definition getitem {V : Type} (k : string) (d : t string V) : result V :=
  match get k d with
  | Some v => Ok v
  | None => Raise (KeyError k)
  end.

End PyDict.

(** Python's [l[start:]] on a list, for an integer [start] of either sign. *)
Definition slice_from {A : Type} (start : Z) (l : list A) : list A :=
  if (start <? 0)%Z
  then drop (Z.to_nat (Z.max 0 (Z.of_nat (length l) + start))) l
  else drop (Z.to_nat start) l.

(** Truth value of an optional string argument ([None] and the empty
    string are both false). *)
Definition truthy (s : option string) : bool :=
  match s with
  | Some s => negb (String.eqb s "")
  | None => false
  end.

(** Readings of the clock. *)
Definition time : Type := Z.

(** Binding the keyword arguments of a call [f(a, ..., **kwargs)] of a
    method whose parameters before its [**] parameter are [params]: these
    are bound by position, [self] included, and a keyword that names one of
    them makes the call raise [TypeError] before the body runs.  The
    keywords are looked at in order, so the first such keyword is the one
    the message names; the message is that of CPython 3.10 and later. *)
Definition bind_keywords (callee : string) (params keywords : list string)
  : result unit :=
  match filter (λ k, k ∈ params) keywords with
  | [] => Ok ()
  | name :: _ =>
      Raise (TypeError (callee +:+ "() got multiple values for argument '"
                        +:+ name +:+ "'"))
  end.

(** ** [collections.deque] with a [maxlen] *)

Module Deque.

(** [dq.append(x)]: the new item goes to the right end, and a deque that
    was full drops the item at its left end. *)
Definition append {A : Type} (maxlen : nat) (x : A) (dq : list A) : list A :=
  let dq' := dq ++ [x] in
  if decide (maxlen < length dq') then drop 1 dq' else dq'.

(** [dq.extend(xs)]: one [append] per item, left to right. *)
Definition extend {A : Type} (maxlen : nat) (xs : list A) (dq : list A) : list A :=
  foldl (λ acc x, append maxlen x acc) dq xs.

End Deque.

(** ** [AgentMonitor] (src/app/monitoring.py) *)

Module Monitor.

(** An event dictionary.  [session_start] and [session_end] events have no
    ['agent_type'] and no ['action'] key. *)
Record event : Type := mk_event {
  ev_session_id : string;
  ev_type : string;
  ev_agent_type : option string;
  ev_action : option string;
  ev_message : string;
  ev_level : string;
  ev_timestamp : time;
  ev_data : list (string * pyval)
}.

(** An entry of [active_sessions]. *)
Record session : Type := mk_session {
  s_id : string;
  s_description : string;
  s_user_id : option string;
  s_started_at : time;
  s_status : string;
  s_events_count : nat;
  s_last_activity : time;
  s_ended_at : option time
}.

(** How a call of a subscriber on an event ends: it returns, it raises an
    instance of [Exception] (with the text of [str(e)]), or it raises
    something outside [Exception] ([KeyboardInterrupt], [SystemExit]). *)
Inductive cb_outcome : Type :=
| Returns
| RaisesException (msg : string)
| RaisesBaseException (name : string).

(** A subscriber: the identity of the callable, how a call on an event
    ends, and the calls of [subscribe] and [unsubscribe] it makes on the
    monitor before it ends.  These two methods take no lock, so a
    subscriber can call them while [_add_event] runs; every other method
    of the monitor waits for the lock [_add_event] runs under.  A
    subscriber can add others, which can add others in turn; one that adds
    itself again, under which the loop of [_add_event] would not end, is
    not among these. *)
Inductive callback : Type :=
| mk_callback (cb_id : nat) (cb_call : event → cb_outcome)
    (cb_changes : event → list change)
with change : Type :=
| DoSubscribe (cb : callback)
| DoUnsubscribe (cb_id : nat).

Definition cb_id (cb : callback) : nat :=
  match cb with mk_callback id _ _ => id end.

Definition cb_call (cb : callback) : event → cb_outcome :=
  match cb with mk_callback _ call _ => call end.

Definition cb_changes (cb : callback) : event → list change :=
  match cb with mk_callback _ _ changes => changes end.

(** What an operation does besides changing the monitor. *)
Inductive effect : Type :=
| Invoked (cb : nat) (e : event)
| LoggerError (msg : string).

Record AgentMonitor : Type := mk_monitor {
  events : list event;
  subscribers : list callback;
  active_sessions : PyDict.t string session
}.

(** The outcome of a call: the monitor afterwards, the effects in the
    order they happened, and the exception that left the call, if any. *)
Record outcome : Type := mk_outcome {
  monitor_after : AgentMonitor;
  trace : list effect;
  raised : option string
}.

Definition maxlen : nat := 1000.

(** [__init__] *)
Definition init : AgentMonitor :=
  {| events := []; subscribers := []; active_sessions := PyDict.empty |}.

Definition with_events (evs : list event) (m : AgentMonitor) : AgentMonitor :=
  {| events := evs; subscribers := subscribers m;
     active_sessions := active_sessions m |}.

Definition with_sessions (ss : PyDict.t string session) (m : AgentMonitor)
  : AgentMonitor :=
  {| events := events m; subscribers := subscribers m; active_sessions := ss |}.

Definition with_subscribers (subs : list callback) (m : AgentMonitor)
  : AgentMonitor :=
  {| events := events m; subscribers := subs;
     active_sessions := active_sessions m |}.

(** [list.remove]: the first item equal to the argument goes. *)
Fixpoint remove_first (id : nat) (subs : list callback) : list callback :=
  match subs with
  | [] => []
  | cb :: rest =>
      if decide (cb_id cb = id) then rest else cb :: remove_first id rest
  end.

(** The list of subscribers after one call of [subscribe] or
    [unsubscribe]. *)
Definition apply_change (subs : list callback) (ch : change) : list callback :=
  match ch with
  | DoSubscribe cb => subs ++ [cb]
  | DoUnsubscribe id => remove_first id subs
  end.

(** The number of calls a subscriber stands for on an event: its own and
    those of the subscribers it adds. *)
Fixpoint calls_of (e : event) (cb : callback) : nat :=
  match cb with
  | mk_callback _ _ changes =>
      S ((fix added (chs : list change) : nat :=
            match chs with
            | [] => 0
            | DoSubscribe cb' :: rest => calls_of e cb' + added rest
            | DoUnsubscribe _ :: rest => added rest
            end) (changes e))
  end.

(** The calls the subscribers that a list of changes adds stand for. *)
Definition calls_added (e : event) (chs : list change) : nat :=
  sum_list ((λ ch, match ch with
                   | DoSubscribe cb => calls_of e cb
                   | DoUnsubscribe _ => 0
                   end) <$> chs).

(** The loop of [_add_event] over the subscribers:
    [for callback in self.subscribers:
       try: callback(event) / except Exception as e: logger.error(...)].
    The iteration is over the list itself, by position: [i] is the position
    of the next item, and the list is read again at every turn, so that a
    subscriber added during the loop is called in its turn and the removal
    of one at or before [i] moves the rest one place down.  [fuel] bounds
    the number of turns.  The result is the effects, the exception that
    leaves the loop, if any, and the list of subscribers afterwards. *)
Fixpoint notify_from (fuel i : nat) (subs : list callback) (e : event)
  : list effect * option string * list callback :=
  match fuel with
  | 0 => ([], None, subs)
  | S fuel' =>
      match subs !! i with
      | None => ([], None, subs)
      | Some cb =>
          let subs' := foldl apply_change subs (cb_changes cb e) in
          match cb_call cb e with
          | Returns =>
              let '(tr, r, subs'') := notify_from fuel' (S i) subs' e in
              (Invoked (cb_id cb) e :: tr, r, subs'')
          | RaisesException msg =>
              let '(tr, r, subs'') := notify_from fuel' (S i) subs' e in
              (Invoked (cb_id cb) e
                 :: LoggerError ("Erreur notification subscriber: " +:+ msg) :: tr,
               r, subs'')
          | RaisesBaseException name => ([Invoked (cb_id cb) e], Some name, subs')
          end
      end
  end.

(** Every turn makes one of the calls the subscribers stand for, hence
    the fuel, which the loop never exhausts. *)
Definition notify (subs : list callback) (e : event)
  : list effect * option string * list callback :=
  notify_from (sum_list (calls_of e <$> subs)) 0 subs e.





(** [_add_event] *)
Definition _add_event (e : event) (m : AgentMonitor) : outcome :=
  let m' := with_events (Deque.append maxlen e (events m)) m in
  let '(tr, r, subs) := notify (subscribers m') e in
  {| monitor_after := with_subscribers subs m'; trace := tr; raised := r |}.

(** [start_session]; [t_started], [t_activity] and [t_event] are the three
    readings of the clock, in the order the code takes them. *)
Definition start_session (session_id description : string)
    (user_id : option string) (t_started t_activity t_event : time)
    (m : AgentMonitor) : outcome :=
  let s := {| s_id := session_id; s_description := description;
              s_user_id := user_id; s_started_at := t_started;
              s_status := "active"; s_events_count := 0;
              s_last_activity := t_activity; s_ended_at := None |} in
  let m' := with_sessions (PyDict.set session_id s (active_sessions m)) m in
  _add_event
    {| ev_session_id := session_id; ev_type := "session_start";
       ev_agent_type := None; ev_action := None;
       ev_message := "Nouvelle session démarrée: " +:+ description;
       ev_level := "info"; ev_timestamp := t_event;
       ev_data := [("description", PStr description);
                   ("user_id", from_option PStr PNone user_id)] |}
    m'.

(** [end_session] *)
Definition end_session (session_id status : string) (t_ended t_event : time)
    (m : AgentMonitor) : outcome :=
  match PyDict.get session_id (active_sessions m) with
  | Some s =>
      let s' := {| s_id := s_id s; s_description := s_description s;
                   s_user_id := s_user_id s; s_started_at := s_started_at s;
                   s_status := status; s_events_count := s_events_count s;
                   s_last_activity := s_last_activity s;
                   s_ended_at := Some t_ended |} in
      let m' := with_sessions (PyDict.set session_id s' (active_sessions m)) m in
      _add_event
        {| ev_session_id := session_id; ev_type := "session_end";
           ev_agent_type := None; ev_action := None;
           ev_message := "Session terminée avec statut: " +:+ status;
           ev_level := "info"; ev_timestamp := t_event;
           ev_data := [("status", PStr status)] |}
        m'
  | None => {| monitor_after := m; trace := []; raised := None |}
  end.

(** The arguments of one call of [log_agent_action], with the two readings
    of the clock it takes. *)
Record log_call : Type := mk_log_call {
  lc_session_id : string;
  lc_agent_type : string;
  lc_action : string;
  lc_message : string;
  lc_level : string;
  lc_data : option (list (string * pyval));
  lc_t_event : time;
  lc_t_activity : time
}.

(** The event dictionary [log_agent_action] builds before taking the lock. *)
Definition event_of (c : log_call) : event :=
  {| ev_session_id := lc_session_id c; ev_type := "agent_action";
     ev_agent_type := Some (lc_agent_type c); ev_action := Some (lc_action c);
     ev_message := lc_message c; ev_level := lc_level c;
     ev_timestamp := lc_t_event c;
     ev_data := default [] (lc_data c) |}.

(** The session entry after [events_count += 1] and the new
    [last_activity]. *)
Definition touch (t_activity : time) (s : session) : session :=
  {| s_id := s_id s; s_description := s_description s;
     s_user_id := s_user_id s; s_started_at := s_started_at s;
     s_status := s_status s; s_events_count := S (s_events_count s);
     s_last_activity := t_activity; s_ended_at := s_ended_at s |}.

(** [log_agent_action] *)
Definition log_agent_action (c : log_call) (m : AgentMonitor) : outcome :=
  let event := event_of c in
  let m' :=
    match PyDict.get (lc_session_id c) (active_sessions m) with
    | Some s =>
        with_sessions
          (PyDict.set (lc_session_id c) (touch (lc_t_activity c) s)
             (active_sessions m)) m
    | None => m
    end in
  _add_event event m'.

(** [log_error], one of the wrappers around [log_agent_action]. *)
Definition log_error (session_id agent_type error_message : string)
    (exception_type traceback_info : option string)
    (t_event t_activity : time) (m : AgentMonitor) : outcome :=
  log_agent_action
    {| lc_session_id := session_id; lc_agent_type := agent_type;
       lc_action := "error"; lc_message := "Erreur: " +:+ error_message;
       lc_level := "error";
       lc_data := Some [("error_message", PStr error_message);
                        ("exception_type", from_option PStr PNone exception_type);
                        ("traceback", from_option PStr PNone traceback_info)];
       lc_t_event := t_event; lc_t_activity := t_activity |}
    m.

(** [subscribe] *)
Definition subscribe (cb : callback) (m : AgentMonitor) : AgentMonitor :=
  with_subscribers (subscribers m ++ [cb]) m.

(** [unsubscribe] *)
Definition unsubscribe (cb : callback) (m : AgentMonitor) : AgentMonitor :=
  if bool_decide (cb_id cb ∈ cb_id <$> subscribers m)
  then with_subscribers (remove_first (cb_id cb) (subscribers m)) m
  else m.

(** [get_recent_events] *)
Definition get_recent_events (limit : Z) (session_id level : option string)
    (m : AgentMonitor) : list event :=
  let evs := events m in
  let evs :=
    if truthy session_id
    then filter (λ e, Some (ev_session_id e) = session_id) evs
    else evs in
  let evs :=
    if truthy level
    then filter (λ e, Some (ev_level e) = level) evs
    else evs in
  slice_from (- limit) evs.

(** [clear_old_events].  [now] is what [datetime.now().timestamp()] gives
    when the method reads it, and [timestamp] is what
    [datetime.fromisoformat(...).timestamp()] makes of the reading an event
    carries, both counted in microseconds.  The reading of an event is the
    local time without its zone, so what [timestamp] returns depends on the
    zone of the process, and it need not grow with the reading where the
    zone sets its clocks back. *)
Definition clear_old_events (max_age_hours : Z) (timestamp : time → Z) (now : Z)
    (m : AgentMonitor) : AgentMonitor :=
  let cutoff_time := (now - max_age_hours * 3600 * 1000000)%Z in
  let recent_events :=
    filter (λ e, (cutoff_time < timestamp (ev_timestamp e))%Z) (events m) in
  with_events (Deque.extend maxlen recent_events []) m.

(** The calls that change the monitor. *)
Inductive op : Type :=
| StartSession (session_id description : string) (user_id : option string)
    (t_started t_activity t_event : time)
| EndSession (session_id status : string) (t_ended t_event : time)
| LogAgentAction (c : log_call)
| Subscribe (cb : callback)
| Unsubscribe (cb : callback)
| ClearOldEvents (max_age_hours : Z) (timestamp : time → Z) (now : Z).

Definition step (o : op) (m : AgentMonitor) : outcome :=
  match o with
  | StartSession sid d u t1 t2 t3 => start_session sid d u t1 t2 t3 m
  | EndSession sid st t1 t2 => end_session sid st t1 t2 m
  | LogAgentAction c => log_agent_action c m
  | Subscribe cb =>
      {| monitor_after := subscribe cb m; trace := []; raised := None |}
  | Unsubscribe cb =>
      {| monitor_after := unsubscribe cb m; trace := []; raised := None |}
  | ClearOldEvents h timestamp now =>
      {| monitor_after := clear_old_events h timestamp now m;
         trace := []; raised := None |}
  end.

(** The monitor after a sequence of calls; a call that lets an exception
    through leaves the monitor as it was when the exception left. *)
Definition run (ops : list op) (m : AgentMonitor) : AgentMonitor :=
  foldl (λ acc o, monitor_after (step o acc)) m ops.

End Monitor.

(** ** [networkx.DiGraph]

    The part of the class the repository calls, after the library's
    sources: the three dictionaries [_node], [_succ] (also known as [_adj])
    and [_pred], the mutators [add_node], [add_edge], [remove_node],
    [remove_edge] and [clear], the views, and [topological_sort] as
    networkx 2.6 and later compute it (by [topological_generations]).
    Node attributes are of a type [NA] the caller fixes; edge attributes
    are a dictionary. *)

Module Nx.

Abbreviation edge_attrs := (PyDict.t string pyval).
Abbreviation adjacency := (PyDict.t string (PyDict.t string edge_attrs)).

Section digraph.
Context {NA : Type}.

Record DiGraph : Type := mk_digraph {
  _node : PyDict.t string NA;
  _succ : adjacency;
  _pred : adjacency
}.

(** [nx.DiGraph()], and the graph after [G.clear()] *)
Definition empty : DiGraph := {| _node := []; _succ := []; _pred := [] |}.

(** [n in G] *)
Definition contains (n : string) (g : DiGraph) : bool := PyDict.mem n (_node g).

(** [list(G.nodes())] *)
Definition nodes (g : DiGraph) : list string := PyDict.keys (_node g).

(** [list(G.edges())]: for each node of [_succ], in order, its
    successors in order. *)
Definition edges (g : DiGraph) : list (string * string) :=
  _succ g ≫= λ un : string * PyDict.t string edge_attrs,
    (λ v : string, (un.1, v)) <$> PyDict.keys un.2.

(** [adj[a][b]], when both keys are there. *)
Definition lookup2 (adj : adjacency) (a b : string) : option edge_attrs :=
  inner ← PyDict.get a adj; PyDict.get b inner.

(** [G.get_edge_data(u, v)] *)
Definition get_edge_data (u v : string) (g : DiGraph) : option edge_attrs :=
  lookup2 (_succ g) u v.

(** [G.has_edge(u, v)] *)
Definition has_edge (u v : string) (g : DiGraph) : bool :=
  match PyDict.get u (_succ g) with
  | Some nbrs => PyDict.mem v nbrs
  | None => false
  end.

(** [G.add_node(n, **attr)], called with every attribute key each time:
    the attributes of a node that is already there are all overwritten. *)
Definition add_node (n : string) (attr : NA) (g : DiGraph) : result DiGraph :=
  if negb (PyDict.mem n (_succ g))
  then Ok {| _node := PyDict.set n attr (_node g);
             _succ := PyDict.set n [] (_succ g);
             _pred := PyDict.set n [] (_pred g) |}
  else
    _ ← PyDict.getitem n (_node g);
    Ok {| _node := PyDict.set n attr (_node g);
          _succ := _succ g; _pred := _pred g |}.

(** The first half of [add_edge]: an endpoint that is not a node yet is
    added with the attributes of [node_attr_dict_factory]. *)
Definition ensure_node (node_attr_dict_factory : NA) (n : string) (g : DiGraph)
  : DiGraph :=
  if negb (PyDict.mem n (_succ g))
  then {| _node := PyDict.set n node_attr_dict_factory (_node g);
          _succ := PyDict.set n [] (_succ g);
          _pred := PyDict.set n [] (_pred g) |}
  else g.

(** [G.add_edge(u, v, **attr)]: the attribute dictionary of an edge that
    is already there is updated, not replaced. *)
Definition add_edge (node_attr_dict_factory : NA) (u v : string)
    (attr : edge_attrs) (g : DiGraph) : result DiGraph :=
  let g := ensure_node node_attr_dict_factory u g in
  let g := ensure_node node_attr_dict_factory v g in
  succ_u ← PyDict.getitem u (_succ g);
  let datadict := PyDict.update attr (default [] (PyDict.get v succ_u)) in
  let succ' := PyDict.set u (PyDict.set v datadict succ_u) (_succ g) in
  pred_v ← PyDict.getitem v (_pred g);
  let pred' := PyDict.set v (PyDict.set u datadict pred_v) (_pred g) in
  Ok {| _node := _node g; _succ := succ'; _pred := pred' |}.

(** [del adj[u][n]] *)
Definition del_inner (u n : string) (adj : adjacency) : result adjacency :=
  inner ← PyDict.getitem u adj;
  inner' ← PyDict.del n inner;
  Ok (PyDict.set u inner' adj).

(** [G.remove_node(n)] *)
Definition remove_node (n : string) (g : DiGraph) : result DiGraph :=
  let msg := "The node " +:+ n +:+ " is not in the digraph." in
  nbrs ← key_error_as_networkx msg (PyDict.getitem n (_succ g));
  node' ← key_error_as_networkx msg (PyDict.del n (_node g));
  pred1 ← foldM (λ pred u, del_inner u n pred) (_pred g) (PyDict.keys nbrs);
  succ1 ← PyDict.del n (_succ g);
  pred_n ← PyDict.getitem n pred1;
  succ2 ← foldM (λ succ u, del_inner u n succ) succ1 (PyDict.keys pred_n);
  pred2 ← PyDict.del n pred1;
  Ok {| _node := node'; _succ := succ2; _pred := pred2 |}.

(** [G.remove_edge(u, v)] *)
Definition remove_edge (u v : string) (g : DiGraph) : result DiGraph :=
  key_error_as_networkx ("The edge " +:+ u +:+ "-" +:+ v +:+ " not in graph.")
    (succ' ← del_inner u v (_succ g);
     pred' ← del_inner v u (_pred g);
     Ok {| _node := _node g; _succ := succ'; _pred := pred' |}).

(** [list(G.in_degree())]: the nodes of [_succ] in order, each with the
    number of its predecessors. *)
Definition in_degree (g : DiGraph) : result (list (string * nat)) :=
  mapM (λ n, preds ← PyDict.getitem n (_pred g); Ok (n, PyDict.len preds))
    (PyDict.keys (_succ g)).

(** [G.in_degree(n)] and [G.out_degree(n)] *)
Definition in_degree_of (n : string) (g : DiGraph) : result nat :=
  preds ← PyDict.getitem n (_pred g); Ok (PyDict.len preds).

Definition out_degree_of (n : string) (g : DiGraph) : result nat :=
  succs ← PyDict.getitem n (_succ g); Ok (PyDict.len succs).

(** [list(G.neighbors(n))] *)
Definition neighbors (n : string) (g : DiGraph) : result (list string) :=
  key_error_as_networkx ("The node " +:+ n +:+ " is not in the digraph.")
    (nbrs ← PyDict.getitem n (_succ g); Ok (PyDict.keys nbrs)).

(** The state of the loops of [topological_generations]: [indegree_map]
    and the [zero_indegree] list under construction. *)
Definition kahn_state : Type := PyDict.t string nat * list string.

(** The body of [for child in G.neighbors(node)].  A count in
    [indegree_map] is positive: an entry is deleted when it reaches 0. *)
Definition visit_child (st : kahn_state) (child : string) : result kahn_state :=
  let '(indegree_map, zero_indegree) := st in
  match PyDict.get child indegree_map with
  | None => Raise (RuntimeError "Graph changed during iteration")
  | Some d =>
      let d' := d - 1 in
      if decide (d' = 0)
      then Ok (PyDict.remove child indegree_map, zero_indegree ++ [child])
      else Ok (PyDict.set child d' indegree_map, zero_indegree)
  end.

(** The body of [for node in this_generation]. *)
Definition visit_node (g : DiGraph) (st : kahn_state) (node : string)
  : result kahn_state :=
  if negb (contains node g)
  then Raise (RuntimeError "Graph changed during iteration")
  else children ← neighbors node g; foldM visit_child st children.

(** The [while zero_indegree] loop, one generation per turn, and the check
    that follows it.  [fuel] bounds the number of turns. *)
Fixpoint generations_loop (fuel : nat) (g : DiGraph)
    (indegree_map : PyDict.t string nat) (zero_indegree : list string)
  : result (list (list string)) :=
  match zero_indegree with
  | [] =>
      if decide (indegree_map = [])
      then Ok []
      else Raise (NetworkXUnfeasible
                    "Graph contains a cycle or graph changed during iteration")
  | _ :: _ =>
      match fuel with
      | 0 => Raise OutOfFuel
      | S fuel' =>
          let this_generation := zero_indegree in
          '(indegree_map', zero_indegree') ←
            foldM (visit_node g) (indegree_map, []) this_generation;
          later ← generations_loop fuel' g indegree_map' zero_indegree';
          Ok (this_generation :: later)
      end
  end.

(** [list(nx.topological_generations(G))].  Every turn of the loop but the
    last deletes an entry of [indegree_map], hence the fuel. *)
Definition topological_generations (g : DiGraph) : result (list (list string)) :=
  degrees ← in_degree g;
  let indegree_map := filter (λ vd, 0 < vd.2) degrees in
  let zero_indegree := (filter (λ vd, vd.2 = 0) degrees).*1 in
  generations_loop (S (length indegree_map)) g indegree_map zero_indegree.

(** [list(nx.topological_sort(G))] *)
Definition topological_sort (g : DiGraph) : result (list string) :=
  generations ← topological_generations g; Ok (concat generations).

(** The edge relation, cycles, and what a topological order is: a
    sequence holding every node once in which the source of every edge
    stands before its target. *)
Definition edge (g : DiGraph) : relation string :=
  λ u v, has_edge u v g = true.

Definition has_cycle (g : DiGraph) : Prop := ∃ w, tc (edge g) w w.

Definition before (order : list string) (u v : string) : Prop :=
  ∃ i j, order !! i = Some u ∧ order !! j = Some v ∧ i < j.

Definition topological_order (g : DiGraph) (order : list string) : Prop :=
  order ≡ₚ nodes g ∧ ∀ u v, edge g u v → before order u v.

(** The state the class keeps its three dictionaries in: the same keys in
    the same order, no key twice, and [_pred] the mirror image of [_succ]
    (an edge's attribute dictionary is shared by the two). *)
Record wf (g : DiGraph) : Prop := mk_wf {
  wf_node : PyDict.wf (_node g);
  wf_succ_keys : PyDict.keys (_succ g) = PyDict.keys (_node g);
  wf_pred_keys : PyDict.keys (_pred g) = PyDict.keys (_node g);
  wf_succ_inner : ∀ u nbrs, PyDict.get u (_succ g) = Some nbrs → PyDict.wf nbrs;
  wf_pred_inner : ∀ v preds, PyDict.get v (_pred g) = Some preds → PyDict.wf preds;
  wf_mirror : ∀ u v, lookup2 (_succ g) u v = lookup2 (_pred g) v u
}.

(** *** What the proofs about [topological_generations] speak of *)

(** The predecessors and successors of a node, and the number of
    predecessors that are not among the nodes [D] already put out. *)
Definition preds (g : DiGraph) (v : string) : list string :=
  PyDict.keys (default [] (PyDict.get v (_pred g))).

Definition succs (g : DiGraph) (u : string) : list string :=
  PyDict.keys (default [] (PyDict.get u (_succ g))).

Definition remaining (g : DiGraph) (D : list string) (v : string) : nat :=
  length (filter (λ u, u ∉ D) (preds g v)).

(** One for a node of [cs], zero for any other. *)
Definition counted (cs : list string) (v : string) : nat :=
  if decide (v ∈ cs) then 1 else 0.

(** Every predecessor of a node of [D] stands before it in [D]. *)
Definition sorted (g : DiGraph) (D : list string) : Prop :=
  ∀ j v, D !! j = Some v → ∀ u, u ∈ preds g v → ∃ i, i < j ∧ D !! i = Some u.

(** What holds while the successors of [x] are visited: [cs] are those
    visited so far, [R] the rest of the generation. *)
Record child_inv (g : DiGraph) (D : list string) (x : string) (R cs : list string)
    (st : kahn_state) : Prop := mk_child_inv {
  ci_perm : D ++ x :: R ++ st.2 ++ PyDict.keys st.1 ≡ₚ nodes g;
  ci_map : ∀ v d, PyDict.get v st.1 = Some d →
                  0 < d ∧ remaining g D v = d + counted cs v;
  ci_pending : ∀ v, v ∈ R ++ st.2 → remaining g D v = counted cs v
}.

(** What holds between two nodes of a generation: [D] are the nodes put
    out, [P] those waiting (the rest of the generation, then the next). *)
Record inv (g : DiGraph) (D P : list string) (imap : PyDict.t string nat)
  : Prop := mk_inv {
  inv_perm : D ++ P ++ PyDict.keys imap ≡ₚ nodes g;
  inv_map : ∀ v d, PyDict.get v imap = Some d → 0 < d ∧ remaining g D v = d;
  inv_pending : ∀ v, v ∈ P → remaining g D v = 0;
  inv_sorted : sorted g D
}.

(** Each turn of the loop that fills [zero_indegree] empties
    [indegree_map] by as much. *)
Definition measure (st : kahn_state) : nat := length st.1 + length st.2.

End digraph.
Arguments DiGraph : clear implicits.

(** A chain of edges. *)
Inductive walk (E : relation string) : list string → Prop :=
| walk_one v : walk E [v]
| walk_cons u v l : E u v → walk E (v :: l) → walk E (u :: v :: l).

End Nx.

(** ** [PayrollVariableGraph] (src/payroll_variable_agent.py) *)

Module Graph.

(** A calculation function, as far as the graph looks into it: what
    [function.__name__] evaluates to (a [functools.partial] object has no
    such attribute: [AttributeError]), what [str(inspect.signature(function))]
    evaluates to ([inspect.signature] raises [ValueError] for a callable it
    finds no signature for, as for some built-in functions, and [TypeError]
    for an object that is not callable), its docstring, the names of
    [inspect.signature(function).parameters] when there is a signature, and
    what a call with keyword arguments returns or raises. *)
Record func : Type := mk_func {
  f_name : result string;
  f_signature : result string;
  f_doc : string;
  f_parameters : list string;
  f_call : PyDict.t string pyval → result pyval
}.

(** The nine keys [add_calculation_node] writes into the attribute
    dictionary of a node. *)
Record node_attrs : Type := mk_node_attrs {
  na_description : string;
  na_function_name : string;
  na_function_signature : string;
  na_function_doc : string;
  na_output_variable : option string;
  na_input_variables : list string;
  na_legal_reference : option string;
  na_node_type : string;
  na_created_at : time
}.

(** The attribute dictionary of a node: empty ([None], what networkx
    gives a node that [add_edge] creates), or with the nine keys. *)
Definition attr_dict : Type := option node_attrs.

(** An entry of one of the two variable registries. *)
Record variable_info : Type := mk_variable_info {
  vi_name : string;
  vi_type : string;
  vi_description : string;
  vi_data_type : string;
  vi_legal_reference : option string;
  vi_calculation_formula : option string;
  vi_depends_on : list string;
  vi_created_at : time
}.

Record impact_source : Type := mk_impact_source {
  is_description : string;
  is_convention : option string;
  is_timestamp : time
}.

(** The object: [graph], [_function_registry], the two dictionaries of
    [_variable_registry] and [_impact_source]. *)
Record PayrollVariableGraph : Type := mk_graph {
  graph : Nx.DiGraph attr_dict;
  _function_registry : PyDict.t string func;
  input_variables : PyDict.t string variable_info;
  intermediate_variables : PyDict.t string variable_info;
  _impact_source : option impact_source
}.

(** [__init__], and the state [clear_system] leaves *)
Definition init : PayrollVariableGraph :=
  {| graph := Nx.empty; _function_registry := [];
     input_variables := []; intermediate_variables := [];
     _impact_source := None |}.

Definition clear_system (s : PayrollVariableGraph) : PayrollVariableGraph := init.

Definition with_graph (g : Nx.DiGraph attr_dict) (s : PayrollVariableGraph)
  : PayrollVariableGraph :=
  {| graph := g; _function_registry := _function_registry s;
     input_variables := input_variables s;
     intermediate_variables := intermediate_variables s;
     _impact_source := _impact_source s |}.

Definition with_registry (input intermediate : PyDict.t string variable_info)
    (s : PayrollVariableGraph) : PayrollVariableGraph :=
  {| graph := graph s; _function_registry := _function_registry s;
     input_variables := input; intermediate_variables := intermediate;
     _impact_source := _impact_source s |}.

(** [set_impact_source] *)
Definition set_impact_source (impact_description : string)
    (source_convention : option string) (now : time) (s : PayrollVariableGraph)
  : PayrollVariableGraph :=
  {| graph := graph s; _function_registry := _function_registry s;
     input_variables := input_variables s;
     intermediate_variables := intermediate_variables s;
     _impact_source := Some {| is_description := impact_description;
                               is_convention := source_convention;
                               is_timestamp := now |} |}.

(** The dictionary [variable_info] of [add_variable]. *)
Definition make_variable_info (var_name var_type description data_type : string)
    (legal_reference calculation_formula : option string)
    (depends_on : option (list string)) (now : time) : variable_info :=
  {| vi_name := var_name; vi_type := var_type; vi_description := description;
     vi_data_type := data_type; vi_legal_reference := legal_reference;
     vi_calculation_formula := calculation_formula;
     vi_depends_on := default [] depends_on; vi_created_at := now |}.

(** [add_variable] *)
Definition add_variable (var_name var_type description data_type : string)
    (legal_reference calculation_formula : option string)
    (depends_on : option (list string)) (now : time) (s : PayrollVariableGraph)
  : PayrollVariableGraph :=
  let variable_info :=
    make_variable_info var_name var_type description data_type legal_reference
      calculation_formula depends_on now in
  if String.eqb var_type "input"
  then with_registry (PyDict.set var_name variable_info (input_variables s))
         (intermediate_variables s) s
  else with_registry (input_variables s)
         (PyDict.set var_name variable_info (intermediate_variables s)) s.

(** The dictionary of [_variable_registry] a variable of type [var_type]
    goes to, and the other one. *)
Definition registry_of (var_type : string) (s : PayrollVariableGraph)
  : PyDict.t string variable_info :=
  if String.eqb var_type "input" then input_variables s
  else intermediate_variables s.

Definition other_registry_of (var_type : string) (s : PayrollVariableGraph)
  : PyDict.t string variable_info :=
  if String.eqb var_type "input" then intermediate_variables s
  else input_variables s.

(** The entries the registry holds under one name, those of
    ['input_variables'] first. *)
Definition entries_named (var_name : string) (s : PayrollVariableGraph)
  : list variable_info :=
  (filter (λ kv, kv.1 = var_name) (input_variables s)).*2
  ++ (filter (λ kv, kv.1 = var_name) (intermediate_variables s)).*2.

(** [remove_variable] *)
Definition remove_variable (var_name : string) (s : PayrollVariableGraph)
  : PayrollVariableGraph * bool :=
  let removed := false in
  let '(input, removed) :=
    if PyDict.mem var_name (input_variables s)
    then (PyDict.remove var_name (input_variables s), true)
    else (input_variables s, removed) in
  let '(intermediate, removed) :=
    if PyDict.mem var_name (intermediate_variables s)
    then (PyDict.remove var_name (intermediate_variables s), true)
    else (intermediate_variables s, removed) in
  (with_registry input intermediate s, removed).

(** The eight keys of an entry of the variable registry. *)
Definition variable_keys : list string :=
  ["name"; "type"; "description"; "data_type"; "legal_reference";
   "calculation_formula"; "depends_on"; "created_at"].

(** One item of the [**updates] of [update_variable]: a key of the entry
    with a value of the type the entry has under it, or a key that is none
    of the eight, with any value. *)
Inductive variable_update : Type :=
| UpdName (v : string)
| UpdType (v : string)
| UpdDescription (v : string)
| UpdDataType (v : string)
| UpdLegalReference (v : option string)
| UpdCalculationFormula (v : option string)
| UpdDependsOn (v : list string)
| UpdCreatedAt (v : time)
| UpdOtherKey (key : string) (v : pyval) (Hkey : key ∉ variable_keys).

(** The keyword an item stands for. *)
Definition update_key (u : variable_update) : string :=
  match u with
  | UpdName _ => "name"
  | UpdType _ => "type"
  | UpdDescription _ => "description"
  | UpdDataType _ => "data_type"
  | UpdLegalReference _ => "legal_reference"
  | UpdCalculationFormula _ => "calculation_formula"
  | UpdDependsOn _ => "depends_on"
  | UpdCreatedAt _ => "created_at"
  | UpdOtherKey key _ _ => key
  end.

(** [if key in var_info: var_info[key] = value] *)
Definition apply_variable_update (var_info : variable_info) (u : variable_update)
  : variable_info :=
  let '(mk_variable_info n t d dt lr cf dep ca) := var_info in
  match u with
  | UpdName v => mk_variable_info v t d dt lr cf dep ca
  | UpdType v => mk_variable_info n v d dt lr cf dep ca
  | UpdDescription v => mk_variable_info n t v dt lr cf dep ca
  | UpdDataType v => mk_variable_info n t d v lr cf dep ca
  | UpdLegalReference v => mk_variable_info n t d dt v cf dep ca
  | UpdCalculationFormula v => mk_variable_info n t d dt lr v dep ca
  | UpdDependsOn v => mk_variable_info n t d dt lr cf v ca
  | UpdCreatedAt v => mk_variable_info n t d dt lr cf dep v
  | UpdOtherKey _ _ _ => var_info
  end.

(** [update_variable], called as [update_variable(var_name, **updates)]. *)
Definition update_variable (var_name : string) (updates : list variable_update)
    (s : PayrollVariableGraph) : result (PayrollVariableGraph * bool) :=
  _ ← bind_keywords "PayrollVariableGraph.update_variable" ["self"; "var_name"]
        (update_key <$> updates);
  match PyDict.get var_name (input_variables s) with
  | Some var_info =>
      Ok (with_registry
            (PyDict.set var_name (foldl apply_variable_update var_info updates)
               (input_variables s))
            (intermediate_variables s) s, true)
  | None =>
      match PyDict.get var_name (intermediate_variables s) with
      | Some var_info =>
          Ok (with_registry (input_variables s)
                (PyDict.set var_name (foldl apply_variable_update var_info updates)
                   (intermediate_variables s)) s, true)
      | None => Ok (s, false)
      end
  end.

Definition with_function_registry (registry : PyDict.t string func)
    (s : PayrollVariableGraph) : PayrollVariableGraph :=
  {| graph := graph s; _function_registry := registry;
     input_variables := input_variables s;
     intermediate_variables := intermediate_variables s;
     _impact_source := _impact_source s |}.

(** The dictionary [node_attrs] of [add_calculation_node], whose second
    and third items can raise. *)
Definition make_node_attrs (function : func) (description : string)
    (output_variable : option string) (input_variables_arg : option (list string))
    (legal_reference : option string) (now : time) : result node_attrs :=
  function_name ← f_name function;
  function_signature ← f_signature function;
  Ok {| na_description := description;
        na_function_name := function_name;
        na_function_signature := function_signature;
        na_function_doc := f_doc function;
        na_output_variable := output_variable;
        na_input_variables := default [] input_variables_arg;
        na_legal_reference := legal_reference;
        na_node_type := "calculation";
        na_created_at := now |}.

(** [add_calculation_node]: the object after the call, and the exception
    that left it, if any.  The function is in the registry before the
    attributes are put together, so a call that raises there leaves the
    function registered, under an identifier that is no node or is the
    node of another function. *)
Definition add_calculation_node (node_id : string) (function : func)
    (description : string) (output_variable : option string)
    (input_variables_arg : option (list string)) (legal_reference : option string)
    (now : time) (s : PayrollVariableGraph) : PayrollVariableGraph * option exn :=
  let s := with_function_registry
             (PyDict.set node_id function (_function_registry s)) s in
  match
    node_attrs ← make_node_attrs function description output_variable
                   input_variables_arg legal_reference now;
    Nx.add_node node_id (Some node_attrs) (graph s)
  with
  | Ok g => (with_graph g s, None)
  | Raise e => (s, Some e)
  end.

(** The dictionary [edge_attrs] of [connect_calculations]:
    [{'variable_passed': ..., 'created_at': ..., **attrs}]. *)
Definition make_edge_attrs (variable_passed : option string) (now : time)
    (attrs : Nx.edge_attrs) : Nx.edge_attrs :=
  PyDict.update attrs
    [("variable_passed", from_option PStr PNone variable_passed);
     ("created_at", PTime now)].

(** [connect_calculations] *)
Definition connect_calculations (from_node to_node : string)
    (variable_passed : option string) (attrs : Nx.edge_attrs) (now : time)
    (s : PayrollVariableGraph) : result PayrollVariableGraph :=
  if negb (Nx.contains from_node (graph s)) || negb (Nx.contains to_node (graph s))
  then Raise NodesMustExist
  else
    let edge_attrs := make_edge_attrs variable_passed now attrs in
    g ← Nx.add_edge None from_node to_node edge_attrs (graph s);
    Ok (with_graph g s).

(** [execute_calculation], called as
    [execute_calculation(node_id, **variable_values)]. *)
Definition execute_calculation (node_id : string)
    (variable_values : PyDict.t string pyval) (s : PayrollVariableGraph)
  : result pyval :=
  _ ← bind_keywords "PayrollVariableGraph.execute_calculation" ["self"; "node_id"]
        (PyDict.keys variable_values);
  if negb (PyDict.mem node_id (_function_registry s))
  then Raise (UnknownNode node_id)
  else
    func ← PyDict.getitem node_id (_function_registry s);
    node_info ← PyDict.getitem node_id (Nx._node (graph s));
    let required_vars := from_option na_input_variables [] node_info in
    let missing_vars :=
      filter (λ var, PyDict.mem var variable_values = false) required_vars in
    if negb (bool_decide (missing_vars = []))
    then Raise (MissingArguments node_id missing_vars)
    else
      _ ← f_signature func;
      let filtered_args :=
        filter (λ kv, kv.1 ∈ f_parameters func) variable_values in
      f_call func filtered_args.

(** [remove_calculation_node] *)
Definition remove_calculation_node (node_id : string) (s : PayrollVariableGraph)
  : result (PayrollVariableGraph * bool) :=
  if negb (Nx.contains node_id (graph s))
  then Ok (s, false)
  else
    g ← Nx.remove_node node_id (graph s);
    let registry :=
      if PyDict.mem node_id (_function_registry s)
      then PyDict.remove node_id (_function_registry s)
      else _function_registry s in
    Ok ({| graph := g; _function_registry := registry;
           input_variables := input_variables s;
           intermediate_variables := intermediate_variables s;
           _impact_source := _impact_source s |}, true).

(** The nine keys of the attribute dictionary of a node. *)
Definition node_keys : list string :=
  ["description"; "function_name"; "function_signature"; "function_doc";
   "output_variable"; "input_variables"; "legal_reference"; "node_type";
   "created_at"].

(** One item of the [**updates] of [update_calculation_node]: one of the
    nine keys with a value of the type [add_calculation_node] gives it, or
    a key that is none of the nine, with any value. *)
Inductive node_update : Type :=
| UpdNodeDescription (v : string)
| UpdFunctionName (v : string)
| UpdFunctionSignature (v : string)
| UpdFunctionDoc (v : string)
| UpdOutputVariable (v : option string)
| UpdInputVariables (v : list string)
| UpdNodeLegalReference (v : option string)
| UpdNodeType (v : string)
| UpdNodeCreatedAt (v : time)
| UpdNodeOtherKey (key : string) (v : pyval) (Hkey : key ∉ node_keys).

Definition node_update_key (u : node_update) : string :=
  match u with
  | UpdNodeDescription _ => "description"
  | UpdFunctionName _ => "function_name"
  | UpdFunctionSignature _ => "function_signature"
  | UpdFunctionDoc _ => "function_doc"
  | UpdOutputVariable _ => "output_variable"
  | UpdInputVariables _ => "input_variables"
  | UpdNodeLegalReference _ => "legal_reference"
  | UpdNodeType _ => "node_type"
  | UpdNodeCreatedAt _ => "created_at"
  | UpdNodeOtherKey key _ _ => key
  end.

(** [if key in node_attrs: node_attrs[key] = value] *)
Definition apply_node_update (attrs : attr_dict) (u : node_update) : attr_dict :=
  match attrs with
  | None => None
  | Some (mk_node_attrs d fn fs fd ov iv lr nt ca) =>
      Some match u with
           | UpdNodeDescription v => mk_node_attrs v fn fs fd ov iv lr nt ca
           | UpdFunctionName v => mk_node_attrs d v fs fd ov iv lr nt ca
           | UpdFunctionSignature v => mk_node_attrs d fn v fd ov iv lr nt ca
           | UpdFunctionDoc v => mk_node_attrs d fn fs v ov iv lr nt ca
           | UpdOutputVariable v => mk_node_attrs d fn fs fd v iv lr nt ca
           | UpdInputVariables v => mk_node_attrs d fn fs fd ov v lr nt ca
           | UpdNodeLegalReference v => mk_node_attrs d fn fs fd ov iv v nt ca
           | UpdNodeType v => mk_node_attrs d fn fs fd ov iv lr v ca
           | UpdNodeCreatedAt v => mk_node_attrs d fn fs fd ov iv lr nt v
           | UpdNodeOtherKey _ _ _ => mk_node_attrs d fn fs fd ov iv lr nt ca
           end
  end.

(** [update_calculation_node], called as
    [update_calculation_node(node_id, **updates)]. *)
Definition update_calculation_node (node_id : string) (updates : list node_update)
    (s : PayrollVariableGraph) : result (PayrollVariableGraph * bool) :=
  _ ← bind_keywords "PayrollVariableGraph.update_calculation_node"
        ["self"; "node_id"] (node_update_key <$> updates);
  match PyDict.get node_id (Nx._node (graph s)) with
  | None => Ok (s, false)
  | Some attrs =>
      let g := graph s in
      Ok (with_graph
            {| Nx._node := PyDict.set node_id (foldl apply_node_update attrs updates)
                             (Nx._node g);
               Nx._succ := Nx._succ g; Nx._pred := Nx._pred g |} s, true)
  end.

(** [remove_connection] *)
Definition remove_connection (from_node to_node : string)
    (s : PayrollVariableGraph) : result (PayrollVariableGraph * bool) :=
  if Nx.has_edge from_node to_node (graph s)
  then g ← Nx.remove_edge from_node to_node (graph s); Ok (with_graph g s, true)
  else Ok (s, false).

(** What sub-section 4D of [to_llm_readable_text] adds to the text: the
    three lines of the analysis, or the line of the error it reports. *)
Inductive dependency_analysis : Type :=
| Analysis (topo_order entry_points exit_points : list string)
| AnalysisError (e : exn).

(** [[n for n in G.nodes() if degree(n) == 0]] *)
Definition nodes_of_degree_zero (degree : string → result nat)
    (g : Nx.DiGraph attr_dict) : result (list string) :=
  degrees ← mapM (λ n, d ← degree n; Ok (n, d)) (Nx.nodes g);
  Ok (filter (λ nd : string * nat, nd.2 = 0) degrees).*1.

(** The [try] block of sub-section 4D of [to_llm_readable_text] with its
    handler, [except nx.NetworkXError]. *)
Definition analyse_dependencies (g : Nx.DiGraph attr_dict)
  : result dependency_analysis :=
  match
    topo_order ← Nx.topological_sort g;
    entry_points ← nodes_of_degree_zero (λ n, Nx.in_degree_of n g) g;
    exit_points ← nodes_of_degree_zero (λ n, Nx.out_degree_of n g) g;
    Ok (Analysis topo_order entry_points exit_points)
  with
  | Ok a => Ok a
  | Raise e =>
      if isinstance_NetworkXError e then Ok (AnalysisError e) else Raise e
  end.

(** Section 4 of [to_llm_readable_text] runs the analysis when the graph
    has a node; an exception that leaves the analysis leaves the method. *)
Definition to_llm_readable_text_4D (s : PayrollVariableGraph)
  : result (option dependency_analysis) :=
  match Nx.nodes (graph s) with
  | [] => Ok None
  | _ :: _ => a ← analyse_dependencies (graph s); Ok (Some a)
  end.

(** The tool [get_llm_readable_representation] around the method: the
    text, or the message its [except Exception] returns in its place. *)
Definition get_llm_readable_representation (s : PayrollVariableGraph)
  : option dependency_analysis + string :=
  match to_llm_readable_text_4D s with
  | Ok text => inl text
  | Raise e =>
      inr ("Erreur lors de la génération de la représentation: " +:+ str_exn e)
  end.

(** The dictionary [levels] of [_generate_flowchart], whose bare [except]
    falls back to the order of the nodes. *)
Definition flowchart_levels (s : PayrollVariableGraph) : PyDict.t string nat :=
  let order :=
    match Nx.topological_sort (graph s) with
    | Ok topo_order => topo_order
    | Raise _ => Nx.nodes (graph s)
    end in
  foldl (λ levels ni, PyDict.set ni.2 ni.1 levels) [] (imap (λ i n, (i, n)) order).

(** What holds of the object between calls: the graph is a well-formed
    [DiGraph], every node carries its nine attributes and has a function
    in the registry, and no dictionary holds a key twice.  The registry can
    hold more keys than the graph has nodes: those of the calls of
    [add_calculation_node] that raised. *)
Record wf (s : PayrollVariableGraph) : Prop := mk_wf {
  wf_graph : Nx.wf (graph s);
  wf_attrs : ∀ n a, PyDict.get n (Nx._node (graph s)) = Some a → is_Some a;
  wf_registry : PyDict.wf (_function_registry s);
  wf_registry_nodes : ∀ n, n ∈ Nx.nodes (graph s) →
                           n ∈ PyDict.keys (_function_registry s);
  wf_input : PyDict.wf (input_variables s);
  wf_intermediate : PyDict.wf (intermediate_variables s)
}.

(** The calls that change the object. *)
Inductive op : Type :=
| SetImpactSource (impact_description : string)
    (source_convention : option string) (now : time)
| AddVariable (var_name var_type description data_type : string)
    (legal_reference calculation_formula : option string)
    (depends_on : option (list string)) (now : time)
| AddCalculationNode (node_id : string) (function : func) (description : string)
    (output_variable : option string) (input_variables_arg : option (list string))
    (legal_reference : option string) (now : time)
| ConnectCalculations (from_node to_node : string)
    (variable_passed : option string) (attrs : Nx.edge_attrs) (now : time)
| RemoveVariable (var_name : string)
| UpdateVariable (var_name : string) (updates : list variable_update)
| RemoveCalculationNode (node_id : string)
| UpdateCalculationNode (node_id : string) (updates : list node_update)
| RemoveConnection (from_node to_node : string)
| ClearSystem.

(** A call that raises before it has changed the object. *)
Definition or_unchanged (s : PayrollVariableGraph) (r : result PayrollVariableGraph)
  : PayrollVariableGraph * option exn :=
  match r with
  | Ok s' => (s', None)
  | Raise e => (s, Some e)
  end.

(** One call: the object afterwards, and the exception that left the call,
    if any. *)
Definition step (o : op) (s : PayrollVariableGraph)
  : PayrollVariableGraph * option exn :=
  match o with
  | SetImpactSource d c now => (set_impact_source d c now s, None)
  | AddVariable n t d dt lr cf dep now =>
      (add_variable n t d dt lr cf dep now s, None)
  | AddCalculationNode n f d ov iv lr now => add_calculation_node n f d ov iv lr now s
  | ConnectCalculations u v vp attrs now =>
      or_unchanged s (connect_calculations u v vp attrs now s)
  | RemoveVariable n => ((remove_variable n s).1, None)
  | UpdateVariable n us => or_unchanged s (r ← update_variable n us s; Ok r.1)
  | RemoveCalculationNode n =>
      or_unchanged s (r ← remove_calculation_node n s; Ok r.1)
  | UpdateCalculationNode n us =>
      or_unchanged s (r ← update_calculation_node n us s; Ok r.1)
  | RemoveConnection u v => or_unchanged s (r ← remove_connection u v s; Ok r.1)
  | ClearSystem => (clear_system s, None)
  end.

(** The object after a sequence of calls, those that raise included.  On
    an object built by these calls, the calls that raise are
    [connect_calculations] on a missing endpoint and the two updates on a
    keyword that names a parameter, which raise before they change
    anything, and [add_calculation_node] on a function without a name or a
    signature, which has registered the function by then. *)
Definition run (ops : list op) (s : PayrollVariableGraph) : PayrollVariableGraph :=
  foldl (λ acc o, (step o acc).1) s ops.

End Graph.

(** ** Small monitors and graphs

    The objects the examples below run the model on. *)

(** A run of 1500 logged actions, numbered by their clock readings. *)
Definition numbered_call (i : nat) : Monitor.log_call :=
  {| Monitor.lc_session_id := "s1"; Monitor.lc_agent_type := "payroll_agent";
     Monitor.lc_action := "step"; Monitor.lc_message := "";
     Monitor.lc_level := "info"; Monitor.lc_data := None;
     Monitor.lc_t_event := Z.of_nat i; Monitor.lc_t_activity := Z.of_nat i |}.

(** A log with events of two sessions, as three calls leave it. *)
Definition call_of_session (sid : string) (t : time) : Monitor.log_call :=
  {| Monitor.lc_session_id := sid; Monitor.lc_agent_type := "payroll_agent";
     Monitor.lc_action := "step"; Monitor.lc_message := "";
     Monitor.lc_level := "info"; Monitor.lc_data := None;
     Monitor.lc_t_event := t; Monitor.lc_t_activity := t |}.

Definition two_session_monitor : Monitor.AgentMonitor :=
  Monitor.run
    [Monitor.LogAgentAction (call_of_session "A" 1%Z);
     Monitor.LogAgentAction (call_of_session "B" 2%Z);
     Monitor.LogAgentAction (call_of_session "A" 3%Z)]
    Monitor.init.






(** A function of [x] alone, and two nodes bound to it: one that declares
    [x], one that declares [x] and [z]. *)
Definition double : Graph.func :=
  {| Graph.f_name := Ok "double"; Graph.f_signature := Ok "(x)"; Graph.f_doc := "";
     Graph.f_parameters := ["x"];
     Graph.f_call := λ kwargs,
       match kwargs with
       | [("x", PInt x)] => Ok (PInt (2 * x))
       | _ => Raise (TypeError "double() takes the keyword argument x")
       end |}.

Definition two_nodes : Graph.PayrollVariableGraph :=
  Graph.run
    [Graph.AddCalculationNode "n1" double "twice x" (Some "y") (Some ["x"]) None 0%Z;
     Graph.AddCalculationNode "n2" double "twice x" None (Some ["x"; "z"]) None 1%Z]
    Graph.init.

(** [functools.partial(double)]: a callable with a signature and without a
    [__name__]. *)
Definition partial_double : Graph.func :=
  {| Graph.f_name :=
       Raise (AttributeError "'functools.partial' object has no attribute '__name__'");
     Graph.f_signature := Ok "(x)"; Graph.f_doc := "";
     Graph.f_parameters := ["x"]; Graph.f_call := Graph.f_call double |}.

(** The object after a call of [add_calculation_node] that raised. *)
Definition failed_add : Graph.PayrollVariableGraph :=
  Graph.run
    [Graph.AddCalculationNode "n1" partial_double "twice x" (Some "y") (Some ["x"])
       None 0%Z]
    Graph.init.

Definition calculation (node_id : string) (t : time) : Graph.op :=
  Graph.AddCalculationNode node_id double "twice x" None (Some ["x"]) None t.

Definition connection (from_node to_node : string) (t : time) : Graph.op :=
  Graph.ConnectCalculations from_node to_node None [] t.

(** The cycle [A → B → C → A]. *)
Definition three_cycle_calls : list Graph.op :=
  [calculation "A" 0; calculation "B" 1; calculation "C" 2;
   connection "A" "B" 3; connection "B" "C" 4; connection "C" "A" 5]%Z.

Definition three_cycle : Graph.PayrollVariableGraph :=
  Graph.run three_cycle_calls Graph.init.

(** The same three nodes in a chain [A → B → C]. *)
Definition chain_calls : list Graph.op :=
  [calculation "A" 0; calculation "B" 1; calculation "C" 2;
   connection "A" "B" 3; connection "B" "C" 4]%Z.

Definition chain : Graph.PayrollVariableGraph := Graph.run chain_calls Graph.init.

(** An update under a name the entries do not have, and one under the
    name of a parameter of [update_variable]. *)
Definition colour_update : Graph.variable_update :=
  Graph.UpdOtherKey "colour" (PStr "red")
    ltac:(apply (bool_decide_unpack _); exact I).

Definition var_name_update : Graph.variable_update :=
  Graph.UpdOtherKey "var_name" (PStr "y")
    ltac:(apply (bool_decide_unpack _); exact I).

(** One input variable. *)
Definition one_variable : Graph.PayrollVariableGraph :=
  Graph.run [Graph.AddVariable "x" "input" "first" "float" None None None 0%Z]
    Graph.init.

(** * The read side of the two classes, and their callers *)

(** ** [AgentMonitor]: statistics of a session *)

Module MonitorStats.
Import Monitor.

(** [get_active_sessions]: a copy of the dictionary. *)
Definition get_active_sessions (m : AgentMonitor) : PyDict.t string session :=
  active_sessions m.

(** The dictionary [stats] of [get_session_stats].  [agents_involved] is
    the set the loop fills; the list the method returns in its place
    enumerates it, in an order Python does not fix.  [duration] is the
    [timedelta] whose [total_seconds()] the key ['duration_seconds']
    holds. *)
Record session_stats : Type := mk_session_stats {
  total_events : nat;
  events_by_type : PyDict.t string nat;
  events_by_level : PyDict.t string nat;
  agents_involved : gset string;
  duration : Z
}.

(** [d[k] = d.get(k, 0) + 1] *)
Definition count_up (k : string) (d : PyDict.t string nat) : PyDict.t string nat :=
  PyDict.set k (default 0 (PyDict.get k d) + 1) d.

(** The body of [for event in session_events]. *)
Definition count_event (stats : session_stats) (event : event) : session_stats :=
  {| total_events := total_events stats;
     events_by_type := count_up (ev_type event) (events_by_type stats);
     events_by_level := count_up (ev_level event) (events_by_level stats);
     agents_involved :=
       match ev_agent_type event with
       | Some agent_type => agents_involved stats ∪ {[agent_type]}
       | None => agents_involved stats
       end;
     duration := duration stats |}.

(** [get_session_stats]; [None] is the empty dictionary the method returns
    for a session it does not know, [now] the reading of the clock it
    takes for a session that has not ended. *)
Definition get_session_stats (session_id : string) (now : time) (m : AgentMonitor)
  : option session_stats :=
  match PyDict.get session_id (active_sessions m) with
  | None => None
  | Some session =>
      let session_events :=
        filter (λ e, ev_session_id e = session_id) (events m) in
      let stats :=
        {| total_events := length session_events;
           events_by_type := []; events_by_level := [];
           agents_involved := ∅; duration := 0 |} in
      let stats := foldl count_event stats session_events in
      let duration :=
        match s_ended_at session with
        | Some ended_at => (ended_at - s_started_at session)%Z
        | None => (now - s_started_at session)%Z
        end in
      Some {| total_events := total_events stats;
              events_by_type := events_by_type stats;
              events_by_level := events_by_level stats;
              agents_involved := agents_involved stats;
              duration := duration |}
  end.

End MonitorStats.

(** ** [MonitoringMixin] (src/app/monitoring.py) *)

Module Mixin.
Import Monitor.

(** An instance of a class that inherits the mixin: the name of its class
    and its [session_id].  [self.monitor] is the monitor of the module,
    which the methods take and return. *)
Record MonitoringMixin : Type := mk_mixin {
  class_name : string;
  session_id : option string
}.

(** [__init__] *)
Definition init (class_name : string) : MonitoringMixin :=
  {| class_name := class_name; session_id := None |}.

(** [start_monitoring]; [now_seconds] is [int(time.time())].  The method
    returns the new [session_id]. *)
Definition start_monitoring (description : string) (user_id : option string)
    (now_seconds : Z) (t_started t_activity t_event : time)
    (self : MonitoringMixin) (m : AgentMonitor) : MonitoringMixin * outcome :=
  let sid := class_name self +:+ "_" +:+ pretty now_seconds in
  ({| class_name := class_name self; session_id := Some sid |},
   start_session sid description user_id t_started t_activity t_event m).

(** A call that finds [self.session_id] unset does nothing. *)
Definition unchanged (m : AgentMonitor) : outcome :=
  {| monitor_after := m; trace := []; raised := None |}.

(** [log_action] *)
Definition log_action (action message level : string)
    (data : option (list (string * pyval))) (t_event t_activity : time)
    (self : MonitoringMixin) (m : AgentMonitor) : outcome :=
  match session_id self with
  | Some sid =>
      if truthy (Some sid)
      then log_agent_action
             {| lc_session_id := sid; lc_agent_type := class_name self;
                lc_action := action; lc_message := message; lc_level := level;
                lc_data := data; lc_t_event := t_event;
                lc_t_activity := t_activity |} m
      else unchanged m
  | None => unchanged m
  end.

(** [log_error]; [exception] is the name of the class of the exception
    and the text of [traceback.format_exc()], when one is passed. *)
Definition log_error (error_message : string) (exception : option (string * string))
    (t_event t_activity : time) (self : MonitoringMixin) (m : AgentMonitor)
  : outcome :=
  match session_id self with
  | Some sid =>
      if truthy (Some sid)
      then Monitor.log_error sid (class_name self) error_message
             (fst <$> exception) (snd <$> exception) t_event t_activity m
      else unchanged m
  | None => unchanged m
  end.

(** [end_monitoring] *)
Definition end_monitoring (status : string) (t_ended t_event : time)
    (self : MonitoringMixin) (m : AgentMonitor) : outcome :=
  match session_id self with
  | Some sid =>
      if truthy (Some sid)
      then end_session sid status t_ended t_event m
      else unchanged m
  | None => unchanged m
  end.

(** The monitor after a service has logged a list of actions, each with
    its two readings of the clock. *)
Record action_call : Type := mk_action_call {
  ac_action : string;
  ac_message : string;
  ac_level : string;
  ac_data : option (list (string * pyval));
  ac_t_event : time;
  ac_t_activity : time
}.

Definition log_actions (calls : list action_call) (self : MonitoringMixin)
    (m : AgentMonitor) : AgentMonitor :=
  foldl (λ acc c,
           monitor_after
             (log_action (ac_action c) (ac_message c) (ac_level c) (ac_data c)
                (ac_t_event c) (ac_t_activity c) self acc))
    m calls.

End Mixin.

(** ** The monitoring views (src/app/views.py) *)

Module Views.
Import Monitor MonitorStats.

(** The dictionary ['stats'] of the context of [monitoring_dashboard]. *)
Record dashboard_stats : Type := mk_dashboard_stats {
  total_sessions : nat;
  ds_total_events : nat;
  active_sessions_count : nat
}.

(** [monitoring_dashboard]: the context it renders. *)
Definition monitoring_dashboard (m : AgentMonitor)
  : PyDict.t string session * list event * dashboard_stats :=
  let active_sessions := get_active_sessions m in
  let recent_events := get_recent_events 50 None None m in
  (active_sessions, recent_events,
   {| total_sessions := PyDict.len active_sessions;
      ds_total_events := length (events m);
      active_sessions_count :=
        length (filter (λ s, s_status s = "active") active_sessions.*2) |}).

(** The payload of [api_monitoring_session_details]. *)
Record session_details : Type := mk_session_details {
  sd_session : session;
  sd_events : list event;
  sd_stats : option session_stats
}.

(** [api_monitoring_session_details]: the status 404 for a session the
    monitor does not know, or the payload. *)
Definition api_monitoring_session_details (session_id : string) (now : time)
    (m : AgentMonitor) : string + session_details :=
  let sessions := get_active_sessions m in
  match PyDict.get session_id sessions with
  | None => inl "Session non trouvée"
  | Some session =>
      inr {| sd_session := session;
             sd_events := get_recent_events 500 (Some session_id) None m;
             sd_stats := get_session_stats session_id now m |}
  end.

(** The names the module binds before it serves a request: those of its
    [import] statements, [logger], and its views.  The generator
    [event_stream] adds [monitor] and its own local variables. *)
Definition module_names : list string :=
  ["render"; "get_object_or_404"; "redirect"; "login_required"; "messages";
   "JsonResponse"; "require_http_methods"; "csrf_exempt"; "Paginator"; "Count";
   "Q"; "transaction"; "json"; "logging"; "Convention"; "AnalysePaie";
   "VariablePaie"; "GraphiquePaie"; "LogAnalyse"; "ConventionImportForm";
   "AnalysePaieForm"; "VariablePaieForm"; "ConventionImportService";
   "PayrollAnalysisService"; "HighchartsConfigService"; "LoggingService";
   "GraphIntegrationService"; "logger"; "dashboard"; "convention_list";
   "convention_detail"; "convention_import"; "analyse_create"; "analyse_detail";
   "api_quick_analysis"; "api_chart_config"; "api_live_data";
   "api_regenerate_chart"; "api_search_articles"; "monitoring_dashboard";
   "api_monitoring_events"; "api_monitoring_sessions";
   "api_monitoring_session_details"; "StreamingHttpResponse";
   "api_monitoring_stream"; "analyse_logs"; "export_analysis"].

(** The evaluation of a name that is no local variable and no built-in. *)
Definition global_name (name : string) : result unit :=
  if bool_decide (name ∈ module_names) then Ok () else Raise (NameError name).

(** What the generator [event_stream] of [api_monitoring_stream] yields:
    the line of an event, of a heartbeat or of an error. *)
Inductive stream_item : Type :=
| Data (e : event)
| Heartbeat (timestamp : time)
| StreamError (message : string).

(** Before its loop the generator reads the length of the log and yields
    the last 20 events. *)
Definition event_stream_start (m : AgentMonitor) : nat * list event :=
  (length (events m), get_recent_events 20 None None m).

(** The heartbeat of a turn, [now] being the clock when the turn reaches
    it: the line is built from [datetime.now()]. *)
Definition heartbeat (now : time) : result stream_item :=
  _ ← global_name "datetime"; Ok (Heartbeat now).

(** [time.sleep(2)] *)
Definition sleep : result unit := global_name "time".

(** One turn of the loop [while True], with the monitor as the turn finds
    it: the items it yields, and the new [last_event_count], or [None] when
    the turn leaves the loop.  The [try] block yields the new events and
    the heartbeat and sleeps; [except Exception as e] yields the message of
    [e] and breaks. *)
Definition event_stream_turn (last_event_count : nat) (m : AgentMonitor)
    (now : time) : list stream_item * option nat :=
  let current_count := length (events m) in
  let '(new_events, last_event_count) :=
    if decide (last_event_count < current_count)
    then (get_recent_events (Z.of_nat current_count - Z.of_nat last_event_count)
            None None m, current_count)
    else ([], last_event_count) in
  match heartbeat now with
  | Raise e => ((Data <$> new_events) ++ [StreamError (str_exn e)], None)
  | Ok beat =>
      match sleep with
      | Raise e =>
          ((Data <$> new_events) ++ [beat; StreamError (str_exn e)], None)
      | Ok _ => ((Data <$> new_events) ++ [beat], Some last_event_count)
      end
  end.

(** The loop, over the monitors and the clocks its successive turns
    find. *)
Fixpoint event_stream_loop (last_event_count : nat)
    (turns : list (AgentMonitor * time)) : list stream_item :=
  match turns with
  | [] => []
  | (m, now) :: rest =>
      let '(items, next) := event_stream_turn last_event_count m now in
      items ++ match next with
               | Some count => event_stream_loop count rest
               | None => []
               end
  end.

(** All that [event_stream] yields: [m] is the monitor when the generator
    starts, [turns] what the turns of its loop find. *)
Definition event_stream (m : AgentMonitor) (turns : list (AgentMonitor * time))
  : list stream_item :=
  let '(last_event_count, initial_events) := event_stream_start m in
  (Data <$> initial_events) ++ event_stream_loop last_event_count turns.

End Views.

(** ** [PayrollVariableGraph]: the projections *)

Module Summary.
Import Graph.

(** [get_variable_summary] *)
Record variable_summary : Type := mk_variable_summary {
  total_input_variables : nat;
  total_intermediate_variables : nat;
  vs_input_variables : list string;
  vs_intermediate_variables : list string;
  vs_impact_source : option impact_source
}.

Definition get_variable_summary (s : PayrollVariableGraph) : variable_summary :=
  {| total_input_variables := PyDict.len (input_variables s);
     total_intermediate_variables := PyDict.len (intermediate_variables s);
     vs_input_variables := PyDict.keys (input_variables s);
     vs_intermediate_variables := PyDict.keys (intermediate_variables s);
     vs_impact_source := _impact_source s |}.

(** [list_all_components] *)
Record components : Type := mk_components {
  variables_input : list string;
  variables_intermediate : list string;
  nodes : list string;
  connections : list (string * string);
  impact_source_of : option impact_source
}.

Definition list_all_components (s : PayrollVariableGraph) : components :=
  {| variables_input := PyDict.keys (input_variables s);
     variables_intermediate := PyDict.keys (intermediate_variables s);
     nodes := Nx.nodes (graph s);
     connections := Nx.edges (graph s);
     impact_source_of := _impact_source s |}.

(** [get_live_update_data] *)
Record live_stats : Type := mk_live_stats {
  ls_input_variables : nat;
  ls_intermediate_variables : nat;
  ls_calculation_nodes : nat;
  ls_connections : nat
}.

Record live_update_data : Type := mk_live_update_data {
  timestamp : time;
  stats : live_stats;
  latest_variables : list string;
  graph_complexity : nat
}.

Definition get_live_update_data (now : time) (s : PayrollVariableGraph)
  : live_update_data :=
  {| timestamp := now;
     stats :=
       {| ls_input_variables := PyDict.len (input_variables s);
          ls_intermediate_variables := PyDict.len (intermediate_variables s);
          ls_calculation_nodes := length (Nx.nodes (graph s));
          ls_connections := length (Nx.edges (graph s)) |};
     latest_variables := slice_from (-5) (PyDict.keys (intermediate_variables s));
     graph_complexity := length (Nx.nodes (graph s)) + length (Nx.edges (graph s)) |}.

(** An item of the list ['nodes'] of ['graph_structure'] in
    [to_mcp_context] (and of the JSON of sub-section 4C of the text). *)
Record structure_node : Type := mk_structure_node {
  sn_id : string;
  sn_type : string;
  sn_description : string;
  sn_input_variables : list string;
  sn_output_variable : option string;
  sn_legal_reference : option string
}.

(** An item of the list ['edges']; [data.get('variable_passed')] is
    [None] for an attribute dictionary without the key. *)
Record structure_edge : Type := mk_structure_edge {
  se_from : string;
  se_to : string;
  se_variable_passed : pyval
}.

(** [data['description']] on the attribute dictionary of a node, which
    raises [KeyError] on the empty one. *)
Definition description_of (data : attr_dict) : result string :=
  match data with
  | Some attrs => Ok (na_description attrs)
  | None => Raise (KeyError "description")
  end.

(** The two comprehensions of ['graph_structure']. *)
Definition graph_structure (s : PayrollVariableGraph)
  : result (list structure_node * list structure_edge) :=
  nodes ← mapM (λ nd : string * attr_dict,
                  description ← description_of nd.2;
                  Ok {| sn_id := nd.1; sn_type := "calculation";
                        sn_description := description;
                        sn_input_variables :=
                          from_option na_input_variables [] nd.2;
                        sn_output_variable := nd.2 ≫= na_output_variable;
                        sn_legal_reference := nd.2 ≫= na_legal_reference |})
             (Nx._node (graph s));
  Ok (nodes,
      Nx._succ (graph s) ≫= λ un : string * PyDict.t string Nx.edge_attrs,
        (λ vd : string * Nx.edge_attrs,
           {| se_from := un.1; se_to := vd.1;
              se_variable_passed :=
                default PNone (PyDict.get "variable_passed" vd.2) |})
        <$> un.2).

End Summary.

(** ** [PayrollVariableGraph]: the Highcharts configurations *)

Module Charts.
Import Graph.

(** [list(G.predecessors(n))] of networkx. *)
Definition predecessors (n : string) (g : Nx.DiGraph attr_dict)
  : result (list string) :=
  key_error_as_networkx ("The node " +:+ n +:+ " is not in the digraph.")
    (preds ← PyDict.getitem n (Nx._pred g); Ok (PyDict.keys preds)).

(** [data.get('description', node_id)] *)
Definition display_name (node_id : string) (data : attr_dict) : string :=
  from_option na_description node_id data.

(** A node of the series of [_generate_network_chart]; the marker is the
    same for all. *)
Record chart_node : Type := mk_chart_node {
  cn_id : string;
  cn_name : string;
  cn_color : string
}.

(** A link of the series; weight 3 and colour [#434348] for all. *)
Record chart_link : Type := mk_chart_link {
  cl_from : string;
  cl_to : string
}.

(** The parts of the configuration that depend on the object. *)
Record network_chart : Type := mk_network_chart {
  nc_subtitle : string;
  nc_data : list chart_link;
  nc_nodes : list chart_node
}.

(** The colour of a node in [_generate_network_chart]. *)
Definition node_color (node_id : string) (data : attr_dict)
    (g : Nx.DiGraph attr_dict) : result string :=
  let color := "#7cb5ec" in
  if truthy (data ≫= na_output_variable)
  then Ok "#90ed7d"
  else
    preds ← predecessors node_id g;
    if decide (length preds = 0) then Ok "#f7a35c" else Ok color.

(** [_generate_network_chart] *)
Definition _generate_network_chart (s : PayrollVariableGraph)
  : result network_chart :=
  nodes ← mapM (λ nd : string * attr_dict,
                  color ← node_color nd.1 nd.2 (graph s);
                  Ok {| cn_id := nd.1; cn_name := display_name nd.1 nd.2;
                        cn_color := color |})
             (Nx._node (graph s));
  let links :=
    (λ e : string * string, {| cl_from := e.1; cl_to := e.2 |})
    <$> Nx.edges (graph s) in
  Ok {| nc_subtitle := from_option is_description "" (_impact_source s);
        nc_data := links; nc_nodes := nodes |}.

(** A column of [_generate_flowchart]; the colour is the same for all. *)
Record flow_point : Type := mk_flow_point {
  fp_name : string;
  fp_y : nat
}.

Record flowchart : Type := mk_flowchart {
  fc_categories : list string;
  fc_data : list flow_point
}.

(** [_generate_flowchart] *)
Definition _generate_flowchart (s : PayrollVariableGraph) : flowchart :=
  let levels := flowchart_levels s in
  {| fc_categories :=
       (λ nd : string * attr_dict, display_name nd.1 nd.2) <$> Nx._node (graph s);
     fc_data :=
       (λ nd : string * attr_dict,
          {| fp_name := display_name nd.1 nd.2;
             fp_y := default 0 (PyDict.get nd.1 levels) |})
       <$> Nx._node (graph s) |}.

(** A flow of [_generate_sankey_diagram]. *)
Record sankey_flow : Type := mk_sankey_flow {
  sf_from : string;
  sf_to : string;
  sf_weight : nat
}.

(** [_generate_sankey_diagram]: the list ['data'] of its series. *)
Definition _generate_sankey_diagram (s : PayrollVariableGraph) : list sankey_flow :=
  (λ e : string * string, {| sf_from := e.1; sf_to := e.2; sf_weight := 1 |})
  <$> Nx.edges (graph s).

End Charts.

(** ** The tools of the agent (src/payroll_variable_agent.py)

    Each tool works on the object [payroll_graph] of the module and
    returns a text; its [except Exception] turns an exception of the
    method into a text too.  The exceptions the methods raise on an object
    built by the calls of the class are raised before any change. *)

Module Tools.
Import Graph.

(** [x or None] on a string argument. *)
Definition or_None (x : string) : option string :=
  if String.eqb x "" then None else Some x.

(** [connect_calculation_nodes] *)
Definition connect_calculation_nodes (from_node to_node variable_passed : string)
    (now : time) (s : PayrollVariableGraph) : PayrollVariableGraph * string :=
  match connect_calculations from_node to_node (or_None variable_passed) [] now s with
  | Ok s' =>
      (s', "Connexion créée: " +:+ from_node +:+ " → " +:+ to_node
           +:+ (if String.eqb variable_passed "" then ""
                else " (via " +:+ variable_passed +:+ ")"))
  | Raise e => (s, "Erreur lors de la connexion: " +:+ str_exn e)
  end.

(** [remove_payroll_variable] *)
Definition remove_payroll_variable (var_name : string) (s : PayrollVariableGraph)
  : PayrollVariableGraph * string :=
  let '(s', removed) := remove_variable var_name s in
  (s', if removed
       then "Variable '" +:+ var_name +:+ "' supprimée avec succès du système"
       else "Variable '" +:+ var_name +:+ "' non trouvée dans le système").

(** [remove_calculation_node] (the tool) *)
Definition remove_calculation_node (node_id : string) (s : PayrollVariableGraph)
  : PayrollVariableGraph * string :=
  match Graph.remove_calculation_node node_id s with
  | Ok (s', removed) =>
      (s', if removed : bool
           then "Nœud de calcul '" +:+ node_id
                +:+ "' et toutes ses connexions supprimés"
           else "Nœud '" +:+ node_id +:+ "' non trouvé dans le graphe")
  | Raise e => (s, "Erreur lors de la suppression du nœud: " +:+ str_exn e)
  end.

(** [remove_node_connection] *)
Definition remove_node_connection (from_node to_node : string)
    (s : PayrollVariableGraph) : PayrollVariableGraph * string :=
  match remove_connection from_node to_node s with
  | Ok (s', removed) =>
      (s', if removed : bool
           then "Connexion supprimée: " +:+ from_node +:+ " → " +:+ to_node
           else "Aucune connexion trouvée entre '" +:+ from_node +:+ "' et '"
                +:+ to_node +:+ "'")
  | Raise e => (s, "Erreur lors de la suppression de la connexion: " +:+ str_exn e)
  end.

(** [needle in haystack] on strings.  The texts are in UTF-8, in which
    a text occurs in another exactly when its bytes do. *)
Fixpoint contains (needle haystack : string) : bool :=
  String.prefix needle haystack
  || match haystack with
     | EmptyString => false
     | String _ rest => contains needle rest
     end.

(** What [contains] decides: [needle] stands somewhere in [haystack]. *)
Definition occurs (needle haystack : string) : Prop :=
  ∃ before after, haystack = before +:+ needle +:+ after.

(** The seven texts [_simulate_base_agent_response] returns, by what they
    open with; the last one quotes the request. *)
Inductive base_response : Type :=
| SeuilsAnciennete          (* Voici les seuils d'ancienneté standards ... *)
| BaremeHeuresSupplementaires (* Barème légal français pour les heures ... *)
| CalculsTransport          (* Calculs standards pour les remboursements ... *)
| ElementsPrimes            (* Éléments de calcul pour les primes: *)
| ReferencesLegales         (* Références légales principales ... *)
| ConditionsEligibilite     (* Conditions d'éligibilité standards: *)
| ReponseGenerique (missing_info : string). (* J'ai analysé votre demande ... *)

(** [_simulate_base_agent_response], over [str.lower], which [lower]
    stands for.  The two inner chains of [if] and [elif] have no [else]:
    the function then runs to its end and returns [None]. *)
Definition _simulate_base_agent_response (lower : string → string)
    (missing_info context : string) : option base_response :=
  let missing_lower := lower missing_info in
  let context_lower := lower context in
  if contains "seuil" missing_lower || contains "barème" missing_lower then
    if contains "ancienneté" context_lower then Some SeuilsAnciennete
    else if contains "heure" context_lower || contains "supplémentaire" context_lower
    then Some BaremeHeuresSupplementaires
    else None
  else if contains "montant" missing_lower || contains "calcul" missing_lower then
    if contains "transport" context_lower then Some CalculsTransport
    else if contains "prime" context_lower then Some ElementsPrimes
    else None
  else if contains "référence" missing_lower || contains "article" missing_lower
  then Some ReferencesLegales
  else if contains "condition" missing_lower || contains "éligibilité" missing_lower
  then Some ConditionsEligibilite
  else Some (ReponseGenerique missing_info).

End Tools.

(** ** The services around the graph (src/app/services.py, src/app/views.py) *)

Module Services.
Import Graph.

(** A dictionary of the list [variables]: each key the services read, with
    its value when the dictionary has the key.  The values of
    ['legal_reference'] and ['calculation_formula'] may be [None]. *)
Record var_dict : Type := mk_var_dict {
  vd_name : option string;
  vd_type : option string;
  vd_description : option string;
  vd_data_type : option string;
  vd_legal_reference : option (option string);
  vd_calculation_formula : option (option string);
  vd_depends_on : option (list string)
}.

(** The body of the loop of [build_networkx_graph]: [var['name']] raises
    [KeyError], the other keys have defaults. *)
Definition add_variable_of (s : PayrollVariableGraph) (vt : var_dict * time)
  : result PayrollVariableGraph :=
  let '(var, now) := vt in
  match vd_name var with
  | None => Raise (KeyError "name")
  | Some name =>
      Ok (add_variable name
            (default "intermediate" (vd_type var))
            (default "" (vd_description var))
            (default "float" (vd_data_type var))
            (default (Some "") (vd_legal_reference var))
            (default (Some "") (vd_calculation_formula var))
            (Some (default [] (vd_depends_on var)))
            now s)
  end.

(** [GraphIntegrationService.build_networkx_graph] on the object [s] of the
    service, step by step: the object as each step leaves it, and the
    exception that stops the loop, if any.  Each variable comes with the
    reading of the clock its [add_variable] takes. *)
Fixpoint add_variables (variables : list (var_dict * time))
    (s : PayrollVariableGraph) : PayrollVariableGraph * option exn :=
  match variables with
  | [] => (s, None)
  | vt :: rest =>
      match add_variable_of s vt with
      | Ok s' => add_variables rest s'
      | Raise e => (s, Some e)
      end
  end.

Definition build_networkx_graph (variables : list (var_dict * time))
    (analysis_description : string) (t_source : time) (s : PayrollVariableGraph)
  : PayrollVariableGraph * option exn :=
  let s := clear_system s in
  let s := set_impact_source analysis_description None t_source s in
  add_variables variables s.

(** A row of [VariablePaie.objects.filter(...).values('name', 'var_type',
    'description', 'data_type')], and the dictionary it is: it has a key
    ['var_type'] and none of the keys ['type'], ['legal_reference'],
    ['calculation_formula'] and ['depends_on']. *)
Record variable_row : Type := mk_variable_row {
  row_name : string;
  row_var_type : string;
  row_description : string;
  row_data_type : string
}.

Definition dict_of_row (r : variable_row) : var_dict :=
  {| vd_name := Some (row_name r); vd_type := None;
     vd_description := Some (row_description r);
     vd_data_type := Some (row_data_type r);
     vd_legal_reference := None; vd_calculation_formula := None;
     vd_depends_on := None |}.

(** What [api_live_data] computes from the rows of an analysis: a new
    [GraphIntegrationService], [build_networkx_graph] on the rows, then
    [get_live_data].  [analysis_description] is the text the view passes,
    [t_now] the reading of the clock of [get_live_update_data]. *)
Definition api_live_data (rows : list (variable_row * time))
    (analysis_description : string) (t_source t_now : time)
  : Summary.live_update_data + exn :=
  let variables := (λ rt : variable_row * time, (dict_of_row rt.1, rt.2)) <$> rows in
  match build_networkx_graph variables analysis_description t_source Graph.init with
  | (payroll_graph, None) => inl (Summary.get_live_update_data t_now payroll_graph)
  | (_, Some e) => inr e
  end.

(** An item of the list [_extract_variables_from_networkx_graph] builds. *)
Record extracted_variable : Type := mk_extracted_variable {
  xv_name : string;
  xv_type : string;
  xv_description : string;
  xv_data_type : string;
  xv_legal_reference : option string;
  xv_calculation_formula : option string;
  xv_depends_on : list string
}.

(** The item of an entry of one of the two registries. *)
Definition extract_registered (var_type : string) (kv : string * variable_info)
  : extracted_variable :=
  {| xv_name := kv.1; xv_type := var_type;
     xv_description := vi_description kv.2;
     xv_data_type := vi_data_type kv.2;
     xv_legal_reference := vi_legal_reference kv.2;
     xv_calculation_formula := vi_calculation_formula kv.2;
     xv_depends_on := vi_depends_on kv.2 |}.

(** The body of the loop over the nodes. *)
Definition extract_output (variables : list extracted_variable)
    (nd : string * attr_dict) : list extracted_variable :=
  let '(node_id, node_data) := nd in
  match node_data ≫= na_output_variable with
  | Some output_var =>
      if truthy (Some output_var)
         && negb (bool_decide (output_var ∈ xv_name <$> variables))
      then variables
           ++ [{| xv_name := output_var; xv_type := "output";
                  xv_description :=
                    "Variable de sortie générée par " +:+ node_id;
                  xv_data_type := "float";
                  xv_legal_reference :=
                    from_option na_legal_reference (Some "") node_data;
                  xv_calculation_formula :=
                    Some ("Calculée par le noeud " +:+ node_id);
                  xv_depends_on := from_option na_input_variables [] node_data |}]
      else variables
  | None => variables
  end.

(** [PayrollAnalysisService._extract_variables_from_networkx_graph]: the
    [try] block, in which nothing raises on these data. *)
Definition _extract_variables_from_networkx_graph (s : PayrollVariableGraph)
  : list extracted_variable :=
  let variables := extract_registered "input" <$> input_variables s in
  let variables :=
    variables ++ (extract_registered "intermediate" <$> intermediate_variables s) in
  foldl extract_output variables (Nx._node (graph s)).

(** What holds of the items the loop over the nodes has added. *)
Definition output_items (s : PayrollVariableGraph)
    (registered outs : list extracted_variable) : Prop :=
  Forall (λ x, xv_type x = "output"
               ∧ xv_name x ≠ ""
               ∧ (xv_name x ∉ xv_name <$> registered)
               ∧ ∃ n attrs, (n, Some attrs) ∈ Nx._node (graph s)
                            ∧ na_output_variable attrs = Some (xv_name x)
                            ∧ xv_depends_on x = na_input_variables attrs
                            ∧ xv_legal_reference x = na_legal_reference attrs) outs
  ∧ NoDup (xv_name <$> outs).

End Services.

(** ** More small monitors and graphs *)

(** A monitor with one session, started and with two actions logged. *)
Definition started_monitor : Monitor.AgentMonitor :=
  Monitor.run
    [Monitor.StartSession "s1" "analysis" None 0%Z 0%Z 0%Z;
     Monitor.LogAgentAction (numbered_call 1);
     Monitor.LogAgentAction (numbered_call 2)]
    Monitor.init.

(** The calls that fill the log. *)
Definition filling_calls : list Monitor.op :=
  Monitor.LogAgentAction <$> (numbered_call <$> seq 0 1000).

(** * Properties *)

(** ** Lists *)

Section list_facts.
Context {A : Type}.
Implicit Types (l : list A).

Lemma filter_none (P : A → Prop) `{∀ x, Decision (P x)} l :
  (∀ x, x ∈ l → ¬ P x) → filter P l = [].
Proof.
  induction l as [|a l IH]; [done|]. intros Hall.
  rewrite filter_cons, decide_False by (apply Hall; left).
  apply IH. intros x Hx. apply Hall. by right.
Qed.

Lemma filter_all (P : A → Prop) `{∀ x, Decision (P x)} l :
  (∀ x, x ∈ l → P x) → filter P l = l.
Proof.
  induction l as [|a l IH]; [done|]. intros Hall.
  rewrite filter_cons, decide_True by (apply Hall; left).
  f_equal. apply IH. intros x Hx. apply Hall. by right.
Qed.

End list_facts.

(** ** Dictionaries *)

Section pydict_facts.
Context {K V : Type} `{EqDecision K}.
Implicit Types (d : PyDict.t K V) (k : K) (v : V).

Lemma pd_get_set_eq k v d : PyDict.get k (PyDict.set k v d) = Some v.
Proof.
  induction d as [|[k' v'] d IH]; simpl.
  - by rewrite decide_True.
  - destruct (decide (k = k')) as [->|Hne]; simpl.
    + by rewrite decide_True.
    + by rewrite decide_False.
Qed.

Lemma pd_get_set_ne k k' v d :
  k ≠ k' → PyDict.get k' (PyDict.set k v d) = PyDict.get k' d.
Proof.
  intros Hne. induction d as [|[k0 v0] d IH]; simpl.
  - by rewrite decide_False.
  - destruct (decide (k = k0)) as [->|Hk]; simpl.
    + by rewrite !decide_False.
    + by rewrite IH.
Qed.

Lemma pd_get_None k d : PyDict.get k d = None ↔ k ∉ PyDict.keys d.
Proof.
  unfold PyDict.keys. induction d as [|[k' v'] d IH]; simpl.
  - split; [intros _; apply not_elem_of_nil | done].
  - rewrite not_elem_of_cons. destruct (decide (k = k')) as [->|Hne].
    + split; [done | by intros [? _]].
    + rewrite IH. tauto.
Qed.

Lemma pd_get_Some_keys k v d : PyDict.get k d = Some v → k ∈ PyDict.keys d.
Proof.
  intros Hget. destruct (decide (k ∈ PyDict.keys d)) as [|Hn]; [done|].
  apply pd_get_None in Hn. congruence.
Qed.

Lemma pd_keys_get k d : k ∈ PyDict.keys d → is_Some (PyDict.get k d).
Proof.
  intros Hin. destruct (PyDict.get k d) eqn:E; [by eexists|].
  apply pd_get_None in E. done.
Qed.

Lemma pd_mem_true k d : PyDict.mem k d = true ↔ k ∈ PyDict.keys d.
Proof.
  unfold PyDict.mem. split.
  - destruct (PyDict.get k d) eqn:E; [|done]. intros _. by eapply pd_get_Some_keys.
  - intros [v ->]%pd_keys_get. done.
Qed.

Lemma pd_mem_false k d : PyDict.mem k d = false ↔ k ∉ PyDict.keys d.
Proof. rewrite <- pd_mem_true. by destruct (PyDict.mem k d). Qed.

Lemma pd_get_elem_of k v d : PyDict.get k d = Some v → (k, v) ∈ d.
Proof.
  induction d as [|[k' v'] d IH]; simpl; [done|].
  destruct (decide (k = k')) as [->|Hne].
  - intros [= ->]. apply elem_of_cons. by left.
  - intros Hd. apply elem_of_cons. right. by apply IH.
Qed.

Lemma pd_elem_of_get k v d : PyDict.wf d → (k, v) ∈ d → PyDict.get k d = Some v.
Proof.
  unfold PyDict.wf, PyDict.keys.
  induction d as [|[k' v'] d IH]; simpl; [by intros _ ?%elem_of_nil|].
  intros [Hk' Hnd]%NoDup_cons [Heq|Hin]%elem_of_cons.
  - injection Heq as -> ->. by rewrite decide_True.
  - destruct (decide (k = k')) as [->|Hne]; [|by apply IH].
    exfalso. apply Hk'. apply (list_elem_of_fmap_2 fst) in Hin. done.
Qed.

Lemma pd_keys_set_old k v d :
  k ∈ PyDict.keys d → PyDict.keys (PyDict.set k v d) = PyDict.keys d.
Proof.
  unfold PyDict.keys. induction d as [|[k' v'] d IH]; simpl.
  - by intros ?%elem_of_nil.
  - destruct (decide (k = k')) as [->|Hne]; simpl; [done|].
    intros [?|Hin]%elem_of_cons; [done|]. f_equal. by apply IH.
Qed.

Lemma pd_keys_set_new k v d :
  k ∉ PyDict.keys d → PyDict.keys (PyDict.set k v d) = PyDict.keys d ++ [k].
Proof.
  unfold PyDict.keys. induction d as [|[k' v'] d IH]; simpl; [done|].
  intros [Hne Hnin]%not_elem_of_cons.
  rewrite decide_False by done. simpl. f_equal. by apply IH.
Qed.

Lemma pd_keys_set_elem k k' v d :
  k' ∈ PyDict.keys (PyDict.set k v d) ↔ k' = k ∨ k' ∈ PyDict.keys d.
Proof.
  destruct (decide (k ∈ PyDict.keys d)) as [Hin|Hnin].
  - rewrite pd_keys_set_old by done. split; [tauto|]. by intros [->|].
  - rewrite pd_keys_set_new by done. rewrite elem_of_app, list_elem_of_singleton. tauto.
Qed.

Lemma pd_wf_set k v d : PyDict.wf d → PyDict.wf (PyDict.set k v d).
Proof.
  unfold PyDict.wf. intros Hwf.
  destruct (decide (k ∈ PyDict.keys d)) as [Hin|Hnin].
  - by rewrite pd_keys_set_old.
  - rewrite pd_keys_set_new by done. apply NoDup_app. split_and!; [done| |apply NoDup_singleton].
    intros x Hx ->%list_elem_of_singleton. done.
Qed.

Lemma pd_keys_remove k d :
  PyDict.keys (PyDict.remove k d) = filter (λ k', k' ≠ k) (PyDict.keys d).
Proof.
  unfold PyDict.keys, PyDict.remove. induction d as [|[k' v'] d IH]; [done|].
  rewrite filter_cons, fmap_cons, filter_cons. simpl.
  destruct (decide (k' ≠ k)); [rewrite fmap_cons; simpl|]; by rewrite IH.
Qed.

Lemma pd_wf_remove k d : PyDict.wf d → PyDict.wf (PyDict.remove k d).
Proof. unfold PyDict.wf. rewrite pd_keys_remove. apply NoDup_filter. Qed.

Lemma pd_keys_remove_elem k k' d :
  k' ∈ PyDict.keys (PyDict.remove k d) ↔ k' ≠ k ∧ k' ∈ PyDict.keys d.
Proof. rewrite pd_keys_remove, list_elem_of_filter. tauto. Qed.

Lemma pd_get_remove_eq k d : PyDict.get k (PyDict.remove k d) = None.
Proof. apply pd_get_None. rewrite pd_keys_remove_elem. tauto. Qed.

Lemma pd_get_remove_ne k k' d :
  k ≠ k' → PyDict.get k' (PyDict.remove k d) = PyDict.get k' d.
Proof.
  intros Hne. unfold PyDict.remove. induction d as [|[k0 v0] d IH]; [done|].
  rewrite filter_cons. simpl. destruct (decide (k0 ≠ k)) as [Hk|Hk]; simpl.
  - by rewrite IH.
  - apply dec_stable in Hk. subst k0. by rewrite decide_False.
Qed.

Lemma pd_remove_absent k d : k ∉ PyDict.keys d → PyDict.remove k d = d.
Proof.
  unfold PyDict.keys, PyDict.remove. induction d as [|[k' v'] d IH]; [done|].
  simpl. intros [Hne Hnin]%not_elem_of_cons. rewrite filter_cons. simpl.
  rewrite decide_True by done. by rewrite IH.
Qed.

(** The entries a dictionary holds under one key. *)
Lemma pd_entries_set k v d :
  PyDict.wf d →
  filter (λ kv, kv.1 = k) (PyDict.set k v d) = [(k, v)].
Proof.
  unfold PyDict.wf, PyDict.keys. induction d as [|[k' v'] d IH]; simpl.
  - intros _. rewrite filter_cons. simpl. by rewrite decide_True.
  - intros [Hk' Hnd]%NoDup_cons.
    destruct (decide (k = k')) as [->|Hne]; rewrite filter_cons; simpl.
    + rewrite decide_True by done. f_equal.
      apply filter_none. intros [k0 v0] Hin Heq. simpl in Heq. subst k0.
      apply Hk'. by apply (list_elem_of_fmap_2 fst) in Hin.
    + rewrite decide_False by done. by apply IH.
Qed.

Lemma pd_entries_set_ne k k' v d :
  k ≠ k' →
  filter (λ kv, kv.1 = k') (PyDict.set k v d) = filter (λ kv, kv.1 = k') d.
Proof.
  intros Hne. induction d as [|[k0 v0] d IH]; simpl.
  - rewrite filter_cons. simpl. by rewrite decide_False.
  - destruct (decide (k = k0)) as [->|Hk].
    + rewrite !filter_cons. simpl. by rewrite !decide_False.
    + rewrite !filter_cons. simpl. by rewrite IH.
Qed.

Lemma pd_entries_get k v d :
  PyDict.wf d → PyDict.get k d = Some v → filter (λ kv, kv.1 = k) d = [(k, v)].
Proof.
  unfold PyDict.wf, PyDict.keys. induction d as [|[k' v'] d IH]; simpl; [done|].
  intros [Hk' Hnd]%NoDup_cons. rewrite filter_cons. simpl.
  destruct (decide (k = k')) as [->|Hne].
  - intros [= ->]. rewrite decide_True by done. f_equal.
    apply filter_none. intros [k0 v0] Hin Heq. simpl in Heq. subst k0.
    apply Hk'. by apply (list_elem_of_fmap_2 fst) in Hin.
  - rewrite decide_False by done. by apply IH.
Qed.

Lemma pd_entries_absent k d :
  k ∉ PyDict.keys d → filter (λ kv, kv.1 = k) d = [].
Proof.
  intros Hnin. apply filter_none. intros [k0 v0] Hin Heq.
  simpl in Heq. subst k0. apply Hnin. by apply (list_elem_of_fmap_2 fst) in Hin.
Qed.

End pydict_facts.

Section pydict_update_facts.
Context {K V : Type} `{EqDecision K}.
Implicit Types (d new : PyDict.t K V) (k : K) (v : V).


(** [d.update(new)]: the keys of [new] take the values of [new], the
    others keep theirs. *)
Lemma pd_get_update new d k :
  PyDict.wf new →
  PyDict.get k (PyDict.update new d)
  = match PyDict.get k new with
    | Some v => Some v
    | None => PyDict.get k d
    end.
Proof.
  unfold PyDict.update, PyDict.wf, PyDict.keys. revert d.
  induction new as [|[k0 v0] new IH]; intros d Hwf; simpl; [done|].
  apply NoDup_cons in Hwf as [Hk0 Hwf]. rewrite IH by done.
  destruct (decide (k = k0)) as [->|Hne].
  - assert (PyDict.get k0 new = None) as -> by by apply pd_get_None.
    apply pd_get_set_eq.
  - destruct (PyDict.get k new); [done|]. by apply pd_get_set_ne.
Qed.


End pydict_update_facts.

(** ** The bounded event log *)

Section deque_facts.
Context {A : Type}.
Implicit Types (dq xs : list A) (x : A) (cap : nat).

Lemma deque_append_spec cap x dq :
  length dq ≤ cap →
  Deque.append cap x dq = drop (length (dq ++ [x]) - cap) (dq ++ [x]).
Proof.
  intros Hle. unfold Deque.append. rewrite length_app. simpl.
  destruct (decide (cap < length dq + 1)).
  - by replace (length dq + 1 - cap) with 1 by lia.
  - by replace (length dq + 1 - cap) with 0 by lia.
Qed.

Lemma deque_append_length cap x dq :
  length dq ≤ cap → length (Deque.append cap x dq) ≤ cap.
Proof.
  intros Hle. rewrite deque_append_spec by done.
  rewrite length_drop, length_app. simpl. lia.
Qed.

Lemma deque_extend_length cap xs dq :
  length dq ≤ cap → length (Deque.extend cap xs dq) ≤ cap.
Proof.
  unfold Deque.extend. revert dq.
  induction xs as [|x xs IH]; intros dq Hle; simpl; [done|].
  apply IH. by apply deque_append_length.
Qed.

Lemma deque_extend_spec cap xs dq :
  length dq ≤ cap →
  Deque.extend cap xs dq = drop (length (dq ++ xs) - cap) (dq ++ xs).
Proof.
  unfold Deque.extend. revert dq.
  induction xs as [|x xs IH]; intros dq Hle; simpl.
  - rewrite app_nil_r. by replace (length dq - cap) with 0 by lia.
  - rewrite IH by by apply deque_append_length.
    rewrite deque_append_spec by done.
    rewrite (cons_middle x dq xs), (assoc_L (++)).
    set (L := dq ++ [x]). set (j := length L - cap).
    assert (j ≤ length L) by lia.
    rewrite <- (drop_app_le L xs j) by done.
    rewrite drop_drop. f_equal.
    rewrite length_drop, length_app. lia.
Qed.

End deque_facts.

Section monitor_facts.
Import Monitor.
Implicit Types (m : AgentMonitor) (e : event) (c : log_call) (o : op).

Lemma add_event_events e m :
  events (monitor_after (_add_event e m)) = Deque.append maxlen e (events m).
Proof. unfold _add_event. simpl. by destruct (notify _ _) as [[tr r] subs]. Qed.

Lemma add_event_sessions e m :
  active_sessions (monitor_after (_add_event e m)) = active_sessions m.
Proof. unfold _add_event. simpl. by destruct (notify _ _) as [[tr r] subs]. Qed.

Lemma log_agent_action_events c m :
  events (monitor_after (log_agent_action c m))
  = Deque.append maxlen (event_of c) (events m).
Proof.
  unfold log_agent_action. rewrite add_event_events.
  by destruct (PyDict.get _ _).
Qed.

Lemma step_events_bounded o m :
  length (events m) ≤ maxlen →
  length (events (monitor_after (step o m))) ≤ maxlen.
Proof.
  intros Hle. destruct o; simpl.
  - unfold start_session. rewrite add_event_events. by apply deque_append_length.
  - unfold end_session. destruct (PyDict.get _ _); [|done].
    rewrite add_event_events. by apply deque_append_length.
  - rewrite log_agent_action_events. by apply deque_append_length.
  - done.
  - unfold unsubscribe. by destruct (bool_decide _).
  - apply deque_extend_length. simpl. lia.
Qed.

Lemma run_events_bounded ops m :
  length (events m) ≤ maxlen → length (events (run ops m)) ≤ maxlen.
Proof.
  unfold run. revert m. induction ops as [|o ops IH]; intros m Hle; simpl; [done|].
  apply IH. by apply step_events_bounded.
Qed.

Lemma run_log_actions calls m :
  events (run (LogAgentAction <$> calls) m)
  = Deque.extend maxlen (event_of <$> calls) (events m).
Proof.
  unfold run, Deque.extend. revert m.
  induction calls as [|c calls IH]; intros m; simpl; [done|].
  by rewrite IH, log_agent_action_events.
Qed.

End monitor_facts.

(** C2.  The log never holds more than 1000 events, whatever calls the
    monitor has served; an append to a full log drops the oldest event;
    and 1500 logged events leave exactly the last 1000, in the order they
    were logged. *)
Theorem log_bounded_fifo :
  (∀ ops, length (Monitor.events (Monitor.run ops Monitor.init)) ≤ 1000)
  ∧ (∀ ops calls,
       let m := Monitor.run ops Monitor.init in
       let all := Monitor.events m ++ (Monitor.event_of <$> calls) in
       Monitor.events (Monitor.run (Monitor.LogAgentAction <$> calls) m)
       = drop (length all - 1000) all)
  ∧ (∀ calls,
       length calls = 1500 →
       Monitor.events (Monitor.run (Monitor.LogAgentAction <$> calls) Monitor.init)
       = drop 500 (Monitor.event_of <$> calls)
       ∧ length (drop 500 (Monitor.event_of <$> calls)) = 1000).
Proof.
  split_and!.
  - intros ops. apply run_events_bounded. simpl. unfold Monitor.maxlen. lia.
  - intros ops calls m all. rewrite run_log_actions.
    apply deque_extend_spec. apply run_events_bounded. simpl. unfold Monitor.maxlen. lia.
  - intros calls Hlen. split.
    + rewrite run_log_actions. rewrite deque_extend_spec by (simpl; unfold Monitor.maxlen; lia).
      simpl. rewrite length_fmap, Hlen. done.
    + rewrite length_drop, length_fmap, Hlen. done.
Qed.


Lemma log_bounded_fifo_witness :
  let calls := numbered_call <$> seq 0 1500 in
  Monitor.events (Monitor.run (Monitor.LogAgentAction <$> calls) Monitor.init)
  = drop 500 (Monitor.event_of <$> calls)
  ∧ length (drop 500 (Monitor.event_of <$> calls)) = 1000.
Proof.
  exact (proj2 (proj2 log_bounded_fifo) (numbered_call <$> seq 0 1500) eq_refl).
Defined.

(** ** Reading the log *)

Section recent_events.
Import Monitor.
Implicit Types (m : AgentMonitor) (e : event).

Lemma truthy_Some (s : string) : s ≠ "" → truthy (Some s) = true.
Proof.
  intros Hne. simpl. destruct (String.eqb s "") eqn:E; [|done].
  by apply String.eqb_eq in E.
Qed.

Lemma slice_from_last {A : Type} (limit : Z) (l : list A) :
  (0 < limit)%Z →
  slice_from (- limit) l = drop (length l - Z.to_nat limit) l.
Proof.
  intros Hpos. unfold slice_from.
  destruct (Z.ltb_spec (- limit) 0) as [_|?]; [|lia].
  f_equal. lia.
Qed.

Lemma session_filter_eq (S : string) (evs : list event) :
  filter (λ e, Some (ev_session_id e) = Some S) evs
  = filter (λ e, ev_session_id e = S) evs.
Proof. apply list_filter_iff. intros e. split; congruence. Qed.

End recent_events.

(** C7, as the code has it.  For a limit of at least one and a session
    identifier that is not the empty string, [get_recent_events] returns
    the last [limit] events of the log filtered to that session: only
    events of the session, in log order (most recent last), at most [limit]
    of them. *)
Theorem recent_events_of_session (m : Monitor.AgentMonitor) (limit : Z) (S : string) :
  (0 < limit)%Z →
  S ≠ "" →
  let matches := filter (λ e, Monitor.ev_session_id e = S) (Monitor.events m) in
  let r := Monitor.get_recent_events limit (Some S) None m in
  r = drop (length matches - Z.to_nat limit) matches
  ∧ Forall (λ e, Monitor.ev_session_id e = S) r
  ∧ length r ≤ Z.to_nat limit
  ∧ r `suffix_of` matches
  ∧ r `sublist_of` Monitor.events m.
Proof.
  intros Hlimit HS matches r.
  assert (r = drop (length matches - Z.to_nat limit) matches) as Hr.
  { unfold r, Monitor.get_recent_events.
    rewrite truthy_Some by done. simpl.
    rewrite slice_from_last by done. by rewrite session_filter_eq. }
  split_and!; [done|..]; rewrite Hr.
  - apply Forall_drop. unfold matches. apply Forall_forall.
    intros e He. by apply list_elem_of_filter in He as [? _].
  - rewrite length_drop. lia.
  - apply suffix_drop.
  - etrans; [apply sublist_drop|]. apply sublist_filter.
Qed.


Lemma recent_events_of_session_witness :
  let m := two_session_monitor in
  let matches := filter (λ e, Monitor.ev_session_id e = "A") (Monitor.events m) in
  let r := Monitor.get_recent_events 1 (Some "A") None m in
  r = drop (length matches - Z.to_nat 1) matches
  ∧ Forall (λ e, Monitor.ev_session_id e = "A") r
  ∧ length r ≤ Z.to_nat 1
  ∧ r `suffix_of` matches
  ∧ r `sublist_of` Monitor.events m.
Proof. apply (recent_events_of_session two_session_monitor 1 "A"); done. Defined.

(** C7 as stated fails twice over: with limit 0 the slice [events[-0:]] is
    the whole filtered list (two events, more than the limit), and with the
    empty string as session identifier no filter is applied, so events of
    sessions "A" and "B" come back. *)
Lemma recent_events_counterexample :
  length (Monitor.get_recent_events 0 (Some "A") None two_session_monitor) = 2
  ∧ Monitor.ev_session_id
      <$> Monitor.get_recent_events 5 (Some "") None two_session_monitor
    = ["A"; "B"; "A"].
Proof. split; reflexivity. Qed.

(** ** Subscribers *)

Section notify_facts.
Import Monitor.
Implicit Types (m : AgentMonitor) (e : event) (subs : list callback)
  (cb : callback) (chs : list change).

Lemma calls_of_unfold e cb : calls_of e cb = S (calls_added e (cb_changes cb e)).
Proof.
  destruct cb as [id call changes]. simpl. f_equal. unfold calls_added.
  induction (changes e) as [|[cb'|id'] chs IH]; simpl; [done| |]; by rewrite IH.
Qed.



Lemma calls_drop_S e n subs :
  sum_list (calls_of e <$> drop (S n) subs) ≤ sum_list (calls_of e <$> drop n subs).
Proof.
  revert n. induction subs as [|cb subs IH]; intros n; [by destruct n|].
  destruct n as [|n]; cbn [drop].
  - rewrite drop_0, fmap_cons. cbn [sum_list_with Datatypes.id]. lia.
  - apply IH.
Qed.

Lemma calls_drop_remove_first e id n subs :
  sum_list (calls_of e <$> drop n (remove_first id subs))
  ≤ sum_list (calls_of e <$> drop n subs).
Proof.
  revert n. induction subs as [|cb subs IH]; intros n; cbn [remove_first]; [done|].
  destruct (decide (cb_id cb = id)) as [_|_].
  - destruct n as [|n]; cbn [drop].
    + rewrite drop_0, fmap_cons. cbn [sum_list_with Datatypes.id]. lia.
    + apply calls_drop_S.
  - destruct n as [|n]; cbn [drop].
    + specialize (IH 0). rewrite !drop_0 in IH. rewrite !fmap_cons.
      cbn [sum_list_with Datatypes.id]. lia.
    + apply IH.
Qed.

Lemma calls_drop_snoc e n subs cb :
  sum_list (calls_of e <$> drop n (subs ++ [cb]))
  ≤ sum_list (calls_of e <$> drop n subs) + calls_of e cb.
Proof.
  revert n. induction subs as [|cb0 subs IH]; intros n.
  - destruct n as [|n]; cbn; [lia|]. rewrite drop_nil. cbn. lia.
  - rewrite <- app_comm_cons. destruct n as [|n]; cbn [drop].
    + specialize (IH 0). rewrite !drop_0 in IH. rewrite !fmap_cons.
      cbn [sum_list_with Datatypes.id]. lia.
    + apply IH.
Qed.

Lemma calls_drop_changes e n chs subs :
  sum_list (calls_of e <$> drop n (foldl apply_change subs chs))
  ≤ sum_list (calls_of e <$> drop n subs) + calls_added e chs.
Proof.
  revert subs. unfold calls_added.
  induction chs as [|[cb|id] chs IH]; intros subs;
    rewrite ?fmap_cons; cbn [foldl apply_change sum_list_with Datatypes.id]; [cbn; lia| |].
  - etrans; [apply IH|]. pose proof (calls_drop_snoc e n subs cb). lia.
  - etrans; [apply IH|]. pose proof (calls_drop_remove_first e id n subs). lia.
Qed.

(** The loop never runs out of fuel: from the fuel [notify] gives it on, the
    fuel is of no consequence. *)
Lemma notify_from_fuel e fuel fuel' i subs :
  sum_list (calls_of e <$> drop i subs) ≤ fuel →
  sum_list (calls_of e <$> drop i subs) ≤ fuel' →
  notify_from fuel i subs e = notify_from fuel' i subs e.
Proof.
  revert fuel' i subs.
  assert (∀ i subs cb, subs !! i = Some cb →
            sum_list (calls_of e <$> drop i subs)
            = S (calls_added e (cb_changes cb e))
              + sum_list (calls_of e <$> drop (S i) subs)) as Hstep.
  { intros i subs cb Hcb. rewrite (drop_S _ _ _ Hcb), fmap_cons.
    cbn [sum_list_with Datatypes.id]. by rewrite calls_of_unfold. }
  induction fuel as [|fuel IH]; intros fuel' i subs Hle Hle'.
  - destruct fuel' as [|fuel']; [done|]. simpl.
    destruct (subs !! i) as [cb|] eqn:Hcb; [|done].
    rewrite (Hstep _ _ _ Hcb) in Hle. lia.
  - destruct fuel' as [|fuel']; simpl.
    + destruct (subs !! i) as [cb|] eqn:Hcb; [|done].
      rewrite (Hstep _ _ _ Hcb) in Hle'. lia.
    + destruct (subs !! i) as [cb|] eqn:Hcb; [|done].
      rewrite (Hstep _ _ _ Hcb) in Hle, Hle'.
      pose proof (calls_drop_changes e (S i) (cb_changes cb e) subs) as Hch.
      rewrite (IH fuel' (S i) (foldl apply_change subs (cb_changes cb e)))
        by lia.
      done.
Qed.

Lemma notify_fuel e fuel subs :
  sum_list (calls_of e <$> subs) ≤ fuel → notify_from fuel 0 subs e = notify subs e.
Proof. intros Hle. unfold notify. apply notify_from_fuel; by rewrite drop_0. Qed.





End notify_facts.




(** ** Logging an action *)

(** C9.  A call of [log_agent_action] appends its one event to the log
    (the bounded append of [_add_event]); when the session identifier is a
    key of the session map, that entry has its [events_count] raised by one
    and its [last_activity] set to the new reading, and every other entry
    is as before; when it is not a key, the session map is unchanged. *)
Theorem log_action_effect (c : Monitor.log_call) (m : Monitor.AgentMonitor) :
  let sid := Monitor.lc_session_id c in
  let m' := Monitor.monitor_after (Monitor.log_agent_action c m) in
  Monitor.events m' = Deque.append Monitor.maxlen (Monitor.event_of c) (Monitor.events m)
  ∧ (length (Monitor.events m) < Monitor.maxlen →
     Monitor.events m' = Monitor.events m ++ [Monitor.event_of c])
  ∧ last (Monitor.events m') = Some (Monitor.event_of c)
  ∧ (∀ s, PyDict.get sid (Monitor.active_sessions m) = Some s →
       PyDict.get sid (Monitor.active_sessions m') = Some (Monitor.touch (Monitor.lc_t_activity c) s)
       ∧ Monitor.s_events_count (Monitor.touch (Monitor.lc_t_activity c) s)
         = Monitor.s_events_count s + 1
       ∧ Monitor.s_last_activity (Monitor.touch (Monitor.lc_t_activity c) s)
         = Monitor.lc_t_activity c
       ∧ PyDict.keys (Monitor.active_sessions m') = PyDict.keys (Monitor.active_sessions m)
       ∧ ∀ sid', sid' ≠ sid →
           PyDict.get sid' (Monitor.active_sessions m')
           = PyDict.get sid' (Monitor.active_sessions m))
  ∧ (PyDict.get sid (Monitor.active_sessions m) = None →
     Monitor.active_sessions m' = Monitor.active_sessions m).
Proof.
  intros sid m'.
  assert (Monitor.events m'
          = Deque.append Monitor.maxlen (Monitor.event_of c) (Monitor.events m)) as Hev
    by apply log_agent_action_events.
  split_and!.
  - done.
  - intros Hlt. rewrite Hev. unfold Deque.append.
    rewrite decide_False; [done|]. rewrite length_app. simpl. unfold Monitor.maxlen in *. lia.
  - rewrite Hev. unfold Deque.append.
    destruct (decide _) as [Hfull|_]; [|apply last_snoc].
    destruct (Monitor.events m) as [|e0 evs]; simpl.
    + simpl in Hfull. unfold Monitor.maxlen in Hfull. lia.
    + rewrite drop_0. apply last_snoc.
  - intros s Hs. unfold m', Monitor.log_agent_action. fold sid. rewrite Hs.
    rewrite add_event_sessions. simpl. split_and!.
    + apply pd_get_set_eq.
    + lia.
    + done.
    + apply pd_keys_set_old. by eapply pd_get_Some_keys.
    + intros sid' Hne. by apply pd_get_set_ne.
  - intros Hs. unfold m', Monitor.log_agent_action. fold sid. rewrite Hs.
    apply add_event_sessions.
Qed.

(** ** The directed graph *)

Section nx_facts.
Context {NA : Type}.
Implicit Types (g : Nx.DiGraph NA) (n u v : string).

Lemma nx_wf_empty : Nx.wf (Nx.empty (NA := NA)).
Proof. split; simpl; try done; apply NoDup_nil_2. Qed.

Lemma nx_contains_nodes n g : Nx.contains n g = true ↔ n ∈ Nx.nodes g.
Proof. apply pd_mem_true. Qed.

Lemma nx_succ_is_Some n g :
  Nx.wf g → n ∈ Nx.nodes g → is_Some (PyDict.get n (Nx._succ g)).
Proof.
  intros Hwf Hn. apply pd_keys_get. by rewrite (Nx.wf_succ_keys g Hwf).
Qed.

Lemma nx_pred_is_Some n g :
  Nx.wf g → n ∈ Nx.nodes g → is_Some (PyDict.get n (Nx._pred g)).
Proof.
  intros Hwf Hn. apply pd_keys_get. by rewrite (Nx.wf_pred_keys g Hwf).
Qed.

Lemma nx_wf_succ g : Nx.wf g → PyDict.wf (Nx._succ g).
Proof.
  intros Hwf. unfold PyDict.wf. rewrite (Nx.wf_succ_keys g Hwf). apply Hwf.
Qed.

Lemma nx_wf_pred g : Nx.wf g → PyDict.wf (Nx._pred g).
Proof.
  intros Hwf. unfold PyDict.wf. rewrite (Nx.wf_pred_keys g Hwf). apply Hwf.
Qed.

(** An edge, read off [_succ] or off [_pred]. *)
Lemma nx_edge_succ u v g :
  Nx.edge g u v ↔ ∃ nbrs, PyDict.get u (Nx._succ g) = Some nbrs ∧ v ∈ PyDict.keys nbrs.
Proof.
  unfold Nx.edge, Nx.has_edge. destruct (PyDict.get u (Nx._succ g)) as [nbrs|].
  - rewrite pd_mem_true. split; [by eexists|]. by intros (? & [= <-] & ?).
  - split; [done|]. by intros (? & ? & ?).
Qed.

Lemma nx_lookup2_Some (adj : Nx.adjacency) a b :
  is_Some (Nx.lookup2 adj a b)
  ↔ ∃ inner, PyDict.get a adj = Some inner ∧ b ∈ PyDict.keys inner.
Proof.
  unfold Nx.lookup2. destruct (PyDict.get a adj) as [inner|]; simpl.
  - split.
    + intros [dd Hdd]. exists inner. split; [done|]. by eapply pd_get_Some_keys.
    + intros (? & [= <-] & Hb). by apply pd_keys_get.
  - split; [by intros [? ?]|]. by intros (? & ? & ?).
Qed.

Lemma nx_edge_lookup2 u v g : Nx.edge g u v ↔ is_Some (Nx.lookup2 (Nx._succ g) u v).
Proof. by rewrite nx_edge_succ, nx_lookup2_Some. Qed.

Lemma nx_edge_pred u v g :
  Nx.wf g →
  Nx.edge g u v ↔ ∃ preds, PyDict.get v (Nx._pred g) = Some preds ∧ u ∈ PyDict.keys preds.
Proof.
  intros Hwf. by rewrite nx_edge_lookup2, (Nx.wf_mirror g Hwf), nx_lookup2_Some.
Qed.

Lemma nx_edge_nodes u v g : Nx.wf g → Nx.edge g u v → u ∈ Nx.nodes g ∧ v ∈ Nx.nodes g.
Proof.
  intros Hwf He. split.
  - apply nx_edge_succ in He as (nbrs & Hu & _).
    unfold Nx.nodes. rewrite <- (Nx.wf_succ_keys g Hwf). by eapply pd_get_Some_keys.
  - apply nx_edge_pred in He as (preds & Hv & _); [|done].
    unfold Nx.nodes. rewrite <- (Nx.wf_pred_keys g Hwf). by eapply pd_get_Some_keys.
Qed.

(** [G.edges()] lists exactly the edges, each once. *)
Lemma nx_elem_of_edges u v g :
  Nx.wf g → (u, v) ∈ Nx.edges g ↔ Nx.edge g u v.
Proof.
  intros Hwf. unfold Nx.edges. rewrite list_elem_of_bind, nx_edge_succ. split.
  - intros ([u' nbrs] & Hin & Hu). simpl in Hin.
    apply list_elem_of_fmap in Hin as (v' & [= -> ->] & Hv).
    exists nbrs. split; [|done]. apply pd_elem_of_get; [by apply nx_wf_succ|done].
  - intros (nbrs & Hu & Hv). exists (u, nbrs). split.
    + simpl. apply list_elem_of_fmap. by exists v.
    + by apply pd_get_elem_of.
Qed.

Lemma nx_NoDup_edges g : Nx.wf g → NoDup (Nx.edges g).
Proof.
  intros Hwf. unfold Nx.edges. apply NoDup_bind.
  - intros [u1 n1] [u2 n2] [u v] H1 H2 Hy1 Hy2. simpl in *.
    apply list_elem_of_fmap in Hy1 as (? & ? & ?).
    apply list_elem_of_fmap in Hy2 as (? & ? & ?). simplify_eq.
    f_equal. apply (inj Some).
    erewrite <- (pd_elem_of_get _ n1 (Nx._succ g)), <- (pd_elem_of_get _ n2 (Nx._succ g));
      eauto using nx_wf_succ.
  - intros [u nbrs] Hin. simpl. apply NoDup_fmap_2.
    + intros ?? [= ->]. done.
    + apply (Nx.wf_succ_inner g Hwf u). apply pd_elem_of_get; [by apply nx_wf_succ|done].
  - eapply NoDup_fmap_1. apply (nx_wf_succ g Hwf).
Qed.


(** [adj[a][b]] after an entry of an inner dictionary is written or
    deleted. *)
Lemma nx_lookup2_set_inner (adj : Nx.adjacency) u inner' a b :
  Nx.lookup2 (PyDict.set u inner' adj) a b
  = if decide (a = u) then PyDict.get b inner' else Nx.lookup2 adj a b.
Proof.
  unfold Nx.lookup2. destruct (decide (a = u)) as [->|Hne].
  - by rewrite pd_get_set_eq.
  - by rewrite pd_get_set_ne.
Qed.

Lemma nx_lookup2_remove (adj : Nx.adjacency) n a b :
  Nx.lookup2 (PyDict.remove n adj) a b
  = if decide (a = n) then None else Nx.lookup2 adj a b.
Proof.
  unfold Nx.lookup2. destruct (decide (a = n)) as [->|Hne].
  - by rewrite pd_get_remove_eq.
  - by rewrite pd_get_remove_ne.
Qed.

Lemma nx_lookup2_absent (adj : Nx.adjacency) a b :
  a ∉ PyDict.keys adj → Nx.lookup2 adj a b = None.
Proof. intros Ha%pd_get_None. unfold Nx.lookup2. by rewrite Ha. Qed.

Lemma nx_mirror_nodes u v g :
  Nx.wf g → is_Some (Nx.lookup2 (Nx._succ g) u v) →
  u ∈ Nx.nodes g ∧ v ∈ Nx.nodes g.
Proof. intros Hwf He. apply nx_edge_nodes; [done|]. by apply nx_edge_lookup2. Qed.

(** *** [add_node] *)

Lemma nx_add_node_new n a g :
  Nx.wf g → n ∉ Nx.nodes g →
  Nx.add_node n a g
  = Ok {| Nx._node := PyDict.set n a (Nx._node g);
          Nx._succ := PyDict.set n [] (Nx._succ g);
          Nx._pred := PyDict.set n [] (Nx._pred g) |}.
Proof.
  intros Hwf Hn. unfold Nx.add_node.
  assert (PyDict.mem n (Nx._succ g) = false) as ->; [|done].
  apply pd_mem_false. by rewrite (Nx.wf_succ_keys g Hwf).
Qed.

Lemma nx_add_node_old n a g :
  Nx.wf g → n ∈ Nx.nodes g →
  Nx.add_node n a g
  = Ok {| Nx._node := PyDict.set n a (Nx._node g);
          Nx._succ := Nx._succ g; Nx._pred := Nx._pred g |}.
Proof.
  intros Hwf Hn. unfold Nx.add_node.
  assert (PyDict.mem n (Nx._succ g) = true) as ->.
  { apply pd_mem_true. by rewrite (Nx.wf_succ_keys g Hwf). }
  simpl. unfold PyDict.getitem.
  by destruct (pd_keys_get n (Nx._node g) Hn) as [a0 ->].
Qed.

Lemma nx_wf_set_node n a g :
  Nx.wf g → n ∈ Nx.nodes g →
  Nx.wf {| Nx._node := PyDict.set n a (Nx._node g);
           Nx._succ := Nx._succ g; Nx._pred := Nx._pred g |}.
Proof.
  intros Hwf Hn. destruct Hwf. split; simpl; try done.
  - by apply pd_wf_set.
  - by rewrite pd_keys_set_old.
  - by rewrite pd_keys_set_old.
Qed.

Lemma nx_wf_new_node n a g :
  Nx.wf g → n ∉ Nx.nodes g →
  Nx.wf {| Nx._node := PyDict.set n a (Nx._node g);
           Nx._succ := PyDict.set n [] (Nx._succ g);
           Nx._pred := PyDict.set n [] (Nx._pred g) |}.
Proof.
  intros Hwf Hn.
  assert (n ∉ PyDict.keys (Nx._succ g)) as Hs by by rewrite (Nx.wf_succ_keys g Hwf).
  assert (n ∉ PyDict.keys (Nx._pred g)) as Hp by by rewrite (Nx.wf_pred_keys g Hwf).
  split; simpl.
  - apply pd_wf_set, Hwf.
  - rewrite !pd_keys_set_new by done. f_equal. apply Hwf.
  - rewrite !pd_keys_set_new by done. f_equal. apply Hwf.
  - intros u nbrs. destruct (decide (n = u)) as [->|Hne].
    + rewrite pd_get_set_eq. intros [= <-]. apply NoDup_nil_2.
    + rewrite pd_get_set_ne by done. apply Hwf.
  - intros u nbrs. destruct (decide (n = u)) as [->|Hne].
    + rewrite pd_get_set_eq. intros [= <-]. apply NoDup_nil_2.
    + rewrite pd_get_set_ne by done. apply Hwf.
  - intros u v. rewrite !nx_lookup2_set_inner.
    destruct (decide (u = n)) as [->|Hu], (decide (v = n)) as [->|Hv]; try done.
    + change (PyDict.get v []) with (@None Nx.edge_attrs).
      symmetry. destruct (Nx.lookup2 (Nx._pred g) v n) eqn:E; [|done].
      exfalso. destruct (nx_mirror_nodes n v g Hwf) as [? _]; [|done].
      by rewrite (Nx.wf_mirror g Hwf), E.
    + change (PyDict.get u []) with (@None Nx.edge_attrs).
      destruct (Nx.lookup2 (Nx._succ g) u n) eqn:E; [|done].
      exfalso. destruct (nx_mirror_nodes u n g Hwf) as [_ ?]; [|done].
      by rewrite E.
    + apply Hwf.
Qed.

(** *** [add_edge] between two nodes of the graph *)

Lemma nx_ensure_node_old (f : NA) n g :
  Nx.wf g → n ∈ Nx.nodes g → Nx.ensure_node f n g = g.
Proof.
  intros Hwf Hn. unfold Nx.ensure_node.
  assert (PyDict.mem n (Nx._succ g) = true) as ->; [|done].
  apply pd_mem_true. by rewrite (Nx.wf_succ_keys g Hwf).
Qed.

Lemma nx_add_edge_old (f : NA) u v attr g :
  Nx.wf g → u ∈ Nx.nodes g → v ∈ Nx.nodes g →
  ∃ succ_u pred_v,
    PyDict.get u (Nx._succ g) = Some succ_u
    ∧ PyDict.get v (Nx._pred g) = Some pred_v
    ∧ let datadict := PyDict.update attr (default [] (PyDict.get v succ_u)) in
      Nx.add_edge f u v attr g
      = Ok {| Nx._node := Nx._node g;
              Nx._succ := PyDict.set u (PyDict.set v datadict succ_u) (Nx._succ g);
              Nx._pred := PyDict.set v (PyDict.set u datadict pred_v) (Nx._pred g) |}.
Proof.
  intros Hwf Hu Hv.
  destruct (nx_succ_is_Some u g Hwf Hu) as [succ_u Hsu].
  destruct (nx_pred_is_Some v g Hwf Hv) as [pred_v Hpv].
  exists succ_u, pred_v. split_and!; [done..|]. intros datadict.
  unfold Nx.add_edge.
  rewrite (nx_ensure_node_old f u g), (nx_ensure_node_old f v g) by done.
  unfold PyDict.getitem. rewrite Hsu. simpl. by rewrite Hpv.
Qed.

Lemma nx_wf_set_edge u v dd succ_u pred_v g :
  Nx.wf g →
  PyDict.get u (Nx._succ g) = Some succ_u →
  PyDict.get v (Nx._pred g) = Some pred_v →
  Nx.wf {| Nx._node := Nx._node g;
           Nx._succ := PyDict.set u (PyDict.set v dd succ_u) (Nx._succ g);
           Nx._pred := PyDict.set v (PyDict.set u dd pred_v) (Nx._pred g) |}.
Proof.
  intros Hwf Hsu Hpv. split; simpl.
  - apply Hwf.
  - rewrite pd_keys_set_old by by eapply pd_get_Some_keys. apply Hwf.
  - rewrite pd_keys_set_old by by eapply pd_get_Some_keys. apply Hwf.
  - intros a nbrs. destruct (decide (u = a)) as [->|Hne].
    + rewrite pd_get_set_eq. intros [= <-]. apply pd_wf_set.
      by apply (Nx.wf_succ_inner g Hwf a).
    + rewrite pd_get_set_ne by done. apply Hwf.
  - intros a preds. destruct (decide (v = a)) as [->|Hne].
    + rewrite pd_get_set_eq. intros [= <-]. apply pd_wf_set.
      by apply (Nx.wf_pred_inner g Hwf a).
    + rewrite pd_get_set_ne by done. apply Hwf.
  - intros a b. rewrite !nx_lookup2_set_inner.
    pose proof (Nx.wf_mirror g Hwf a b) as Hm. unfold Nx.lookup2 in Hm |- *.
    destruct (decide (a = u)) as [->|Ha], (decide (b = v)) as [->|Hb].
    + by rewrite !pd_get_set_eq.
    + rewrite pd_get_set_ne by done. by rewrite Hsu in Hm.
    + rewrite pd_get_set_ne by done. by rewrite Hpv in Hm.
    + done.
Qed.

Lemma nx_lookup2_set_edge (adj : Nx.adjacency) u v dd inner a b :
  PyDict.get u adj = Some inner →
  Nx.lookup2 (PyDict.set u (PyDict.set v dd inner) adj) a b
  = if decide (a = u ∧ b = v) then Some dd else Nx.lookup2 adj a b.
Proof.
  intros Hu. rewrite nx_lookup2_set_inner. unfold Nx.lookup2.
  destruct (decide (a = u)) as [->|Ha].
  - rewrite Hu. simpl. destruct (decide (b = v)) as [->|Hb].
    + rewrite decide_True by done. apply pd_get_set_eq.
    + rewrite decide_False by tauto. by apply pd_get_set_ne.
  - by rewrite decide_False by tauto.
Qed.


(** *** [remove_edge] *)

Lemma nx_del_inner_ok (adj : Nx.adjacency) u n inner :
  PyDict.get u adj = Some inner → n ∈ PyDict.keys inner →
  Nx.del_inner u n adj = Ok (PyDict.set u (PyDict.remove n inner) adj).
Proof.
  intros Hu Hn. unfold Nx.del_inner, PyDict.getitem, PyDict.del. rewrite Hu. simpl.
  apply pd_mem_true in Hn. by rewrite Hn.
Qed.

Lemma nx_lookup2_del_edge (adj : Nx.adjacency) u v inner a b :
  PyDict.get u adj = Some inner →
  Nx.lookup2 (PyDict.set u (PyDict.remove v inner) adj) a b
  = if decide (a = u ∧ b = v) then None else Nx.lookup2 adj a b.
Proof.
  intros Hu. rewrite nx_lookup2_set_inner. unfold Nx.lookup2.
  destruct (decide (a = u)) as [->|Ha].
  - rewrite Hu. simpl. destruct (decide (b = v)) as [->|Hb].
    + rewrite decide_True by done. apply pd_get_remove_eq.
    + rewrite decide_False by tauto. by apply pd_get_remove_ne.
  - by rewrite decide_False by tauto.
Qed.

Lemma nx_remove_edge_ok u v g :
  Nx.wf g → Nx.edge g u v →
  ∃ succ_u pred_v,
    PyDict.get u (Nx._succ g) = Some succ_u
    ∧ PyDict.get v (Nx._pred g) = Some pred_v
    ∧ Nx.remove_edge u v g
      = Ok {| Nx._node := Nx._node g;
              Nx._succ := PyDict.set u (PyDict.remove v succ_u) (Nx._succ g);
              Nx._pred := PyDict.set v (PyDict.remove u pred_v) (Nx._pred g) |}.
Proof.
  intros Hwf He.
  pose proof He as (succ_u & Hsu & Hv)%nx_edge_succ.
  apply nx_edge_pred in He as (pred_v & Hpv & Hu); [|done].
  exists succ_u, pred_v. split_and!; [done..|].
  unfold Nx.remove_edge.
  rewrite (nx_del_inner_ok _ u v succ_u), (nx_del_inner_ok _ v u pred_v) by done.
  done.
Qed.

Lemma nx_wf_del_edge u v succ_u pred_v g :
  Nx.wf g →
  PyDict.get u (Nx._succ g) = Some succ_u →
  PyDict.get v (Nx._pred g) = Some pred_v →
  Nx.wf {| Nx._node := Nx._node g;
           Nx._succ := PyDict.set u (PyDict.remove v succ_u) (Nx._succ g);
           Nx._pred := PyDict.set v (PyDict.remove u pred_v) (Nx._pred g) |}.
Proof.
  intros Hwf Hsu Hpv. split; simpl.
  - apply Hwf.
  - rewrite pd_keys_set_old by by eapply pd_get_Some_keys. apply Hwf.
  - rewrite pd_keys_set_old by by eapply pd_get_Some_keys. apply Hwf.
  - intros a nbrs. destruct (decide (u = a)) as [->|Hne].
    + rewrite pd_get_set_eq. intros [= <-]. apply pd_wf_remove.
      by apply (Nx.wf_succ_inner g Hwf a).
    + rewrite pd_get_set_ne by done. apply Hwf.
  - intros a preds. destruct (decide (v = a)) as [->|Hne].
    + rewrite pd_get_set_eq. intros [= <-]. apply pd_wf_remove.
      by apply (Nx.wf_pred_inner g Hwf a).
    + rewrite pd_get_set_ne by done. apply Hwf.
  - intros a b. rewrite !nx_lookup2_del_edge by done.
    destruct (decide (a = u ∧ b = v)) as [[-> ->]|Hab].
    + by rewrite decide_True.
    + rewrite decide_False by tauto. apply Hwf.
Qed.

(** *** [remove_node] *)

(** The loops [for u in ...: del adj[u][n]] of [remove_node]. *)
Lemma nx_foldM_del_inner n (us : list string) (adj : Nx.adjacency) :
  NoDup us →
  (∀ u, u ∈ us → ∃ inner, PyDict.get u adj = Some inner ∧ n ∈ PyDict.keys inner) →
  ∃ adj',
    foldM (λ a u, Nx.del_inner u n a) adj us = Ok adj'
    ∧ PyDict.keys adj' = PyDict.keys adj
    ∧ ∀ k, PyDict.get k adj'
           = if decide (k ∈ us) then PyDict.remove n <$> PyDict.get k adj
             else PyDict.get k adj.
Proof.
  revert adj. induction us as [|u us IH]; intros adj Hnd Hall.
  - exists adj. split_and!; [done..|]. intros k.
    by rewrite decide_False by apply not_elem_of_nil.
  - apply NoDup_cons in Hnd as [Hu Hnd].
    destruct (Hall u) as (inner & Hget & Hn); [by left|].
    cbn [foldM]. rewrite (nx_del_inner_ok adj u n inner) by done. simpl.
    destruct (IH (PyDict.set u (PyDict.remove n inner) adj) Hnd) as (adj' & Hfold & Hkeys & Hgets).
    { intros u' Hu'. rewrite pd_get_set_ne by (intros ->; done). apply Hall. by right. }
    exists adj'. split_and!; [done| |].
    + rewrite Hkeys. apply pd_keys_set_old. by eapply pd_get_Some_keys.
    + intros k. rewrite Hgets. destruct (decide (k = u)) as [->|Hk].
      * rewrite decide_False by done. rewrite decide_True by by left.
        by rewrite pd_get_set_eq, Hget.
      * rewrite pd_get_set_ne by done.
        destruct (decide (k ∈ us)) as [Hin|Hnin].
        -- by rewrite decide_True by by right.
        -- rewrite decide_False; [done|]. rewrite not_elem_of_cons. tauto.
Qed.

Lemma nx_remove_node_ok n g :
  Nx.wf g → n ∈ Nx.nodes g →
  ∃ g',
    Nx.remove_node n g = Ok g'
    ∧ Nx._node g' = PyDict.remove n (Nx._node g)
    ∧ PyDict.keys (Nx._succ g') = PyDict.keys (PyDict.remove n (Nx._succ g))
    ∧ PyDict.keys (Nx._pred g') = PyDict.keys (PyDict.remove n (Nx._pred g))
    ∧ (∀ k, PyDict.get k (Nx._succ g')
            = if decide (k = n) then None
              else PyDict.remove n <$> PyDict.get k (Nx._succ g))
    ∧ (∀ k, PyDict.get k (Nx._pred g')
            = if decide (k = n) then None
              else PyDict.remove n <$> PyDict.get k (Nx._pred g)).
Proof.
  intros Hwf Hn.
  destruct (nx_succ_is_Some n g Hwf Hn) as [nbrs Hnbrs].
  destruct (nx_pred_is_Some n g Hwf Hn) as [pn Hpn].
  assert (PyDict.mem n (Nx._node g) = true) as Hmn by by apply pd_mem_true.
  assert (PyDict.mem n (Nx._succ g) = true) as Hms.
  { apply pd_mem_true. by eapply pd_get_Some_keys. }
  (* the first loop, over the successors of [n] *)
  destruct (nx_foldM_del_inner n (PyDict.keys nbrs) (Nx._pred g)) as (pred1 & Hf1 & Hk1 & Hg1).
  { by apply (Nx.wf_succ_inner g Hwf n). }
  { intros u Hu. apply nx_lookup2_Some. rewrite <- (Nx.wf_mirror g Hwf).
    apply nx_lookup2_Some. by exists nbrs. }
  (* [_pred[n]] after it *)
  assert (PyDict.get n pred1 = Some (PyDict.remove n pn)) as Hpn1.
  { rewrite Hg1, Hpn. simpl. destruct (decide (n ∈ PyDict.keys nbrs)) as [|Hnot]; [done|].
    f_equal. symmetry. apply pd_remove_absent. intros Hin. apply Hnot.
    assert (is_Some (Nx.lookup2 (Nx._succ g) n n)) as Hsome.
    { rewrite (Nx.wf_mirror g Hwf). apply nx_lookup2_Some. by exists pn. }
    apply nx_lookup2_Some in Hsome as (? & ? & ?). by simplify_eq. }
  (* the second loop, over the predecessors left *)
  destruct (nx_foldM_del_inner n (PyDict.keys (PyDict.remove n pn))
              (PyDict.remove n (Nx._succ g))) as (succ2 & Hf2 & Hk2 & Hg2).
  { apply pd_wf_remove. by apply (Nx.wf_pred_inner g Hwf n). }
  { intros u [Hne Hu]%pd_keys_remove_elem. rewrite pd_get_remove_ne by done.
    apply nx_lookup2_Some. rewrite (Nx.wf_mirror g Hwf).
    apply nx_lookup2_Some. by exists pn. }
  assert (PyDict.mem n pred1 = true) as Hm1.
  { apply pd_mem_true. by eapply pd_get_Some_keys. }
  eexists. split_and!.
  - unfold Nx.remove_node, PyDict.getitem, PyDict.del.
    rewrite Hnbrs, Hmn. simpl. rewrite Hf1. simpl. rewrite Hms. simpl.
    rewrite Hpn1. simpl. rewrite Hf2. simpl. rewrite Hm1. simpl. done.
  - done.
  - done.
  - simpl. by rewrite !pd_keys_remove, Hk1.
  - simpl. intros k. rewrite Hg2. destruct (decide (k = n)) as [->|Hk].
    + rewrite decide_False by (rewrite pd_keys_remove_elem; tauto).
      apply pd_get_remove_eq.
    + rewrite pd_get_remove_ne by done.
      destruct (decide (k ∈ _)) as [|Hnot]; [done|].
      destruct (PyDict.get k (Nx._succ g)) as [inner|] eqn:Hinner; [|done].
      simpl. f_equal. symmetry. apply pd_remove_absent. intros Hin. apply Hnot.
      apply pd_keys_remove_elem. split; [done|].
      assert (is_Some (Nx.lookup2 (Nx._pred g) n k)) as Hsome.
      { rewrite <- (Nx.wf_mirror g Hwf). apply nx_lookup2_Some. by exists inner. }
      apply nx_lookup2_Some in Hsome as (? & ? & ?). by simplify_eq.
  - simpl. intros k. destruct (decide (k = n)) as [->|Hk].
    + apply pd_get_remove_eq.
    + rewrite pd_get_remove_ne by done. rewrite Hg1.
      destruct (decide (k ∈ _)) as [|Hnot]; [done|].
      destruct (PyDict.get k (Nx._pred g)) as [inner|] eqn:Hinner; [|done].
      simpl. f_equal. symmetry. apply pd_remove_absent. intros Hin. apply Hnot.
      assert (is_Some (Nx.lookup2 (Nx._succ g) n k)) as Hsome.
      { rewrite (Nx.wf_mirror g Hwf). apply nx_lookup2_Some. by exists inner. }
      apply nx_lookup2_Some in Hsome as (? & ? & ?). by simplify_eq.
Qed.

Lemma nx_lookup2_removed (adj adj' : Nx.adjacency) n :
  (∀ k, PyDict.get k adj'
        = if decide (k = n) then None else PyDict.remove n <$> PyDict.get k adj) →
  ∀ a b, Nx.lookup2 adj' a b
         = if decide (a = n ∨ b = n) then None else Nx.lookup2 adj a b.
Proof.
  intros Hget a b. unfold Nx.lookup2. rewrite Hget.
  destruct (decide (a = n)) as [->|Ha].
  - by rewrite decide_True by by left.
  - destruct (PyDict.get a adj) as [inner|]; simpl.
    + destruct (decide (b = n)) as [->|Hb].
      * rewrite decide_True by by right. apply pd_get_remove_eq.
      * rewrite decide_False by tauto. by apply pd_get_remove_ne.
    + by destruct (decide _).
Qed.

Lemma nx_remove_node_wf n g g' :
  Nx.wf g → n ∈ Nx.nodes g → Nx.remove_node n g = Ok g' → Nx.wf g'.
Proof.
  intros Hwf Hn Hrm.
  destruct (nx_remove_node_ok n g Hwf Hn) as (g0 & Hrm0 & Hnode & Hks & Hkp & Hgs & Hgp).
  rewrite Hrm in Hrm0. injection Hrm0 as <-.
  split.
  - rewrite Hnode. apply pd_wf_remove, Hwf.
  - rewrite Hks, Hnode, !pd_keys_remove. f_equal. apply Hwf.
  - rewrite Hkp, Hnode, !pd_keys_remove. f_equal. apply Hwf.
  - intros u nbrs. rewrite Hgs. destruct (decide (u = n)); [done|].
    destruct (PyDict.get u (Nx._succ g)) as [inner|] eqn:E; [|done].
    intros [= <-]. apply pd_wf_remove. by apply (Nx.wf_succ_inner g Hwf u).
  - intros u preds. rewrite Hgp. destruct (decide (u = n)); [done|].
    destruct (PyDict.get u (Nx._pred g)) as [inner|] eqn:E; [|done].
    intros [= <-]. apply pd_wf_remove. by apply (Nx.wf_pred_inner g Hwf u).
  - intros u v. rewrite (nx_lookup2_removed _ _ n Hgs), (nx_lookup2_removed _ _ n Hgp).
    destruct (decide (u = n ∨ v = n)) as [Huv|Huv].
    + by rewrite decide_True by tauto.
    + rewrite decide_False by tauto. apply Hwf.
Qed.

End nx_facts.

(** ** The topological sort *)

Section monad_facts.
Context {A B : Type}.

Lemma bind_Ok (a : A) (k : A → result B) : (Ok a ≫= k) = k a.
Proof. done. Qed.

Lemma bind_Raise (e : exn) (k : A → result B) : (Raise e ≫= k) = Raise e.
Proof. done. Qed.

Lemma foldM_inv (P : B → Prop) (f : B → A → result B) acc xs r :
  P acc → (∀ b x b', P b → f b x = Ok b' → P b') →
  foldM f acc xs = Ok r → P r.
Proof.
  intros Hacc Hstep. revert acc Hacc.
  induction xs as [|x xs IH]; intros acc Hacc; simpl.
  - by intros [= <-].
  - destruct (f acc x) as [b'|e] eqn:E; simpl; [|done]. apply IH. by eapply Hstep.
Qed.

Lemma foldM_raise (P : exn → Prop) (f : B → A → result B) acc xs e :
  (∀ b x e', f b x = Raise e' → P e') → foldM f acc xs = Raise e → P e.
Proof.
  intros Hstep. revert acc. induction xs as [|x xs IH]; intros acc; simpl; [done|].
  destruct (f acc x) as [b'|e'] eqn:E; simpl.
  - apply IH.
  - intros [= <-]. by eapply Hstep.
Qed.

Lemma mapM_raise (P : exn → Prop) (f : A → result B) xs e :
  (∀ x e', f x = Raise e' → P e') → mapM f xs = Raise e → P e.
Proof.
  intros Hstep. revert e. induction xs as [|x xs IH]; intros e; [done|]. cbn [mapM].
  destruct (f x) as [b|e'] eqn:E; simpl.
  - destruct (mapM f xs) as [bs|e'']; simpl; [done|]. intros [= <-]. by apply IH.
  - intros [= <-]. by eapply Hstep.
Qed.

Lemma mapM_Ok (f : A → result B) (h : A → B) xs :
  (∀ x, x ∈ xs → f x = Ok (h x)) → mapM f xs = Ok (h <$> xs).
Proof.
  induction xs as [|x xs IH]; intros Hall; [done|]. cbn [mapM].
  rewrite Hall by by left. simpl. rewrite IH; [done|].
  intros y Hy. apply Hall. by right.
Qed.

End monad_facts.

Lemma pd_length_set_old {V : Type} (k : string) (v : V) (d : PyDict.t string V) :
  k ∈ PyDict.keys d → length (PyDict.set k v d) = length d.
Proof.
  intros Hk. pose proof (f_equal length (pd_keys_set_old k v d Hk)) as Hlen.
  unfold PyDict.keys in Hlen. by rewrite !length_fmap in Hlen.
Qed.

(** A chain of edges that never leaves a finite set closes a cycle. *)
Section cycles.
Context (E : relation string).
Local Abbreviation walk := (Nx.walk E).


Lemma walk_tc u l y : walk (u :: l) → y ∈ l → tc E u y.
Proof.
  revert u. induction l as [|v l IH]; intros u Hw Hy; [by apply elem_of_nil in Hy|].
  inversion Hw as [|? ? ? Huv Hw']; subst.
  apply elem_of_cons in Hy as [->|Hy].
  - by apply tc_once.
  - eapply tc_l; [done|]. by apply IH.
Qed.

Lemma walk_dup_cycle l : walk l → ¬ NoDup l → ∃ w, tc E w w.
Proof.
  induction l as [|u l IH]; intros Hw Hdup.
  - destruct Hdup. apply NoDup_nil_2.
  - destruct (decide (u ∈ l)) as [Hin|Hnin].
    + exists u. by eapply walk_tc.
    + inversion Hw; subst.
      * exfalso. apply Hdup. apply NoDup_singleton.
      * apply IH; [done|]. intros Hnd. apply Hdup. by apply NoDup_cons.
Qed.

Lemma closed_set_cycle (S : list string) :
  S ≠ [] →
  (∀ v, v ∈ S → ∃ u, u ∈ S ∧ E u v) →
  ∃ w, tc E w w.
Proof.
  intros Hne Hclosed.
  assert (∀ n, ∃ l, length l = Datatypes.S n ∧ walk l ∧ ∀ y, y ∈ l → y ∈ S) as Hwalks.
  { induction n as [|n (l & Hlen & Hw & Hsub)].
    - destruct S as [|v S']; [done|]. exists [v]. split_and!; [done|constructor|].
      intros y ->%list_elem_of_singleton. by left.
    - destruct l as [|v l]; [done|].
      destruct (Hclosed v) as (u & Hu & Huv); [apply Hsub; by left|].
      exists (u :: v :: l). split_and!.
      + simpl in *. lia.
      + by constructor.
      + intros y [->|Hy]%elem_of_cons; [done|]. by apply Hsub. }
  destruct (Hwalks (length S)) as (l & Hlen & Hw & Hsub).
  apply (walk_dup_cycle l Hw). intros Hnd.
  pose proof (submseteq_length _ _ (NoDup_submseteq l S Hnd Hsub)). lia.
Qed.

End cycles.

Section kahn.
Context {NA : Type} (g : Nx.DiGraph NA) (Hwf : Nx.wf g).
Local Abbreviation preds := (Nx.preds g).
Local Abbreviation succs := (Nx.succs g).
Local Abbreviation rem := (Nx.remaining g).
Local Abbreviation acc := Nx.counted.
Local Abbreviation sorted := (Nx.sorted g).
Local Abbreviation child_inv := (Nx.child_inv g).
Local Abbreviation inv := (Nx.inv g).
Local Abbreviation measure := Nx.measure.


Lemma edge_succs u v : Nx.edge g u v ↔ v ∈ succs u.
Proof.
  rewrite nx_edge_succ. unfold Nx.succs. split.
  - by intros (nbrs & -> & Hv).
  - destruct (PyDict.get u (Nx._succ g)) as [nbrs|]; simpl.
    + intros Hv. by exists nbrs.
    + by intros ?%elem_of_nil.
Qed.

Lemma edge_preds u v : Nx.edge g u v ↔ u ∈ preds v.
Proof using Hwf.
  rewrite nx_edge_pred by done. unfold Nx.preds. split.
  - by intros (ps & -> & Hu).
  - destruct (PyDict.get v (Nx._pred g)) as [ps|]; simpl.
    + intros Hu. by exists ps.
    + by intros ?%elem_of_nil.
Qed.

Lemma NoDup_preds v : NoDup (preds v).
Proof using Hwf.
  unfold Nx.preds. destruct (PyDict.get v (Nx._pred g)) as [ps|] eqn:E; simpl.
  - by apply (Nx.wf_pred_inner g Hwf v).
  - apply NoDup_nil_2.
Qed.

Lemma NoDup_succs u : NoDup (succs u).
Proof using Hwf.
  unfold Nx.succs. destruct (PyDict.get u (Nx._succ g)) as [ns|] eqn:E; simpl.
  - by apply (Nx.wf_succ_inner g Hwf u).
  - apply NoDup_nil_2.
Qed.

Lemma preds_nodes u v : u ∈ preds v → u ∈ Nx.nodes g.
Proof using Hwf.
  intros He%edge_preds. by destruct (nx_edge_nodes u v g Hwf He).
Qed.

Lemma neighbors_succs u : u ∈ Nx.nodes g → Nx.neighbors u g = Ok (succs u).
Proof using Hwf.
  intros Hu. unfold Nx.neighbors, Nx.succs, PyDict.getitem.
  by destruct (nx_succ_is_Some u g Hwf Hu) as [nbrs ->].
Qed.

Lemma in_degree_preds :
  Nx.in_degree g = Ok ((λ n, (n, length (preds n))) <$> Nx.nodes g).
Proof using Hwf.
  unfold Nx.in_degree. rewrite (Nx.wf_succ_keys g Hwf).
  apply mapM_Ok. intros n Hn. unfold Nx.preds, PyDict.getitem.
  destruct (nx_pred_is_Some n g Hwf Hn) as [ps ->]. simpl.
  unfold PyDict.len, PyDict.keys. by rewrite length_fmap.
Qed.

Lemma rem_zero D v : rem D v = 0 ↔ ∀ u, u ∈ preds v → u ∈ D.
Proof.
  unfold Nx.remaining. rewrite length_zero_iff_nil. split.
  - intros Hnil u Hu. destruct (decide (u ∈ D)) as [|Hn]; [done|].
    exfalso. eapply (filter_nil_not_elem_of _ _ u Hnil); done.
  - intros Hall. apply filter_none. intros u Hu Hn. apply Hn. by apply Hall.
Qed.

Lemma rem_pos D v : 0 < rem D v → ∃ u, u ∈ preds v ∧ u ∉ D.
Proof.
  unfold Nx.remaining. destruct (filter _ _) as [|u l] eqn:E; simpl; [lia|]. intros _.
  assert (u ∈ filter (λ u, u ∉ D) (preds v)) as Hin by (rewrite E; by left).
  apply list_elem_of_filter in Hin as [??]. by exists u.
Qed.

(** Putting [x] out lowers the count of its successors by one. *)
Lemma rem_snoc D x v : x ∉ D → rem (D ++ [x]) v + acc (succs x) v = rem D v.
Proof using Hwf.
  intros Hx. unfold Nx.remaining, Nx.counted.
  assert (v ∈ succs x ↔ x ∈ preds v) as Hiff by by rewrite <- edge_succs, edge_preds.
  pose proof (NoDup_preds v) as Hnd. revert Hiff Hnd.
  generalize (preds v) as ps. clear Hwf. intros ps Hiff Hnd.
  assert (length (filter (λ u, u ∉ D ++ [x]) ps) + (if decide (x ∈ ps) then 1 else 0)
          = length (filter (λ u, u ∉ D) ps)) as Hcount.
  { clear Hiff. induction ps as [|p ps IH]; [done|].
    apply NoDup_cons in Hnd as [Hp Hnd]. specialize (IH Hnd).
    rewrite !filter_cons.
    destruct (decide (p = x)) as [->|Hpx].
    - rewrite decide_False by (rewrite elem_of_app, list_elem_of_singleton; tauto).
      rewrite (decide_True (P := x ∉ D)) by done.
      rewrite (decide_True (P := x ∈ x :: ps)) by by left.
      rewrite decide_False in IH by done. simpl. lia.
    - destruct (decide (x ∈ ps)) as [Hin|Hnin].
      + rewrite (decide_True (P := x ∈ p :: ps)) by by right.
        destruct (decide (p ∉ D)) as [HpD|HpD].
        * rewrite decide_True by (rewrite elem_of_app, list_elem_of_singleton; tauto).
          simpl. lia.
        * rewrite decide_False by (rewrite elem_of_app; tauto). done.
      + rewrite (decide_False (P := x ∈ p :: ps)) by by intros [->|?]%elem_of_cons.
        destruct (decide (p ∉ D)) as [HpD|HpD].
        * rewrite decide_True by (rewrite elem_of_app, list_elem_of_singleton; tauto).
          simpl. lia.
        * rewrite decide_False by (rewrite elem_of_app; tauto). done. }
  destruct (decide (v ∈ succs x)) as [Hv|Hv].
  - rewrite decide_True in Hcount by tauto. done.
  - rewrite decide_False in Hcount by tauto. done.
Qed.

Lemma sorted_snoc D x : sorted D → rem D x = 0 → sorted (D ++ [x]).
Proof.
  intros Hs Hx j v Hj u Hu. pose proof (proj1 (rem_zero D x) Hx) as Hx'.
  destruct (decide (j < length D)) as [Hlt|Hge].
  - rewrite lookup_app_l in Hj by done.
    destruct (Hs j v Hj u Hu) as (i & Hi & Hlook). exists i. split; [done|].
    rewrite lookup_app_l; [done|lia].
  - rewrite lookup_app_r in Hj by lia.
    apply list_lookup_singleton_Some in Hj as [Hj <-].
    destruct (list_elem_of_lookup_1 D u (Hx' u Hu)) as [i Hi].
    pose proof (lookup_lt_Some _ _ _ Hi). exists i. split; [lia|].
    by rewrite lookup_app_l.
Qed.


Lemma rem_pos_intro D u v : u ∈ preds v → u ∉ D → 0 < rem D v.
Proof.
  intros Hu HD. unfold Nx.remaining.
  assert (u ∈ filter (λ u, u ∉ D) (preds v)) as Hin by by apply list_elem_of_filter.
  destruct (filter _ _); [by apply elem_of_nil in Hin|simpl; lia].
Qed.

Lemma acc_snoc_ne cs c v : v ≠ c → acc (cs ++ [c]) v = acc cs v.
Proof.
  intros Hne. unfold Nx.counted. destruct (decide (v ∈ cs)) as [Hin|Hnin].
  - rewrite decide_True; [done|]. apply elem_of_app. by left.
  - rewrite decide_False; [done|]. rewrite elem_of_app, list_elem_of_singleton. tauto.
Qed.

Lemma acc_snoc_eq cs c : acc (cs ++ [c]) c = 1.
Proof.
  unfold Nx.counted. rewrite decide_True; [done|]. apply elem_of_app. right. by left.
Qed.

Lemma keys_remove_perm {V : Type} (c : string) (d : PyDict.t string V) :
  PyDict.wf d → c ∈ PyDict.keys d →
  PyDict.keys d ≡ₚ c :: PyDict.keys (PyDict.remove c d).
Proof.
  rewrite pd_keys_remove. unfold PyDict.wf. generalize (PyDict.keys d) as l. clear d.
  induction l as [|a l IH]; intros Hnd Hc; [by apply elem_of_nil in Hc|].
  apply NoDup_cons in Hnd as [Ha Hnd]. rewrite filter_cons.
  destruct (decide (a = c)) as [->|Hne].
  - rewrite decide_False by tauto. f_equiv. symmetry. apply (reflexive_eq (R := (≡ₚ))).
    apply filter_all. intros y Hy ->. done.
  - rewrite decide_True by done. apply elem_of_cons in Hc as [->|Hc]; [done|].
    rewrite (IH Hnd Hc) at 1. apply Permutation_swap.
Qed.


Lemma child_inv_nodup D x R cs st :
  child_inv D x R cs st → NoDup (D ++ x :: R ++ st.2 ++ PyDict.keys st.1).
Proof using Hwf. intros [Hperm _ _]. rewrite Hperm. apply Hwf. Qed.

Lemma visit_child_step D x R cs st c :
  sorted D → rem D x = 0 → child_inv D x R cs st →
  c ∈ succs x → c ∉ cs →
  ∃ st', Nx.visit_child st c = Ok st' ∧ child_inv D x R (cs ++ [c]) st'.
Proof using Hwf.
  intros Hsorted Hx Hinv Hc Hcs.
  pose proof (child_inv_nodup _ _ _ _ _ Hinv) as Hnd.
  destruct Hinv as [Hperm Hmap Hpend]. destruct st as [imap zero]. simpl in *.
  assert (x ∈ preds c) as Hxc by by rewrite <- edge_preds, edge_succs.
  assert (x ∉ D) as HxD.
  { apply NoDup_app in Hnd as (_ & Hdisj & _). intros Hin. apply (Hdisj x Hin). by left. }
  assert (0 < rem D c) as Hpos by by eapply rem_pos_intro.
  assert (c ∈ PyDict.keys imap) as Hkey.
  { assert (c ∈ Nx.nodes g) as Hcn.
    { destruct (nx_edge_nodes x c g Hwf) as [_ ?]; [by apply edge_succs|done]. }
    rewrite <- Hperm in Hcn.
    rewrite elem_of_app, elem_of_cons, (assoc (++)), elem_of_app in Hcn.
    destruct Hcn as [HcD|[->|[HcP|?]]]; [| | |done]; exfalso.
    - apply list_elem_of_lookup_1 in HcD as [j Hj].
      destruct (Hsorted j c Hj x Hxc) as (i & _ & Hi). apply HxD.
      by eapply list_elem_of_lookup_2.
    - lia.
    - rewrite (Hpend c HcP) in Hpos. unfold Nx.counted in Hpos.
      rewrite decide_False in Hpos by done. lia. }
  assert (PyDict.wf imap) as Hwfm.
  { pose proof Hnd as (_ & _ & Hnd1)%NoDup_app.
    apply NoDup_cons in Hnd1 as [_ Hnd1].
    apply NoDup_app in Hnd1 as (_ & _ & Hnd1).
    by apply NoDup_app in Hnd1 as (_ & _ & Hnd1). }
  assert (∀ v, v ∈ R ++ zero → v ≠ c) as Hpc.
  { intros v Hv ->.
    apply NoDup_app in Hnd as (_ & _ & (_ & Hnd)%NoDup_cons).
    rewrite (assoc (++)) in Hnd. apply NoDup_app in Hnd as (_ & Hdisj & _).
    by apply (Hdisj c). }
  destruct (pd_keys_get c imap Hkey) as [d Hd].
  destruct (Hmap c d Hd) as [Hdpos Hrem].
  unfold Nx.visit_child. rewrite Hd.
  destruct (decide (d - 1 = 0)) as [Hone|Hmore].
  - eexists. split; [done|]. split; simpl.
    + rewrite <- Hperm. do 3 f_equiv. rewrite <- (assoc (++)). f_equiv. simpl.
      symmetry. by apply keys_remove_perm.
    + intros v d0 Hv. destruct (decide (v = c)) as [->|Hne].
      * by rewrite pd_get_remove_eq in Hv.
      * rewrite pd_get_remove_ne in Hv by done. rewrite acc_snoc_ne by done. by apply Hmap.
    + intros v Hv. rewrite (assoc (++)), elem_of_app, list_elem_of_singleton in Hv.
      destruct Hv as [Hv| ->].
      * rewrite acc_snoc_ne by by apply Hpc. by apply Hpend.
      * rewrite acc_snoc_eq. unfold Nx.counted in Hrem. rewrite decide_False in Hrem by done. lia.
  - eexists. split; [done|]. split; simpl.
    + by rewrite pd_keys_set_old.
    + intros v d0. destruct (decide (c = v)) as [<-|Hne].
      * rewrite pd_get_set_eq. intros [= <-]. rewrite acc_snoc_eq.
        unfold Nx.counted in Hrem. rewrite decide_False in Hrem by done. lia.
      * rewrite pd_get_set_ne by done. rewrite acc_snoc_ne by done. apply Hmap.
    + intros v Hv. rewrite acc_snoc_ne by by apply Hpc. by apply Hpend.
Qed.

Lemma visit_children D x R st cs1 cs2 :
  sorted D → rem D x = 0 → child_inv D x R cs1 st →
  NoDup (cs1 ++ cs2) → (∀ c, c ∈ cs2 → c ∈ succs x) →
  ∃ st', foldM Nx.visit_child st cs2 = Ok st' ∧ child_inv D x R (cs1 ++ cs2) st'.
Proof using Hwf.
  intros Hsorted Hx. revert st cs1.
  induction cs2 as [|c cs2 IH]; intros st cs1 Hinv Hnd Hsub.
  - exists st. split; [done|]. by rewrite app_nil_r.
  - destruct (visit_child_step D x R cs1 st c) as (st1 & Hst1 & Hinv1); [done..| | |].
    { apply Hsub. by left. }
    { apply NoDup_app in Hnd as (_ & Hdisj & _). intros Hin. apply (Hdisj c Hin). by left. }
    destruct (IH st1 (cs1 ++ [c])) as (st' & Hst' & Hinv'); [done| | |].
    { by rewrite <- (assoc (++)). }
    { intros c' Hc'. apply Hsub. by right. }
    exists st'. split.
    + cbn [foldM]. rewrite Hst1. done.
    + by rewrite (cons_middle c cs1 cs2), (assoc (++)).
Qed.


Lemma visit_node_step D x R imap zero :
  inv D (x :: R ++ zero) imap →
  ∃ imap' zero',
    Nx.visit_node g (imap, zero) x = Ok (imap', zero')
    ∧ inv (D ++ [x]) (R ++ zero') imap'.
Proof using Hwf.
  intros [Hperm Hmap Hpend Hsorted].
  assert (x ∈ Nx.nodes g) as Hxn.
  { rewrite <- Hperm. apply elem_of_app. right. by left. }
  assert (rem D x = 0) as Hx by (apply Hpend; by left).
  destruct (visit_children D x R (imap, zero) [] (succs x)) as ([imap' zero'] & Hfold & Hinv);
    [done..| | | | ].
  { split; simpl.
    - rewrite <- Hperm. simpl. by rewrite <- (assoc_L (++)).
    - intros v d Hv. unfold Nx.counted. rewrite decide_False by apply not_elem_of_nil.
      rewrite Nat.add_0_r. by apply Hmap.
    - intros v Hv. unfold Nx.counted. rewrite decide_False by apply not_elem_of_nil.
      apply Hpend. by right. }
  { apply NoDup_succs. }
  { done. }
  pose proof (child_inv_nodup _ _ _ _ _ Hinv) as Hnd.
  destruct Hinv as [Hperm' Hmap' Hpend']. simpl in *.
  assert (x ∉ D) as HxD.
  { apply NoDup_app in Hnd as (_ & Hdisj & _). intros Hin. apply (Hdisj x Hin). by left. }
  exists imap', zero'. split.
  - unfold Nx.visit_node. apply nx_contains_nodes in Hxn as Hc. rewrite Hc. simpl.
    by rewrite neighbors_succs.
  - split.
    + rewrite <- Hperm', <- !(assoc (++)). done.
    + intros v d Hv. destruct (Hmap' v d Hv) as [Hd Hrem]. split; [done|].
      pose proof (rem_snoc D x v HxD). lia.
    + intros v Hv. pose proof (Hpend' v Hv). pose proof (rem_snoc D x v HxD). lia.
    + by apply sorted_snoc.
Qed.

Lemma visit_generation D G imap zero :
  inv D (G ++ zero) imap →
  ∃ imap' zero',
    foldM (Nx.visit_node g) (imap, zero) G = Ok (imap', zero')
    ∧ inv (D ++ G) zero' imap'.
Proof using Hwf.
  revert D imap zero. induction G as [|x G IH]; intros D imap zero Hinv.
  - exists imap, zero. split; [done|]. by rewrite app_nil_r.
  - destruct (visit_node_step D x G imap zero Hinv) as (imap1 & zero1 & Hv & Hinv1).
    destruct (IH _ _ _ Hinv1) as (imap' & zero' & Hfold & Hinv').
    exists imap', zero'. split.
    + cbn [foldM]. rewrite Hv. done.
    + by rewrite (cons_middle x D G), (assoc (++)).
Qed.



Lemma visit_child_measure st c st' :
  Nx.visit_child st c = Ok st' → measure st' ≤ measure st.
Proof.
  destruct st as [imap zero]. unfold Nx.visit_child, Nx.measure.
  destruct (PyDict.get c imap) as [d|] eqn:Hd; [|done].
  assert (c ∈ PyDict.keys imap) as Hkey by by eapply pd_get_Some_keys.
  destruct (decide (d - 1 = 0)); intros [= <-]; simpl.
  - rewrite length_app. simpl.
    assert (length (PyDict.remove c imap) < length imap); [|lia].
    apply list_elem_of_fmap in Hkey as ([c' d'] & -> & Hin).
    unfold PyDict.remove. eapply length_filter_lt; [done|]. simpl. tauto.
  - by rewrite pd_length_set_old.
Qed.

Lemma visit_node_measure st x st' :
  Nx.visit_node g st x = Ok st' → measure st' ≤ measure st.
Proof.
  unfold Nx.visit_node. destruct (negb _); [done|].
  destruct (Nx.neighbors x g) as [children|]; simpl; [|done].
  apply (foldM_inv (λ s, measure s ≤ measure st)); [done|].
  intros b c b' Hb Hstep. pose proof (visit_child_measure _ _ _ Hstep). lia.
Qed.

Lemma visit_generation_measure st G st' :
  foldM (Nx.visit_node g) st G = Ok st' → measure st' ≤ measure st.
Proof.
  apply (foldM_inv (λ s, measure s ≤ measure st)); [done|].
  intros b c b' Hb Hstep. pose proof (visit_node_measure _ _ _ Hstep). lia.
Qed.

(** The fuel of [topological_generations] is enough on every graph. *)
Lemma visit_node_fuel st x e :
  Nx.visit_node g st x = Raise e → e ≠ OutOfFuel.
Proof.
  unfold Nx.visit_node. destruct (negb _); [by intros [= <-]|].
  unfold Nx.neighbors, PyDict.getitem.
  destruct (PyDict.get x (Nx._succ g)) as [nbrs|]; simpl; [|by intros [= <-]].
  intros Hfold. eapply (foldM_raise (λ e, e ≠ OutOfFuel)); [|exact Hfold].
  intros [imap zero] c e'. unfold Nx.visit_child.
  destruct (PyDict.get c imap); [by destruct (decide _)|by intros [= <-]].
Qed.

Lemma generations_loop_fuel fuel imap zero :
  zero = [] ∨ length imap < fuel →
  Nx.generations_loop fuel g imap zero ≠ Raise OutOfFuel.
Proof.
  revert imap zero. induction fuel as [|fuel IH]; intros imap zero Hfuel.
  - destruct Hfuel as [->|?]; [|lia]. simpl. by destruct (decide _).
  - destruct zero as [|z zero]; [simpl; by destruct (decide _)|].
    destruct Hfuel as [?|Hfuel]; [done|]. cbn [Nx.generations_loop].
    destruct (foldM (Nx.visit_node g) (imap, []) (z :: zero)) as [[imap' zero']|e] eqn:Hfold.
    + pose proof (visit_generation_measure _ _ _ Hfold) as Hm. unfold Nx.measure in Hm.
      simpl in Hm. rewrite bind_Ok.
      assert (zero' = [] ∨ length imap' < fuel) as Hnext.
      { destruct zero'; [by left|right]. simpl in Hm. lia. }
      specialize (IH imap' zero' Hnext).
      destruct (Nx.generations_loop fuel g imap' zero') as [later|e];
        [by rewrite bind_Ok|by rewrite bind_Raise].
    + rewrite bind_Raise. intros [= ->].
      eapply (foldM_raise (λ e, e ≠ OutOfFuel)); [|exact Hfold|done].
      intros b x e'. apply visit_node_fuel.
Qed.

Lemma topological_sort_fuel : Nx.topological_sort g ≠ Raise OutOfFuel.
Proof.
  unfold Nx.topological_sort, Nx.topological_generations.
  destruct (Nx.in_degree g) as [degrees|e] eqn:Hdeg.
  - rewrite bind_Ok. cbv zeta.
    pose proof (generations_loop_fuel (S (length (filter (λ vd, 0 < vd.2) degrees)))
                  (filter (λ vd, 0 < vd.2) degrees)
                  (filter (λ vd, vd.2 = 0) degrees).*1
                  (or_intror (Nat.lt_succ_diag_r _))) as Hloop.
    destruct (Nx.generations_loop _ _ _ _) as [generations|e];
      [by rewrite bind_Ok|rewrite bind_Raise; by intros [= ->]].
  - rewrite !bind_Raise. intros [= ->]. unfold Nx.in_degree in Hdeg.
    eapply (mapM_raise (λ e, e ≠ OutOfFuel)); [|exact Hdeg|done].
    intros x e'. unfold PyDict.getitem.
    destruct (PyDict.get x (Nx._pred g)); [done|]. by intros [= <-].
Qed.

Lemma inv_topological_order D :
  inv D [] [] → Nx.topological_order g D.
Proof using Hwf.
  intros [Hperm _ _ Hsorted]. simpl in Hperm. rewrite app_nil_r in Hperm.
  split; [done|]. intros u v Huv.
  assert (v ∈ D) as Hv.
  { rewrite Hperm. by destruct (nx_edge_nodes u v g Hwf Huv). }
  apply list_elem_of_lookup_1 in Hv as [j Hj].
  destruct (Hsorted j v Hj u) as (i & Hi & Hlook); [by apply edge_preds|].
  by exists i, j.
Qed.

Lemma inv_stuck_cycle D imap :
  inv D [] imap → imap ≠ [] → Nx.has_cycle g.
Proof using Hwf.
  intros [Hperm Hmap _ _] Hne. simpl in Hperm.
  apply (closed_set_cycle (Nx.edge g) (PyDict.keys imap)).
  - destruct imap; [done|]. done.
  - intros v [d Hd]%pd_keys_get. destruct (Hmap v d Hd) as [Hpos Hrem].
    rewrite <- Hrem in Hpos. apply rem_pos in Hpos as (u & Hu & HuD).
    exists u. split; [|by apply edge_preds].
    pose proof (preds_nodes u v Hu) as Hun. rewrite <- Hperm in Hun.
    by apply elem_of_app in Hun as [?|?].
Qed.

Lemma generations_loop_correct fuel D imap zero :
  inv D zero imap → zero = [] ∨ length imap < fuel →
  match Nx.generations_loop fuel g imap zero with
  | Ok generations => Nx.topological_order g (D ++ concat generations)
  | Raise e =>
      e = NetworkXUnfeasible "Graph contains a cycle or graph changed during iteration"
      ∧ Nx.has_cycle g
  end.
Proof using Hwf.
  revert D imap zero. induction fuel as [|fuel IH]; intros D imap zero Hinv Hfuel.
  - destruct Hfuel as [->|?]; [|lia]. simpl.
    destruct (decide (imap = [])) as [->|Hne].
    + simpl. rewrite app_nil_r. by apply inv_topological_order.
    + split; [done|]. by eapply inv_stuck_cycle.
  - destruct zero as [|z zero].
    + simpl. destruct (decide (imap = [])) as [->|Hne].
      * simpl. rewrite app_nil_r. by apply inv_topological_order.
      * split; [done|]. by eapply inv_stuck_cycle.
    + destruct Hfuel as [?|Hfuel]; [done|].
      destruct (visit_generation D (z :: zero) imap []) as (imap' & zero' & Hfold & Hinv').
      { by rewrite app_nil_r. }
      pose proof (visit_generation_measure _ _ _ Hfold) as Hm. unfold Nx.measure in Hm.
      simpl in Hm.
      cbn [Nx.generations_loop]. rewrite Hfold. simpl.
      specialize (IH (D ++ z :: zero) imap' zero' Hinv').
      destruct (Nx.generations_loop fuel g imap' zero') as [later|e].
      * simpl. rewrite <- (assoc (++)) in IH. apply IH.
        destruct zero'; [by left|right]. simpl in Hm. lia.
      * simpl. apply IH. destruct zero'; [by left|right]. simpl in Hm. lia.
Qed.

Lemma degrees_partition (degrees : list (string * nat)) :
  (filter (λ vd, vd.2 = 0) degrees).*1 ++ (filter (λ vd, 0 < vd.2) degrees).*1
  ≡ₚ degrees.*1.
Proof.
  induction degrees as [|[v d] l IH]; [done|]. rewrite !filter_cons. simpl.
  destruct (decide (d = 0)) as [->|Hd].
  - rewrite decide_False by lia. simpl. by rewrite IH.
  - rewrite decide_True by lia. simpl. rewrite <- Permutation_middle. by rewrite IH.
Qed.

Lemma initial_inv :
  let degrees := (λ n, (n, length (preds n))) <$> Nx.nodes g in
  inv [] (filter (λ vd, vd.2 = 0) degrees).*1 (filter (λ vd, 0 < vd.2) degrees).
Proof using Hwf.
  intros degrees.
  assert (∀ v d, (v, d) ∈ degrees → d = length (preds v)) as Hdeg.
  { intros v d (n & [= -> ->] & _)%list_elem_of_fmap. done. }
  assert (∀ v, rem [] v = length (preds v)) as Hrem.
  { intros v. unfold Nx.remaining. rewrite filter_all; [done|]. intros u _. apply not_elem_of_nil. }
  split.
  - simpl. unfold PyDict.keys. rewrite degrees_partition. unfold degrees.
    rewrite <- list_fmap_compose. by rewrite list_fmap_id.
  - intros v d Hv%pd_get_elem_of. apply list_elem_of_filter in Hv as [Hpos Hin].
    simpl in Hpos. split; [done|]. rewrite Hrem. symmetry. by apply Hdeg.
  - intros v ([v' d] & -> & Hin)%list_elem_of_fmap.
    apply list_elem_of_filter in Hin as [Hz Hin]. simpl in *.
    rewrite Hrem. rewrite <- (Hdeg _ _ Hin). done.
  - intros j v Hj. by rewrite lookup_nil in Hj.
Qed.

(** [topological_sort] on a well-formed graph: the list it returns is a
    topological order, and the only exception it raises is
    [NetworkXUnfeasible], on a graph with a cycle. *)
Lemma topological_sort_correct :
  match Nx.topological_sort g with
  | Ok order => Nx.topological_order g order
  | Raise e =>
      e = NetworkXUnfeasible "Graph contains a cycle or graph changed during iteration"
      ∧ Nx.has_cycle g
  end.
Proof using Hwf.
  unfold Nx.topological_sort, Nx.topological_generations.
  rewrite in_degree_preds, bind_Ok. cbv zeta.
  pose proof (generations_loop_correct _ _ _ _ initial_inv
                (or_intror (Nat.lt_succ_diag_r _))) as Hloop.
  destruct (Nx.generations_loop _ _ _ _) as [generations|e];
    [rewrite bind_Ok|rewrite bind_Raise]; done.
Qed.

End kahn.

Section order_facts.
Context {NA : Type}.
Implicit Types (g : Nx.DiGraph NA).

Lemma before_trans (order : list string) u v w :
  NoDup order → Nx.before order u v → Nx.before order v w → Nx.before order u w.
Proof.
  intros Hnd (i & j & Hi & Hj & Hij) (j' & k & Hj' & Hk & Hjk).
  assert (j = j') as <- by by eapply NoDup_lookup.
  exists i, k. split_and!; [done..|lia].
Qed.

Lemma before_irrefl (order : list string) u : NoDup order → ¬ Nx.before order u u.
Proof.
  intros Hnd (i & j & Hi & Hj & Hij).
  assert (i = j) by by eapply NoDup_lookup. lia.
Qed.

(** A graph that has a topological order has no cycle. *)
Lemma topological_order_acyclic g order :
  Nx.wf g → Nx.topological_order g order → ¬ Nx.has_cycle g.
Proof.
  intros Hwf [Hperm Hedges] [w Hw].
  assert (NoDup order) as Hnd by (rewrite Hperm; apply Hwf).
  assert (∀ u v, tc (Nx.edge g) u v → Nx.before order u v) as Htc.
  { induction 1 as [u v Huv|u v x Huv _ IH]; [by apply Hedges|].
    eapply before_trans; [done| |done]. by apply Hedges. }
  by eapply before_irrefl, Htc.
Qed.

Lemma topological_sort_cycle g :
  Nx.wf g → Nx.has_cycle g →
  Nx.topological_sort g
  = Raise (NetworkXUnfeasible "Graph contains a cycle or graph changed during iteration").
Proof.
  intros Hwf Hcyc. pose proof (topological_sort_correct g Hwf) as Hts.
  destruct (Nx.topological_sort g) as [order|e].
  - by destruct (topological_order_acyclic g order Hwf Hts).
  - by destruct Hts as [-> _].
Qed.

Lemma topological_sort_acyclic g :
  Nx.wf g → ¬ Nx.has_cycle g →
  ∃ order, Nx.topological_sort g = Ok order ∧ Nx.topological_order g order.
Proof.
  intros Hwf Hacyc. pose proof (topological_sort_correct g Hwf) as Hts.
  destruct (Nx.topological_sort g) as [order|e].
  - by exists order.
  - by destruct Hts as [_ ?].
Qed.

Lemma topological_order_nodes g order x :
  Nx.topological_order g order → x ∈ order ↔ x ∈ Nx.nodes g.
Proof. intros [Hperm _]. by rewrite Hperm. Qed.

End order_facts.

(** ** The payroll variable graph *)

Section graph_facts.
Import Graph.
Implicit Types (s : PayrollVariableGraph) (o : op).

Lemma graph_wf_init : wf init.
Proof. split; simpl; try done; try apply NoDup_nil_2. apply nx_wf_empty. Qed.

Lemma graph_registry_nodes n s :
  wf s → n ∈ Nx.nodes (graph s) → n ∈ PyDict.keys (_function_registry s).
Proof. intros Hwf. apply (wf_registry_nodes s Hwf). Qed.

(** *** Keyword arguments *)

Lemma bind_keywords_ok callee params keywords :
  Forall (λ k, k ∉ params) keywords → bind_keywords callee params keywords = Ok ().
Proof.
  intros Hall. unfold bind_keywords.
  assert (filter (λ k, k ∈ params) keywords = []) as ->; [|done].
  induction Hall as [|k ks Hk _ IH]; [done|].
  rewrite filter_cons. by rewrite decide_False.
Qed.

Lemma bind_keywords_raise callee params keywords :
  Exists (λ k, k ∈ params) keywords →
  ∃ name, name ∈ keywords ∧ name ∈ params
    ∧ bind_keywords callee params keywords
      = Raise (TypeError (callee +:+ "() got multiple values for argument '"
                          +:+ name +:+ "'")).
Proof.
  intros Hex. unfold bind_keywords.
  destruct (filter (λ k, k ∈ params) keywords) as [|name rest] eqn:E.
  - apply Exists_exists in Hex as (k & Hin & Hk).
    assert (k ∈ filter (λ k, k ∈ params) keywords) as Hf
      by by apply list_elem_of_filter.
    rewrite E in Hf. by apply elem_of_nil in Hf.
  - exists name. split_and!; [| |done].
    + assert (name ∈ filter (λ k, k ∈ params) keywords) as Hf
        by (rewrite E; left).
      by apply list_elem_of_filter in Hf as [_ ?].
    + assert (name ∈ filter (λ k, k ∈ params) keywords) as Hf
        by (rewrite E; left).
      by apply list_elem_of_filter in Hf as [? _].
Qed.

Lemma bind_keywords_cases callee params keywords :
  bind_keywords callee params keywords = Ok ()
  ∨ ∃ msg, bind_keywords callee params keywords = Raise (TypeError msg).
Proof.
  unfold bind_keywords. destruct (filter _ keywords); [by left|right]. by eexists.
Qed.

(** *** The invariant *)

Lemma wf_add_variable n t d dt lr cf dep now s :
  wf s → wf (add_variable n t d dt lr cf dep now s).
Proof.
  intros [] . unfold add_variable. destruct (String.eqb t "input");
    split; simpl; try done; by apply pd_wf_set.
Qed.

Lemma wf_remove_variable n s : wf s → wf (remove_variable n s).1.
Proof.
  intros []. unfold remove_variable.
  destruct (PyDict.mem n (input_variables s)), (PyDict.mem n (intermediate_variables s));
    split; simpl; try done; by apply pd_wf_remove.
Qed.

Lemma wf_update_variable n us s r :
  wf s → update_variable n us s = Ok r → wf r.1.
Proof.
  intros Hwf. unfold update_variable.
  destruct (bind_keywords _ _ _) as [[]|e]; [|done]. rewrite bind_Ok.
  destruct (PyDict.get n (input_variables s)) as [vi|].
  - intros [= <-]. destruct Hwf. split; simpl; try done. by apply pd_wf_set.
  - destruct (PyDict.get n (intermediate_variables s)) as [vi|];
      intros [= <-]; [|done].
    destruct Hwf. split; simpl; try done. by apply pd_wf_set.
Qed.

(** [add_calculation_node] on a well-formed object. *)
Lemma add_calculation_node_spec n f d ov iv lr now s :
  wf s →
  let s1 := with_function_registry (PyDict.set n f (_function_registry s)) s in
  add_calculation_node n f d ov iv lr now s
  = match make_node_attrs f d ov iv lr now with
    | Raise e => (s1, Some e)
    | Ok attrs =>
        (with_graph
           (if decide (n ∈ Nx.nodes (graph s))
            then {| Nx._node := PyDict.set n (Some attrs) (Nx._node (graph s));
                    Nx._succ := Nx._succ (graph s);
                    Nx._pred := Nx._pred (graph s) |}
            else {| Nx._node := PyDict.set n (Some attrs) (Nx._node (graph s));
                    Nx._succ := PyDict.set n [] (Nx._succ (graph s));
                    Nx._pred := PyDict.set n [] (Nx._pred (graph s)) |})
           s1, None)
    end.
Proof.
  intros Hwf s1. pose proof (wf_graph s Hwf) as Hg. unfold add_calculation_node.
  fold s1. destruct (make_node_attrs f d ov iv lr now) as [attrs|e]; [|done].
  rewrite bind_Ok. change (graph s1) with (graph s).
  destruct (decide (n ∈ Nx.nodes (graph s))) as [Hn|Hn].
  - by rewrite nx_add_node_old.
  - by rewrite nx_add_node_new.
Qed.

Lemma wf_with_function_registry n f s :
  wf s → wf (with_function_registry (PyDict.set n f (_function_registry s)) s).
Proof.
  intros Hwf. split; simpl; try apply Hwf.
  - apply pd_wf_set, Hwf.
  - intros k Hk. apply pd_keys_set_elem. right. by apply graph_registry_nodes.
Qed.

Lemma wf_add_calculation_node n f d ov iv lr now s :
  wf s → wf (add_calculation_node n f d ov iv lr now s).1.
Proof.
  intros Hwf. pose proof (wf_graph s Hwf) as Hg.
  rewrite add_calculation_node_spec by done.
  pose proof (wf_with_function_registry n f s Hwf) as Hwf1.
  destruct (make_node_attrs f d ov iv lr now) as [attrs|e]; [|done].
  cbn [fst]. destruct (decide (n ∈ Nx.nodes (graph s))) as [Hn|Hn].
  - split; simpl; try apply Hwf1.
    + by apply nx_wf_set_node.
    + intros k a. destruct (decide (n = k)) as [->|Hne].
      * rewrite pd_get_set_eq. by intros [= <-].
      * rewrite pd_get_set_ne by done. apply Hwf.
    + intros k Hk. apply pd_keys_set_elem. unfold Nx.nodes in Hk. simpl in Hk.
      apply pd_keys_set_elem in Hk as [->|Hk]; [by left|right].
      by apply graph_registry_nodes.
  - split; simpl; try apply Hwf1.
    + by apply nx_wf_new_node.
    + intros k a. destruct (decide (n = k)) as [->|Hne].
      * rewrite pd_get_set_eq. by intros [= <-].
      * rewrite pd_get_set_ne by done. apply Hwf.
    + intros k Hk. apply pd_keys_set_elem. unfold Nx.nodes in Hk. simpl in Hk.
      apply pd_keys_set_elem in Hk as [->|Hk]; [by left|right].
      by apply graph_registry_nodes.
Qed.

Lemma connect_calculations_ok u v vp attrs now s :
  wf s → u ∈ Nx.nodes (graph s) → v ∈ Nx.nodes (graph s) →
  ∃ succ_u pred_v,
    PyDict.get u (Nx._succ (graph s)) = Some succ_u
    ∧ PyDict.get v (Nx._pred (graph s)) = Some pred_v
    ∧ let datadict :=
        PyDict.update (make_edge_attrs vp now attrs)
          (default [] (PyDict.get v succ_u)) in
      connect_calculations u v vp attrs now s
      = Ok (with_graph
              {| Nx._node := Nx._node (graph s);
                 Nx._succ := PyDict.set u (PyDict.set v datadict succ_u)
                               (Nx._succ (graph s));
                 Nx._pred := PyDict.set v (PyDict.set u datadict pred_v)
                               (Nx._pred (graph s)) |} s).
Proof.
  intros Hwf Hu Hv. pose proof (wf_graph s Hwf) as Hg.
  destruct (nx_add_edge_old None u v (make_edge_attrs vp now attrs) (graph s) Hg Hu Hv)
    as (succ_u & pred_v & Hsu & Hpv & Hadd).
  exists succ_u, pred_v. split_and!; [done..|]. intros datadict.
  unfold connect_calculations.
  apply nx_contains_nodes in Hu as ->. apply nx_contains_nodes in Hv as ->. simpl.
  by rewrite Hadd.
Qed.

Lemma connect_calculations_raise u v vp attrs now s :
  ¬ (u ∈ Nx.nodes (graph s) ∧ v ∈ Nx.nodes (graph s)) →
  connect_calculations u v vp attrs now s = Raise NodesMustExist.
Proof.
  intros Hnot. unfold connect_calculations.
  destruct (Nx.contains u (graph s)) eqn:Eu, (Nx.contains v (graph s)) eqn:Ev; try done.
  exfalso. apply Hnot. by rewrite <- !nx_contains_nodes.
Qed.

Lemma wf_connect_calculations u v vp attrs now s s' :
  wf s → connect_calculations u v vp attrs now s = Ok s' → wf s'.
Proof.
  intros Hwf Hc.
  destruct (decide (u ∈ Nx.nodes (graph s) ∧ v ∈ Nx.nodes (graph s))) as [[Hu Hv]|Hnot].
  - destruct (connect_calculations_ok u v vp attrs now s Hwf Hu Hv)
      as (succ_u & pred_v & Hsu & Hpv & Heq).
    simpl in Heq. rewrite Heq in Hc. injection Hc as <-.
    split; simpl; try apply Hwf. apply nx_wf_set_edge; [apply Hwf|done..].
  - by rewrite connect_calculations_raise in Hc.
Qed.

Lemma remove_calculation_node_absent n s :
  n ∉ Nx.nodes (graph s) → remove_calculation_node n s = Ok (s, false).
Proof.
  intros Hn. unfold remove_calculation_node.
  destruct (Nx.contains n (graph s)) eqn:E; [|done].
  by apply nx_contains_nodes in E.
Qed.

Lemma remove_calculation_node_present n s :
  wf s → n ∈ Nx.nodes (graph s) →
  ∃ g',
    Nx.remove_node n (graph s) = Ok g'
    ∧ remove_calculation_node n s
      = Ok ({| graph := g';
               _function_registry := PyDict.remove n (_function_registry s);
               input_variables := input_variables s;
               intermediate_variables := intermediate_variables s;
               _impact_source := _impact_source s |}, true).
Proof.
  intros Hwf Hn.
  destruct (nx_remove_node_ok n (graph s) (wf_graph s Hwf) Hn) as (g' & Hrm & _).
  exists g'. split; [done|]. unfold remove_calculation_node.
  apply nx_contains_nodes in Hn as Hc. rewrite Hc, Hrm. simpl.
  assert (PyDict.mem n (_function_registry s) = true) as ->; [|done].
  apply pd_mem_true. by apply graph_registry_nodes.
Qed.

Lemma wf_remove_calculation_node n s r :
  wf s → remove_calculation_node n s = Ok r → wf r.1.
Proof.
  intros Hwf Hr. destruct (decide (n ∈ Nx.nodes (graph s))) as [Hn|Hn].
  - destruct (remove_calculation_node_present n s Hwf Hn) as (g' & Hrm & Heq).
    rewrite Heq in Hr. injection Hr as <-. simpl.
    destruct (nx_remove_node_ok n (graph s) (wf_graph s Hwf) Hn)
      as (g0 & Hrm0 & Hnode & _).
    rewrite Hrm in Hrm0. injection Hrm0 as <-.
    split; simpl; try apply Hwf.
    + by eapply nx_remove_node_wf; [apply Hwf|..].
    + intros k a. rewrite Hnode. destruct (decide (n = k)) as [->|Hne].
      * by rewrite pd_get_remove_eq.
      * rewrite pd_get_remove_ne by done. apply Hwf.
    + apply pd_wf_remove, Hwf.
    + intros k. unfold Nx.nodes. rewrite Hnode, !pd_keys_remove_elem.
      intros [Hne Hk]. split; [done|]. by apply graph_registry_nodes.
  - rewrite remove_calculation_node_absent in Hr by done. by injection Hr as <-.
Qed.

Lemma apply_node_updates_Some a us : is_Some (foldl apply_node_update (Some a) us).
Proof.
  revert a. induction us as [|u us IH]; intros a; simpl; [by eexists|].
  destruct a. destruct u; apply IH.
Qed.

Lemma wf_update_calculation_node n us s r :
  wf s → update_calculation_node n us s = Ok r → wf r.1.
Proof.
  intros Hwf. unfold update_calculation_node.
  destruct (bind_keywords _ _ _) as [[]|e]; [|done]. rewrite bind_Ok.
  destruct (PyDict.get n (Nx._node (graph s))) as [attrs|] eqn:E;
    intros [= <-]; [|done].
  assert (n ∈ Nx.nodes (graph s)) as Hn by by eapply pd_get_Some_keys.
  split; simpl; try apply Hwf.
  - apply nx_wf_set_node; [apply Hwf|done].
  - intros k a. destruct (decide (n = k)) as [->|Hne].
    + rewrite pd_get_set_eq. intros [= <-].
      destruct (wf_attrs s Hwf k attrs E) as [a0 ->]. apply apply_node_updates_Some.
    + rewrite pd_get_set_ne by done. apply Hwf.
  - intros k Hk. unfold Nx.nodes in Hk. simpl in Hk.
    rewrite pd_keys_set_old in Hk by done. by apply graph_registry_nodes.
Qed.

Lemma wf_remove_connection u v s r :
  wf s → remove_connection u v s = Ok r → wf r.1.
Proof.
  intros Hwf. unfold remove_connection.
  destruct (Nx.has_edge u v (graph s)) eqn:E; [|by intros [= <-]].
  destruct (nx_remove_edge_ok u v (graph s) (wf_graph s Hwf) E)
    as (succ_u & pred_v & Hsu & Hpv & ->).
  simpl. intros [= <-]. split; simpl; try apply Hwf.
  apply nx_wf_del_edge; [apply Hwf|done..].
Qed.

Lemma wf_or_unchanged s r :
  wf s → (∀ s', r = Ok s' → wf s') → wf (or_unchanged s r).1.
Proof. intros Hwf Hr. destruct r as [s'|e]; simpl; [by apply Hr|done]. Qed.

Lemma wf_step o s : wf s → wf (step o s).1.
Proof.
  intros Hwf. destruct o; simpl.
  - destruct Hwf. by split.
  - by apply wf_add_variable.
  - by apply wf_add_calculation_node.
  - apply wf_or_unchanged; [done|]. intros s'. by apply wf_connect_calculations.
  - by apply wf_remove_variable.
  - apply wf_or_unchanged; [done|]. intros s'.
    destruct (update_variable var_name updates s) as [r|] eqn:E; simpl; [|done].
    intros [= <-]. by eapply wf_update_variable.
  - apply wf_or_unchanged; [done|]. intros s'.
    destruct (remove_calculation_node node_id s) as [r|] eqn:E; simpl; [|done].
    intros [= <-]. by eapply wf_remove_calculation_node.
  - apply wf_or_unchanged; [done|]. intros s'.
    destruct (update_calculation_node node_id updates s) as [r|] eqn:E; simpl; [|done].
    intros [= <-]. by eapply wf_update_calculation_node.
  - apply wf_or_unchanged; [done|]. intros s'.
    destruct (remove_connection from_node to_node s) as [r|] eqn:E; simpl; [|done].
    intros [= <-]. by eapply wf_remove_connection.
  - apply graph_wf_init.
Qed.

(** On a well-formed object the calls that raise are
    [connect_calculations] with an endpoint that is no node, an update with
    a keyword that names a parameter, and [add_calculation_node] with a
    function that has no name or no signature; the last one alone has
    changed the object by then. *)
Lemma step_raises o s e :
  wf s → (step o s).2 = Some e →
  (e = NodesMustExist
   ∧ (step o s).1 = s
   ∧ ∃ u v vp attrs now,
       o = ConnectCalculations u v vp attrs now
       ∧ ¬ (u ∈ Nx.nodes (graph s) ∧ v ∈ Nx.nodes (graph s)))
  ∨ ((∃ msg, e = TypeError msg)
     ∧ (step o s).1 = s
     ∧ ((∃ n us, o = UpdateVariable n us) ∨ (∃ n us, o = UpdateCalculationNode n us)))
  ∨ (∃ n f d ov iv lr now,
       o = AddCalculationNode n f d ov iv lr now
       ∧ make_node_attrs f d ov iv lr now = Raise e
       ∧ (step o s).1
         = with_function_registry (PyDict.set n f (_function_registry s)) s).
Proof.
  intros Hwf. destruct o; simpl; try done.
  - rewrite add_calculation_node_spec by done.
    destruct (make_node_attrs _ _ _ _ _ _) as [attrs|e0] eqn:E; simpl; [done|].
    intros [= <-]. right. right.
    by exists node_id, function, description, output_variable, input_variables_arg,
      legal_reference, now.
  - destruct (decide (from_node ∈ Nx.nodes (graph s) ∧ to_node ∈ Nx.nodes (graph s)))
      as [[Hu Hv]|Hnot].
    + destruct (connect_calculations_ok from_node to_node variable_passed attrs now
                  s Hwf Hu Hv) as (? & ? & _ & _ & Heq).
      simpl in Heq. by rewrite Heq.
    + rewrite connect_calculations_raise by done. simpl. intros [= <-].
      left. split_and!; [done..|].
      by exists from_node, to_node, variable_passed, attrs, now.
  - unfold update_variable.
    destruct (bind_keywords_cases "PayrollVariableGraph.update_variable"
                ["self"; "var_name"] (update_key <$> updates)) as [->|[msg ->]].
    + rewrite bind_Ok.
      by destruct (PyDict.get var_name (input_variables s)),
           (PyDict.get var_name (intermediate_variables s)).
    + simpl. intros [= <-]. right. left. split_and!; [by eexists|done|].
      left. by eexists _, _.
  - destruct (decide (node_id ∈ Nx.nodes (graph s))) as [Hn|Hn].
    + by destruct (remove_calculation_node_present node_id s Hwf Hn) as (? & _ & ->).
    + by rewrite remove_calculation_node_absent.
  - unfold update_calculation_node.
    destruct (bind_keywords_cases "PayrollVariableGraph.update_calculation_node"
                ["self"; "node_id"] (node_update_key <$> updates)) as [->|[msg ->]].
    + rewrite bind_Ok. by destruct (PyDict.get node_id (Nx._node (graph s))).
    + simpl. intros [= <-]. right. left. split_and!; [by eexists|done|].
      right. by eexists _, _.
  - unfold remove_connection.
    destruct (Nx.has_edge from_node to_node (graph s)) eqn:E; [|done].
    by destruct (nx_remove_edge_ok from_node to_node (graph s) (wf_graph s Hwf) E)
      as (? & ? & _ & _ & ->).
Qed.

(** Every object the calls build is well-formed. *)
Lemma wf_run ops s : wf s → wf (run ops s).
Proof.
  unfold run. revert s. induction ops as [|o ops IH]; intros s Hwf; simpl; [done|].
  apply IH. by apply wf_step.
Qed.

Lemma wf_reachable ops : wf (run ops init).
Proof. apply wf_run, graph_wf_init. Qed.

End graph_facts.

(** *** Executing a calculation *)

(** C1, as the code has it.  The call
    [execute_calculation(node_id, **variable_values)] raises [TypeError]
    when one of the names of the values is [self] or [node_id], the two
    parameters the call has bound already.  With no such name, it raises
    the unknown-node error when the registry has no function under the
    identifier, and [KeyError] when it has one and the graph has no such
    node; for a node of the graph it raises the missing-arguments error
    with exactly the declared input variables that are no key of the
    supplied values, in declaration order, when there is one; and
    otherwise it returns what the function returns or raises on the
    supplied values restricted to its parameter names, or raises what
    [inspect.signature] raises on the function. *)
Theorem execute_calculation_spec (s : Graph.PayrollVariableGraph) (node_id : string)
    (variable_values : PyDict.t string pyval) :
  let r := Graph.execute_calculation node_id variable_values s in
  (Exists (λ name, name ∈ ["self"; "node_id"]) (PyDict.keys variable_values) →
   ∃ msg, r = Raise (TypeError msg))
  ∧ (Forall (λ name, name ∉ ["self"; "node_id"]) (PyDict.keys variable_values) →
     match PyDict.get node_id (Graph._function_registry s) with
     | None => r = Raise (UnknownNode node_id)
     | Some func =>
         match PyDict.get node_id (Nx._node (Graph.graph s)) with
         | None => r = Raise (KeyError node_id)
         | Some node_info =>
             let required_vars :=
               from_option Graph.na_input_variables [] node_info in
             let missing_vars :=
               filter (λ var, var ∉ PyDict.keys variable_values) required_vars in
             let filtered_args :=
               filter (λ kv, kv.1 ∈ Graph.f_parameters func) variable_values in
             (∀ var, var ∈ missing_vars
                     ↔ var ∈ required_vars ∧ var ∉ PyDict.keys variable_values)
             ∧ (∀ k, k ∈ PyDict.keys filtered_args
                     ↔ k ∈ PyDict.keys variable_values
                       ∧ k ∈ Graph.f_parameters func)
             ∧ r = match missing_vars with
                   | _ :: _ => Raise (MissingArguments node_id missing_vars)
                   | [] =>
                       match Graph.f_signature func with
                       | Raise e => Raise e
                       | Ok _ => Graph.f_call func filtered_args
                       end
                   end
         end
     end).
Proof.
  intros r. split.
  - intros Hex.
    destruct (bind_keywords_raise "PayrollVariableGraph.execute_calculation"
                ["self"; "node_id"] _ Hex) as (name & _ & _ & Hraise).
    unfold r, Graph.execute_calculation. rewrite Hraise. by eexists.
  - intros Hall. unfold r, Graph.execute_calculation.
    rewrite bind_keywords_ok by done. rewrite bind_Ok.
    destruct (PyDict.get node_id (Graph._function_registry s)) as [func|] eqn:Hreg.
    + assert (PyDict.mem node_id (Graph._function_registry s) = true) as ->.
      { apply pd_mem_true. by eapply pd_get_Some_keys. }
      unfold PyDict.getitem. rewrite Hreg.
      destruct (PyDict.get node_id (Nx._node (Graph.graph s))) as [node_info|];
        [|done].
      cbv zeta.
      set (required_vars := from_option Graph.na_input_variables [] node_info).
      set (missing_vars :=
             filter (λ var, var ∉ PyDict.keys variable_values) required_vars).
      set (filtered_args :=
             filter (λ kv, kv.1 ∈ Graph.f_parameters func) variable_values).
      split_and!.
      * intros var. unfold missing_vars. rewrite list_elem_of_filter. tauto.
      * intros k. unfold filtered_args, PyDict.keys. rewrite !list_elem_of_fmap. split.
        -- intros ([k' v] & -> & [Hp Hin]%list_elem_of_filter). split; [|done].
           by exists (k', v).
        -- intros (([k' v] & -> & Hin) & Hp). exists (k', v). split; [done|].
           by apply list_elem_of_filter.
      * cbn [negb mbind result_bind]. fold required_vars.
        assert (filter (λ var, PyDict.mem var variable_values = false) required_vars
                = missing_vars) as ->.
        { apply list_filter_iff. intros var. apply pd_mem_false. }
        destruct missing_vars; [|done]. simpl.
        by destruct (Graph.f_signature func).
    + unfold PyDict.mem. by rewrite Hreg.
Qed.

Lemma execute_calculation_spec_witness :
  Graph.execute_calculation "n1" [("x", PInt 1); ("y", PInt 2)] two_nodes
  = Ok (PInt 2).
Proof.
  exact (proj2 (proj2
           (proj2 (execute_calculation_spec two_nodes "n1"
                     [("x", PInt 1); ("y", PInt 2)])
              ltac:(apply (bool_decide_unpack _); vm_compute; reflexivity)))).
Defined.

(** C1 as stated fails for two kinds of call.  A value under the name
    [node_id] makes the call itself raise [TypeError], before the node is
    looked up.  And after a call of [add_calculation_node] that raised on
    its function, here one without a [__name__], the function is
    registered under an identifier that is no node of the graph:
    [execute_calculation] then raises [KeyError], not the unknown-node
    error. *)
Lemma execute_calculation_counterexample :
  Graph.execute_calculation "n1" [("x", PInt 1); ("node_id", PStr "n2")] two_nodes
  = Raise (TypeError "PayrollVariableGraph.execute_calculation() got multiple values for argument 'node_id'")
  ∧ Nx.nodes (Graph.graph failed_add) = []
  ∧ PyDict.keys (Graph._function_registry failed_add) = ["n1"]
  ∧ Graph.execute_calculation "n1" [("x", PInt 1)] failed_add = Raise (KeyError "n1").
Proof. split_and!; reflexivity. Qed.

Example execute_ignores_extra_values :
  Graph.execute_calculation "n1" [("x", PInt 1); ("y", PInt 2)] two_nodes
  = Ok (PInt 2).
Proof. reflexivity. Qed.

Example execute_reports_missing_values :
  Graph.execute_calculation "n2" [("x", PInt 1)] two_nodes
  = Raise (MissingArguments "n2" ["z"]).
Proof. reflexivity. Qed.

Example execute_unknown_node :
  Graph.execute_calculation "n3" [("x", PInt 1)] two_nodes
  = Raise (UnknownNode "n3").
Proof. reflexivity. Qed.

(** *** The variable registries *)

Section registry_facts.
Import Graph.
Implicit Types (s : PayrollVariableGraph).

Lemma entries_named_registries var_type name s :
  entries_named name s
  ≡ₚ (filter (λ kv, kv.1 = name) (registry_of var_type s)).*2
     ++ (filter (λ kv, kv.1 = name) (other_registry_of var_type s)).*2.
Proof.
  unfold entries_named, registry_of, other_registry_of.
  destruct (String.eqb var_type "input"); [done|]. apply Permutation_app_comm.
Qed.

Lemma add_variable_registry n t d dt lr cf dep now s :
  registry_of t (add_variable n t d dt lr cf dep now s)
  = PyDict.set n (make_variable_info n t d dt lr cf dep now) (registry_of t s)
  ∧ other_registry_of t (add_variable n t d dt lr cf dep now s)
    = other_registry_of t s.
Proof.
  unfold registry_of, other_registry_of, add_variable.
  by destruct (String.eqb t "input").
Qed.

End registry_facts.

(** C4, as the code has it.  [add_variable] never fails; it writes the
    entry into the dictionary its [var_type] selects and leaves the other
    dictionary alone.  The selected dictionary then holds exactly one entry
    under the name, the new one, at the place of the entry it had, if it
    had one.  The registry as a whole holds exactly one entry under the
    name when the other dictionary has none, and two when it has one. *)
Theorem add_variable_upsert (ops : list Graph.op)
    (var_name var_type description data_type : string)
    (legal_reference calculation_formula : option string)
    (depends_on : option (list string)) (now : time) :
  let s := Graph.run ops Graph.init in
  let info :=
    Graph.make_variable_info var_name var_type description data_type
      legal_reference calculation_formula depends_on now in
  let s' :=
    Graph.add_variable var_name var_type description data_type
      legal_reference calculation_formula depends_on now s in
  Graph.registry_of var_type s' = PyDict.set var_name info (Graph.registry_of var_type s)
  ∧ Graph.other_registry_of var_type s' = Graph.other_registry_of var_type s
  ∧ filter (λ kv, kv.1 = var_name) (Graph.registry_of var_type s') = [(var_name, info)]
  ∧ (var_name ∈ PyDict.keys (Graph.registry_of var_type s) →
     PyDict.keys (Graph.registry_of var_type s')
     = PyDict.keys (Graph.registry_of var_type s))
  ∧ (var_name ∉ PyDict.keys (Graph.other_registry_of var_type s) →
     Graph.entries_named var_name s' = [info])
  ∧ (∀ info0,
       PyDict.get var_name (Graph.other_registry_of var_type s) = Some info0 →
       Graph.entries_named var_name s' ≡ₚ [info; info0]).
Proof.
  intros s info s'. pose proof (wf_reachable ops) as Hwf. fold s in Hwf.
  destruct (add_variable_registry var_name var_type description data_type
              legal_reference calculation_formula depends_on now s) as [Hreg Hother].
  fold info s' in Hreg, Hother.
  assert (PyDict.wf (Graph.registry_of var_type s)
          ∧ PyDict.wf (Graph.other_registry_of var_type s)) as [Hwf1 Hwf2].
  { unfold Graph.registry_of, Graph.other_registry_of.
    destruct (String.eqb var_type "input"); split; apply Hwf. }
  assert (filter (λ kv, kv.1 = var_name) (Graph.registry_of var_type s')
          = [(var_name, info)]) as Hone.
  { rewrite Hreg. by apply pd_entries_set. }
  split_and!; [done..| | |].
  - intros Hin. rewrite Hreg. by apply pd_keys_set_old.
  - intros Hnot.
    assert (Graph.entries_named var_name s' ≡ₚ [info]) as Hperm.
    { rewrite (entries_named_registries var_type), Hone, Hother.
      by rewrite (pd_entries_absent var_name _ Hnot). }
    by apply Permutation_singleton_r in Hperm.
  - intros info0 Hget.
    rewrite (entries_named_registries var_type), Hone, Hother.
    by rewrite (pd_entries_get var_name info0 _ Hwf2 Hget).
Qed.

(** C4 as stated fails when the name is there under the other kind: the
    registry then holds two entries under the name, and the earlier one
    keeps its attributes. *)
Lemma add_variable_upsert_counterexample :
  let s :=
    Graph.run [Graph.AddVariable "x" "input" "first" "float" None None None 0%Z]
      Graph.init in
  PyDict.keys (Graph.input_variables s) = ["x"]
  ∧ Graph.entries_named "x"
      (Graph.add_variable "x" "intermediate" "second" "int" None None None 1%Z s)
    = [Graph.make_variable_info "x" "input" "first" "float" None None None 0%Z;
       Graph.make_variable_info "x" "intermediate" "second" "int" None None None 1%Z].
Proof. split; reflexivity. Qed.


(** *** Connecting two nodes *)

Section connect_facts.
Context {NA : Type}.
Implicit Types (g : Nx.DiGraph NA) (adj : Nx.adjacency).


End connect_facts.


(** *** Removing a node *)

(** C6.  Removing a node of the graph returns [True] and leaves the graph
    without the node and without any edge from it or to it, all other nodes
    and edges as they were, and the function registry without its entry; a
    topological sort of the graph that is left lists no such node and
    reads no such edge.  Removing what is no node returns [False] and
    leaves the object as it was. *)
Theorem remove_node_cascade (ops : list Graph.op) (n : string) :
  let s := Graph.run ops Graph.init in
  (n ∈ Nx.nodes (Graph.graph s) →
   ∃ s',
     Graph.remove_calculation_node n s = Ok (s', true)
     ∧ Nx.nodes (Graph.graph s') = filter (λ k, k ≠ n) (Nx.nodes (Graph.graph s))
     ∧ (∀ u v, Nx.edge (Graph.graph s') u v
               ↔ Nx.edge (Graph.graph s) u v ∧ u ≠ n ∧ v ≠ n)
     ∧ Forall (λ e, e.1 ≠ n ∧ e.2 ≠ n) (Nx.edges (Graph.graph s'))
     ∧ (∀ a b, a = n ∨ b = n →
               Nx.lookup2 (Nx._succ (Graph.graph s')) a b = None
               ∧ Nx.lookup2 (Nx._pred (Graph.graph s')) a b = None)
     ∧ PyDict.get n (Graph._function_registry s') = None
     ∧ Graph.input_variables s' = Graph.input_variables s
     ∧ Graph.intermediate_variables s' = Graph.intermediate_variables s
     ∧ (∀ order, Nx.topological_sort (Graph.graph s') = Ok order →
                 (n ∉ order) ∧ Nx.topological_order (Graph.graph s') order))
  ∧ (n ∉ Nx.nodes (Graph.graph s) →
     Graph.remove_calculation_node n s = Ok (s, false)).
Proof.
  intros s. pose proof (wf_reachable ops) as Hwf. fold s in Hwf.
  split; [|apply remove_calculation_node_absent]. intros Hn.
  destruct (remove_calculation_node_present n s Hwf Hn) as (g' & Hrm & Heq).
  destruct (nx_remove_node_ok n (Graph.graph s) (Graph.wf_graph s Hwf) Hn)
    as (g0 & Hrm0 & Hnode & Hks & Hkp & Hgs & Hgp).
  rewrite Hrm in Hrm0. injection Hrm0 as <-.
  pose proof (wf_remove_calculation_node n s _ Hwf Heq) as Hwf'. simpl in Hwf'.
  pose proof (nx_lookup2_removed _ _ n Hgs) as Hls.
  pose proof (nx_lookup2_removed _ _ n Hgp) as Hlp.
  assert (∀ u v, Nx.edge g' u v ↔ Nx.edge (Graph.graph s) u v ∧ u ≠ n ∧ v ≠ n) as Hedges.
  { intros u v. rewrite !nx_edge_lookup2, Hls.
    destruct (decide (u = n ∨ v = n)) as [Huv|Huv].
    - split; [by intros [? ?]|]. intros (_ & ? & ?). tauto.
    - split; [|tauto]. intros ?. split; [done|]. split; intros ->; tauto. }
  eexists. split; [exact Heq|]. simpl. split_and!; try done.
  - unfold Nx.nodes. by rewrite Hnode, pd_keys_remove.
  - apply Forall_forall. intros [u v] Hin. simpl.
    apply (nx_elem_of_edges u v g' (Graph.wf_graph _ Hwf')) in Hin.
    apply Hedges in Hin. tauto.
  - intros a b Hab. rewrite Hls, Hlp. rewrite !decide_True by tauto. done.
  - apply pd_get_remove_eq.
  - intros order Hsort.
    pose proof (topological_sort_correct g' (Graph.wf_graph _ Hwf')) as Hts.
    rewrite Hsort in Hts. split; [|done].
    rewrite (topological_order_nodes g' order n Hts).
    unfold Nx.nodes. rewrite Hnode, pd_keys_remove_elem. tauto.
Qed.

(** *** The dependency analysis *)

Section analysis_facts.
Import Graph.
Implicit Types (s : PayrollVariableGraph).

Lemma nodes_of_degree_zero_ok (g : Nx.DiGraph attr_dict)
    (degree : string → result nat) (h : string → nat) :
  (∀ n, n ∈ Nx.nodes g → degree n = Ok (h n)) →
  ∃ zero, nodes_of_degree_zero degree g = Ok zero.
Proof.
  intros Hdeg. unfold nodes_of_degree_zero.
  rewrite (mapM_Ok _ (λ n, (n, h n))).
  - eexists. done.
  - intros n Hn. by rewrite Hdeg.
Qed.

Lemma in_degree_of_ok (g : Nx.DiGraph attr_dict) n :
  Nx.wf g → n ∈ Nx.nodes g → Nx.in_degree_of n g = Ok (length (Nx.preds g n)).
Proof.
  intros Hwf Hn. unfold Nx.in_degree_of, PyDict.getitem, Nx.preds.
  destruct (nx_pred_is_Some n g Hwf Hn) as [ps ->]. simpl.
  unfold PyDict.len, PyDict.keys. by rewrite length_fmap.
Qed.

Lemma out_degree_of_ok (g : Nx.DiGraph attr_dict) n :
  Nx.wf g → n ∈ Nx.nodes g → Nx.out_degree_of n g = Ok (length (Nx.succs g n)).
Proof.
  intros Hwf Hn. unfold Nx.out_degree_of, PyDict.getitem, Nx.succs.
  destruct (nx_succ_is_Some n g Hwf Hn) as [ns ->]. simpl.
  unfold PyDict.len, PyDict.keys. by rewrite length_fmap.
Qed.

Lemma has_cycle_node (g : Nx.DiGraph attr_dict) :
  Nx.wf g → Nx.has_cycle g → Nx.nodes g ≠ [].
Proof.
  intros Hwf [w Hw] Hnil.
  assert (w ∈ Nx.nodes g) as Hin.
  { inversion Hw as [? ? He|? y ? He _]; subst;
      by destruct (nx_edge_nodes _ _ g Hwf He). }
  rewrite Hnil in Hin. by apply elem_of_nil in Hin.
Qed.

End analysis_facts.

(** C3, as the code has it.  On every object the calls build:
    - when the graph has a cycle, [nx.topological_sort] raises
      [NetworkXUnfeasible]; the handler of the analysis,
      [except nx.NetworkXError], does not cover that class, so the
      exception leaves [to_llm_readable_text] and no analysis error is
      reported: the tool around the method returns its own error message
      in place of the text, whereas the bare [except] of
      [_generate_flowchart] falls back to the order of the nodes;
    - when the graph has no cycle, the sort returns a topological order of
      the nodes, and the analysis reports it. *)
Theorem dependency_analysis_outcome (ops : list Graph.op) :
  let s := Graph.run ops Graph.init in
  let unfeasible :=
    NetworkXUnfeasible "Graph contains a cycle or graph changed during iteration" in
  (Nx.has_cycle (Graph.graph s) →
   Nx.topological_sort (Graph.graph s) = Raise unfeasible
   ∧ isinstance_NetworkXError unfeasible = false
   ∧ Graph.to_llm_readable_text_4D s = Raise unfeasible
   ∧ Graph.get_llm_readable_representation s
     = inr ("Erreur lors de la génération de la représentation: "
            +:+ "Graph contains a cycle or graph changed during iteration")
   ∧ Graph.flowchart_levels s
     = foldl (λ levels ni, PyDict.set ni.2 ni.1 levels) []
         (imap (λ i n, (i, n)) (Nx.nodes (Graph.graph s))))
  ∧ (¬ Nx.has_cycle (Graph.graph s) →
     ∃ order,
       Nx.topological_sort (Graph.graph s) = Ok order
       ∧ Nx.topological_order (Graph.graph s) order
       ∧ (Nx.nodes (Graph.graph s) ≠ [] →
          ∃ entry_points exit_points,
            Graph.to_llm_readable_text_4D s
            = Ok (Some (Graph.Analysis order entry_points exit_points)))).
Proof.
  intros s unfeasible. pose proof (wf_reachable ops) as Hwf. fold s in Hwf.
  pose proof (Graph.wf_graph s Hwf) as Hg. split.
  - intros Hcyc. pose proof (topological_sort_cycle _ Hg Hcyc) as Hsort.
    assert (Graph.to_llm_readable_text_4D s = Raise unfeasible) as Htext.
    { unfold Graph.to_llm_readable_text_4D, Graph.analyse_dependencies.
      pose proof (has_cycle_node _ Hg Hcyc).
      destruct (Nx.nodes (Graph.graph s)); [done|]. by rewrite Hsort. }
    split_and!; [done..| |].
    + unfold Graph.get_llm_readable_representation. by rewrite Htext.
    + unfold Graph.flowchart_levels. by rewrite Hsort.
  - intros Hacyc.
    destruct (topological_sort_acyclic _ Hg Hacyc) as (order & Hsort & Hord).
    exists order. split_and!; [done..|]. intros Hne.
    destruct (nodes_of_degree_zero_ok (Graph.graph s)
                (λ n, Nx.in_degree_of n (Graph.graph s))
                (λ n, length (Nx.preds (Graph.graph s) n))) as [entry Hentry].
    { intros n Hn. by apply in_degree_of_ok. }
    destruct (nodes_of_degree_zero_ok (Graph.graph s)
                (λ n, Nx.out_degree_of n (Graph.graph s))
                (λ n, length (Nx.succs (Graph.graph s) n))) as [exit Hexit].
    { intros n Hn. by apply out_degree_of_ok. }
    exists entry, exit.
    unfold Graph.to_llm_readable_text_4D, Graph.analyse_dependencies.
    destruct (Nx.nodes (Graph.graph s)) eqn:Hnodes; [done|].
    rewrite Hsort, bind_Ok, Hentry, bind_Ok, Hexit. done.
Qed.

(** ** The graph theorems on small graphs *)


Lemma three_cycle_has_cycle : Nx.has_cycle (Graph.graph three_cycle).
Proof.
  exists "A". eapply (tc_l _ "A" "B"); [reflexivity|].
  eapply (tc_l _ "B" "C"); [reflexivity|]. apply tc_once. reflexivity.
Defined.

Lemma three_cycle_unhandled :
  let unfeasible :=
    NetworkXUnfeasible "Graph contains a cycle or graph changed during iteration" in
  Nx.topological_sort (Graph.graph three_cycle) = Raise unfeasible
  ∧ isinstance_NetworkXError unfeasible = false
  ∧ Graph.to_llm_readable_text_4D three_cycle = Raise unfeasible
  ∧ Graph.get_llm_readable_representation three_cycle
    = inr ("Erreur lors de la génération de la représentation: "
           +:+ "Graph contains a cycle or graph changed during iteration")
  ∧ Graph.flowchart_levels three_cycle
    = foldl (λ levels ni, PyDict.set ni.2 ni.1 levels) []
        (imap (λ i n, (i, n)) (Nx.nodes (Graph.graph three_cycle))).
Proof.
  exact (proj1 (dependency_analysis_outcome three_cycle_calls) three_cycle_has_cycle).
Defined.


Example chain_order :
  Graph.to_llm_readable_text_4D chain
  = Ok (Some (Graph.Analysis ["A"; "B"; "C"] ["A"] ["C"])).
Proof. reflexivity. Qed.


Lemma remove_node_cascade_witness :
  ∃ s',
    Graph.remove_calculation_node "B" chain = Ok (s', true)
    ∧ Nx.nodes (Graph.graph s') = filter (λ k, k ≠ "B") (Nx.nodes (Graph.graph chain))
    ∧ (∀ u v, Nx.edge (Graph.graph s') u v
              ↔ Nx.edge (Graph.graph chain) u v ∧ u ≠ "B" ∧ v ≠ "B")
    ∧ Forall (λ e, e.1 ≠ "B" ∧ e.2 ≠ "B") (Nx.edges (Graph.graph s'))
    ∧ (∀ a b, a = "B" ∨ b = "B" →
              Nx.lookup2 (Nx._succ (Graph.graph s')) a b = None
              ∧ Nx.lookup2 (Nx._pred (Graph.graph s')) a b = None)
    ∧ PyDict.get "B" (Graph._function_registry s') = None
    ∧ Graph.input_variables s' = Graph.input_variables chain
    ∧ Graph.intermediate_variables s' = Graph.intermediate_variables chain
    ∧ (∀ order, Nx.topological_sort (Graph.graph s') = Ok order →
                ("B" ∉ order) ∧ Nx.topological_order (Graph.graph s') order).
Proof.
  apply (proj1 (remove_node_cascade chain_calls "B")).
  apply (bool_decide_unpack _). reflexivity.
Defined.

Example remove_middle_of_chain :
  (r ← Graph.remove_calculation_node "B" chain;
   order ← Nx.topological_sort (Graph.graph r.1);
   Ok (r.2, Nx.nodes (Graph.graph r.1), Nx.edges (Graph.graph r.1), order))
  = Ok (true, ["A"; "C"], [], ["A"; "C"]).
Proof. reflexivity. Qed.

(** ** Further properties of the two engines *)

(** X1.  Every object the calls of the class build, the calls that raise
    included, is well-formed: the three dictionaries of the graph agree,
    every node has its nine attributes and a function in the registry, and
    no dictionary holds a key twice.  The registry can hold keys that are
    no nodes: a call of [add_calculation_node] that raises leaves one. *)
Theorem reachable_well_formed (ops : list Graph.op) :
  Graph.wf (Graph.run ops Graph.init).
Proof. apply wf_reachable. Qed.

(** X2.  [nx.topological_sort] decides whether the graph has a cycle: it
    returns a list exactly when there is none, the list is then a
    topological order of the nodes, and the exception it raises on a cycle
    is [NetworkXUnfeasible]. *)
Theorem topological_sort_decides_cycles (ops : list Graph.op) :
  let g := Graph.graph (Graph.run ops Graph.init) in
  match Nx.topological_sort g with
  | Ok order => Nx.topological_order g order ∧ ¬ Nx.has_cycle g
  | Raise e =>
      e = NetworkXUnfeasible "Graph contains a cycle or graph changed during iteration"
      ∧ Nx.has_cycle g
  end.
Proof.
  intros g. assert (Nx.wf g) as Hg by apply Graph.wf_graph, wf_reachable.
  pose proof (topological_sort_correct g Hg) as Hts.
  destruct (Nx.topological_sort g) as [order|e]; [|done].
  split; [done|]. by eapply topological_order_acyclic.
Qed.




(** X5.  [end_session] on an unknown session does nothing at all; on a known
    one it sets the status and the end time of that entry, leaves the other
    entries alone, and appends one [session_end] event. *)
Theorem end_session_effect (session_id status : string) (t_ended t_event : time)
    (m : Monitor.AgentMonitor) :
  let o := Monitor.end_session session_id status t_ended t_event m in
  match PyDict.get session_id (Monitor.active_sessions m) with
  | None =>
      o = {| Monitor.monitor_after := m; Monitor.trace := [];
             Monitor.raised := None |}
  | Some s =>
      (∃ s',
         PyDict.get session_id (Monitor.active_sessions (Monitor.monitor_after o))
         = Some s'
         ∧ Monitor.s_status s' = status
         ∧ Monitor.s_ended_at s' = Some t_ended
         ∧ Monitor.s_events_count s' = Monitor.s_events_count s
         ∧ Monitor.s_started_at s' = Monitor.s_started_at s)
      ∧ (∀ sid', sid' ≠ session_id →
           PyDict.get sid' (Monitor.active_sessions (Monitor.monitor_after o))
           = PyDict.get sid' (Monitor.active_sessions m))
      ∧ ∃ e,
          Monitor.events (Monitor.monitor_after o)
          = Deque.append Monitor.maxlen e (Monitor.events m)
          ∧ Monitor.ev_type e = "session_end"
          ∧ Monitor.ev_session_id e = session_id
          ∧ Monitor.ev_timestamp e = t_event
  end.
Proof.
  intros o. unfold o, Monitor.end_session.
  destruct (PyDict.get session_id (Monitor.active_sessions m)) as [s|] eqn:Hs; [|done].
  rewrite add_event_sessions, add_event_events. simpl. split_and!.
  - eexists. split; [apply pd_get_set_eq|done].
  - intros sid' Hne. by apply pd_get_set_ne.
  - eexists. done.
Qed.

(** ** Sessions, statistics and the views of the monitor *)

Section monitor_more.
Import Monitor MonitorStats.
Implicit Types (m : AgentMonitor) (e : event) (c : log_call) (o : op).

Lemma pd_keys_set_prefix {V : Type} (k : string) (v : V) (d : PyDict.t string V) :
  PyDict.keys d `prefix_of` PyDict.keys (PyDict.set k v d).
Proof.
  destruct (decide (k ∈ PyDict.keys d)) as [Hin|Hnot].
  - by rewrite pd_keys_set_old.
  - rewrite pd_keys_set_new by done. by apply prefix_app_r.
Qed.

Lemma step_sessions_prefix o m :
  PyDict.keys (active_sessions m)
  `prefix_of` PyDict.keys (active_sessions (monitor_after (step o m))).
Proof.
  destruct o; simpl; try done.
  - unfold start_session. rewrite add_event_sessions. simpl.
    apply pd_keys_set_prefix.
  - unfold end_session.
    destruct (PyDict.get session_id (active_sessions m)) as [s|] eqn:Hs; [|done].
    rewrite add_event_sessions. simpl. apply pd_keys_set_prefix.
  - unfold log_agent_action. rewrite add_event_sessions.
    destruct (PyDict.get (lc_session_id c) (active_sessions m)); [|done].
    simpl. apply pd_keys_set_prefix.
  - unfold unsubscribe. by destruct (bool_decide _).
Qed.

Lemma run_sessions_prefix ops m :
  PyDict.keys (active_sessions m) `prefix_of` PyDict.keys (active_sessions (run ops m)).
Proof.
  revert m. induction ops as [|o ops IH]; intros m; [done|].
  etrans; [apply (step_sessions_prefix o)|]. apply IH.
Qed.

Lemma run_app ops1 ops2 m : run (ops1 ++ ops2) m = run ops2 (run ops1 m).
Proof. unfold run. by rewrite foldl_app. Qed.

Lemma sum_set (k : string) (v : nat) (d : PyDict.t string nat) :
  sum_list (PyDict.set k v d).*2 + default 0 (PyDict.get k d) = sum_list d.*2 + v.
Proof.
  induction d as [|[k' v'] d IH]; simpl; [lia|].
  destruct (decide (k = k')) as [->|Hne]; simpl; [lia|].
  change (list_fmap _ _ snd ?l) with (l.*2). lia.
Qed.

Lemma sum_count_up (k : string) (d : PyDict.t string nat) :
  sum_list (count_up k d).*2 = sum_list d.*2 + 1.
Proof. unfold count_up. pose proof (sum_set k (default 0 (PyDict.get k d) + 1) d). lia. Qed.

Lemma get_count_up (k t : string) (d : PyDict.t string nat) :
  default 0 (PyDict.get t (count_up k d))
  = default 0 (PyDict.get t d) + (if decide (k = t) then 1 else 0).
Proof.
  unfold count_up. destruct (decide (k = t)) as [->|Hne].
  - by rewrite pd_get_set_eq.
  - rewrite pd_get_set_ne by done. lia.
Qed.

(** The three parts of the loop of [get_session_stats], one by one. *)
Lemma count_events_by_type st (l : list event) :
  events_by_type (foldl count_event st l)
  = foldl (λ d e, count_up (ev_type e) d) (events_by_type st) l.
Proof. revert st. induction l as [|e l IH]; intros st; simpl; [done|]. by rewrite IH. Qed.

Lemma count_events_by_level st (l : list event) :
  events_by_level (foldl count_event st l)
  = foldl (λ d e, count_up (ev_level e) d) (events_by_level st) l.
Proof. revert st. induction l as [|e l IH]; intros st; simpl; [done|]. by rewrite IH. Qed.

Lemma count_events_total st (l : list event) :
  total_events (foldl count_event st l) = total_events st.
Proof. revert st. induction l as [|e l IH]; intros st; simpl; [done|]. by rewrite IH. Qed.

Lemma count_events_agents st (l : list event) a :
  a ∈ agents_involved (foldl count_event st l)
  ↔ a ∈ agents_involved st ∨ ∃ e, e ∈ l ∧ ev_agent_type e = Some a.
Proof.
  revert st. induction l as [|e l IH]; intros st; simpl.
  - split; [by left|]. intros [?|(e & He & _)]; [done|]. by apply elem_of_nil in He.
  - rewrite IH. simpl. split.
    + intros [Ha|(e' & He' & Ha)].
      * destruct (ev_agent_type e) as [b|] eqn:Hb.
        -- apply elem_of_union in Ha as [Ha|Ha]; [by left|].
           apply elem_of_singleton in Ha as ->. right. exists e.
           split; [by left|done].
        -- by left.
      * right. exists e'. split; [by right|done].
    + intros [Ha|(e' & He' & Ha)].
      * left. destruct (ev_agent_type e); [|done]. apply elem_of_union. by left.
      * apply elem_of_cons in He' as [->|He'].
        -- left. rewrite Ha. apply elem_of_union. right. by apply elem_of_singleton.
        -- right. by exists e'.
Qed.

Lemma count_fold_get {A : Type} (key : A → string) (l : list A)
    (d : PyDict.t string nat) (t : string) :
  default 0 (PyDict.get t (foldl (λ d x, count_up (key x) d) d l))
  = default 0 (PyDict.get t d) + length (filter (λ x, key x = t) l).
Proof.
  revert d. induction l as [|x l IH]; intros d; simpl; [lia|].
  rewrite IH, get_count_up. rewrite filter_cons.
  destruct (decide (key x = t)); simpl; lia.
Qed.

Lemma count_fold_sum {A : Type} (key : A → string) (l : list A)
    (d : PyDict.t string nat) :
  sum_list (foldl (λ d x, count_up (key x) d) d l).*2 = sum_list d.*2 + length l.
Proof.
  revert d. induction l as [|x l IH]; intros d; simpl; [lia|].
  rewrite IH, sum_count_up. lia.
Qed.

Lemma count_fold_wf {A : Type} (key : A → string) (l : list A)
    (d : PyDict.t string nat) :
  PyDict.wf d → PyDict.wf (foldl (λ d x, count_up (key x) d) d l).
Proof.
  revert d. induction l as [|x l IH]; intros d Hd; simpl; [done|].
  apply IH. by apply pd_wf_set.
Qed.

Lemma count_fold_keys {A : Type} (key : A → string) (l : list A)
    (d : PyDict.t string nat) (t : string) :
  t ∈ PyDict.keys (foldl (λ d x, count_up (key x) d) d l)
  ↔ t ∈ PyDict.keys d ∨ t ∈ key <$> l.
Proof.
  revert d. induction l as [|x l IH]; intros d; simpl.
  - split; [by left|]. intros [?|H]; [done|]. by apply elem_of_nil in H.
  - rewrite IH. unfold count_up. rewrite pd_keys_set_elem, elem_of_cons.
    split; [intros [[->|?]|?]|intros [?|[->|?]]]; tauto.
Qed.

End monitor_more.

(** X6.  The monitor never forgets a session: whatever is called, the
    sessions [get_active_sessions] lists stay, in their order, ended or
    not, and new ones go after them.  On the dashboard the number of
    sessions never goes down, the number of active ones is at most that,
    and the number of events is at most 1000. *)
Theorem sessions_are_never_removed (ops later : list Monitor.op) :
  let m := Monitor.run ops Monitor.init in
  let m' := Monitor.run later m in
  PyDict.keys (MonitorStats.get_active_sessions m)
  `prefix_of` PyDict.keys (MonitorStats.get_active_sessions m')
  ∧ Views.total_sessions (Views.monitoring_dashboard m).2
    ≤ Views.total_sessions (Views.monitoring_dashboard m').2
  ∧ Views.active_sessions_count (Views.monitoring_dashboard m').2
    ≤ Views.total_sessions (Views.monitoring_dashboard m').2
  ∧ Views.ds_total_events (Views.monitoring_dashboard m').2 ≤ 1000.
Proof.
  intros m m'. unfold MonitorStats.get_active_sessions. simpl.
  pose proof (run_sessions_prefix later m) as Hpre. fold m' in Hpre.
  split_and!.
  - done.
  - apply prefix_length in Hpre. unfold PyDict.len, PyDict.keys in *.
    by rewrite !length_fmap in Hpre.
  - unfold PyDict.len. etrans; [apply length_filter|]. by rewrite length_fmap.
  - unfold m', m. rewrite <- run_app. apply run_events_bounded. simpl. lia.
Qed.

(** X7.  [get_session_stats] returns the empty dictionary exactly for a
    session the monitor does not know.  Otherwise [total_events] is the
    number of events of the session that are still in the log, the count
    under each type and under each level is the number of those events
    with that type or level, no key is counted zero, the counts by type
    and the counts by level both add up to [total_events], and
    [agents_involved] is the set of the agent types of those events. *)
Theorem session_stats_count (session_id : string) (now : time)
    (m : Monitor.AgentMonitor) :
  let session_events :=
    filter (λ e, Monitor.ev_session_id e = session_id) (Monitor.events m) in
  match MonitorStats.get_session_stats session_id now m with
  | None => session_id ∉ PyDict.keys (Monitor.active_sessions m)
  | Some st =>
      (session_id ∈ PyDict.keys (Monitor.active_sessions m))
      ∧ MonitorStats.total_events st = length session_events
      ∧ (∀ t, default 0 (PyDict.get t (MonitorStats.events_by_type st))
              = length (filter (λ e, Monitor.ev_type e = t) session_events))
      ∧ (∀ l, default 0 (PyDict.get l (MonitorStats.events_by_level st))
              = length (filter (λ e, Monitor.ev_level e = l) session_events))
      ∧ (∀ t, t ∈ PyDict.keys (MonitorStats.events_by_type st)
              ↔ t ∈ Monitor.ev_type <$> session_events)
      ∧ (∀ l, l ∈ PyDict.keys (MonitorStats.events_by_level st)
              ↔ l ∈ Monitor.ev_level <$> session_events)
      ∧ PyDict.wf (MonitorStats.events_by_type st)
      ∧ PyDict.wf (MonitorStats.events_by_level st)
      ∧ sum_list (MonitorStats.events_by_type st).*2 = MonitorStats.total_events st
      ∧ sum_list (MonitorStats.events_by_level st).*2 = MonitorStats.total_events st
      ∧ (∀ a, a ∈ MonitorStats.agents_involved st
              ↔ ∃ e, e ∈ session_events ∧ Monitor.ev_agent_type e = Some a)
  end.
Proof.
  intros session_events. unfold MonitorStats.get_session_stats.
  destruct (PyDict.get session_id (Monitor.active_sessions m)) as [s|] eqn:Hs.
  2: { by apply pd_get_None. }
  fold session_events. cbn [MonitorStats.total_events MonitorStats.events_by_type
    MonitorStats.events_by_level MonitorStats.agents_involved].
  rewrite count_events_total, count_events_by_type, count_events_by_level. simpl.
  split_and!.
  - by eapply pd_get_Some_keys.
  - done.
  - intros t. by rewrite count_fold_get.
  - intros l. by rewrite count_fold_get.
  - intros t. rewrite count_fold_keys. simpl. split; [|by right].
    intros [H|H]; [|done]. by apply elem_of_nil in H.
  - intros l. rewrite count_fold_keys. simpl. split; [|by right].
    intros [H|H]; [|done]. by apply elem_of_nil in H.
  - apply count_fold_wf. apply NoDup_nil_2.
  - apply count_fold_wf. apply NoDup_nil_2.
  - by rewrite count_fold_sum.
  - by rewrite count_fold_sum.
  - intros a. rewrite count_events_agents. simpl. split; [|by right].
    intros [H|H]; [|done]. by apply elem_of_empty in H.
Qed.

Section monitor_views.
Import Monitor MonitorStats.
Implicit Types (m : AgentMonitor) (e : event) (c : log_call) (o : op).

Lemma deque_append_room {A : Type} cap (x : A) (dq : list A) :
  length dq < cap → Deque.append cap x dq = dq ++ [x].
Proof.
  intros Hlt. unfold Deque.append. rewrite length_app. simpl.
  destruct (decide _); [lia|done].
Qed.

Lemma slice_from_neg {A : Type} (limit : Z) (l : list A) :
  (0 < limit)%Z →
  length (slice_from (- limit) l) = Z.to_nat limit `min` length l.
Proof. intros Hl. rewrite slice_from_last by done. rewrite length_drop. lia. Qed.

Lemma reachable_bounded ops : length (events (run ops init)) ≤ maxlen.
Proof. apply run_events_bounded. simpl. lia. Qed.

End monitor_views.

(** X8.  [start_session] on an identifier that is already a session
    replaces the entry: the count of events is 0 again, the status is
    active and the end time is gone, while the other sessions are as
    before.  The events the earlier session logged stay in the log, so
    [get_session_stats] then counts more events than the entry does: the
    earlier ones and the new [session_start]. *)
Theorem restarted_session_loses_count (session_id description : string)
    (user_id : option string) (t_started t_activity t_event now : time)
    (m : Monitor.AgentMonitor) :
  let m' :=
    Monitor.monitor_after
      (Monitor.start_session session_id description user_id
         t_started t_activity t_event m) in
  let earlier :=
    filter (λ e, Monitor.ev_session_id e = session_id) (Monitor.events m) in
  PyDict.get session_id (Monitor.active_sessions m')
  = Some {| Monitor.s_id := session_id; Monitor.s_description := description;
            Monitor.s_user_id := user_id; Monitor.s_started_at := t_started;
            Monitor.s_status := "active"; Monitor.s_events_count := 0;
            Monitor.s_last_activity := t_activity; Monitor.s_ended_at := None |}
  ∧ (∀ sid', sid' ≠ session_id →
       PyDict.get sid' (Monitor.active_sessions m')
       = PyDict.get sid' (Monitor.active_sessions m))
  ∧ (length (Monitor.events m) < Monitor.maxlen →
     ∃ st, MonitorStats.get_session_stats session_id now m' = Some st
           ∧ MonitorStats.total_events st = length earlier + 1
           ∧ MonitorStats.duration st = (now - t_started)%Z).
Proof.
  intros m' earlier. unfold m', Monitor.start_session.
  rewrite add_event_sessions. simpl. split_and!.
  - apply pd_get_set_eq.
  - intros sid' Hne. by apply pd_get_set_ne.
  - intros Hroom. unfold MonitorStats.get_session_stats.
    rewrite add_event_sessions, add_event_events. simpl.
    rewrite pd_get_set_eq. eexists. split; [done|]. simpl.
    rewrite count_events_total. simpl.
    rewrite deque_append_room by done.
    rewrite filter_app, length_app. split; [|done]. f_equal.
    rewrite filter_cons. simpl. by rewrite decide_True.
Qed.

(** X9.  [get_recent_events] keeps the events that pass the filters given
    (a filter that is [None] or the empty string is no filter), in the
    order of the log, and cuts them by [events[-limit:]]: a limit of 1 or
    more gives the last [limit] of them, the limit 0 gives all of them, and
    a negative limit gives all but the first [-limit]. *)
Theorem recent_events_limits (limit : Z) (session_id level : option string)
    (m : Monitor.AgentMonitor) :
  let matches :=
    filter (λ e, (truthy session_id = true →
                  Some (Monitor.ev_session_id e) = session_id)
                 ∧ (truthy level = true → Some (Monitor.ev_level e) = level))
      (Monitor.events m) in
  let r := Monitor.get_recent_events limit session_id level m in
  ((0 < limit)%Z →
   r = drop (length matches - Z.to_nat limit) matches
   ∧ length r = Z.to_nat limit `min` length matches)
  ∧ (limit = 0%Z → r = matches)
  ∧ ((limit < 0)%Z → r = drop (Z.to_nat (- limit)) matches)
  ∧ r `suffix_of` matches.
Proof.
  intros matches r.
  assert (r = slice_from (- limit) matches) as Hr.
  { unfold r, Monitor.get_recent_events, matches. f_equal.
    destruct (truthy session_id) eqn:Hs, (truthy level) eqn:Hl.
    - rewrite list_filter_filter. apply list_filter_iff. intros e.
      split; [intros [? ?]; by split|intros [H1 H2]; split; [by apply H2|by apply H1]].
    - apply list_filter_iff. intros e.
      split; [intros ?; by split|intros [H1 _]; by apply H1].
    - apply list_filter_iff. intros e.
      split; [intros ?; by split|intros [_ H2]; by apply H2].
    - symmetry. apply filter_all. intros e _. by split. }
  rewrite Hr. split_and!.
  - intros Hpos. split; [by apply slice_from_last|by apply slice_from_neg].
  - intros ->. done.
  - intros Hneg. unfold slice_from.
    destruct (- limit <? 0)%Z eqn:Hlt; [apply Z.ltb_lt in Hlt; lia|done].
  - unfold slice_from. destruct (_ <? _)%Z; apply suffix_drop.
Qed.

(** X10.  For a non-empty session identifier the details view answers 404
    exactly when the monitor does not know the session; otherwise its
    statistics are there, and its events are the last 500 of the events
    the statistics count: all of them when [total_events] is at most
    500. *)
Theorem session_details_consistent (session_id : string) (now : time)
    (m : Monitor.AgentMonitor) :
  session_id ≠ "" →
  let session_events :=
    filter (λ e, Monitor.ev_session_id e = session_id) (Monitor.events m) in
  match Views.api_monitoring_session_details session_id now m with
  | inl msg =>
      (session_id ∉ PyDict.keys (Monitor.active_sessions m))
      ∧ msg = "Session non trouvée"
  | inr d =>
      PyDict.get session_id (Monitor.active_sessions m) = Some (Views.sd_session d)
      ∧ ∃ st,
          Views.sd_stats d = Some st
          ∧ MonitorStats.total_events st = length session_events
          ∧ length (Views.sd_events d) = 500 `min` MonitorStats.total_events st
          ∧ Views.sd_events d `suffix_of` session_events
          ∧ (MonitorStats.total_events st ≤ 500 → Views.sd_events d = session_events)
  end.
Proof.
  intros Hne session_events. unfold Views.api_monitoring_session_details.
  unfold MonitorStats.get_active_sessions.
  destruct (PyDict.get session_id (Monitor.active_sessions m)) as [s|] eqn:Hs.
  2: { split; [by apply pd_get_None|done]. }
  cbn [Views.sd_session Views.sd_events Views.sd_stats]. split; [done|].
  unfold MonitorStats.get_session_stats. rewrite Hs. eexists. split; [done|].
  cbn [MonitorStats.total_events]. rewrite count_events_total.
  cbn [MonitorStats.total_events]. fold session_events.
  assert (Monitor.get_recent_events 500 (Some session_id) None m
          = drop (length session_events - Z.to_nat 500) session_events) as ->.
  { unfold Monitor.get_recent_events. rewrite truthy_Some by done. simpl.
    rewrite session_filter_eq. fold session_events.
    by rewrite (slice_from_last 500) by lia. }
  split_and!.
  - done.
  - rewrite length_drop. change (Z.to_nat 500) with 500. lia.
  - apply suffix_drop.
  - intros Hle. change (Z.to_nat 500) with 500.
    by replace (length session_events - 500) with 0 by lia.
Qed.

Lemma session_details_consistent_witness :
  let session_events :=
    filter (λ e, Monitor.ev_session_id e = "s1") (Monitor.events started_monitor) in
  match Views.api_monitoring_session_details "s1" 9%Z started_monitor with
  | inl msg =>
      ("s1" ∉ PyDict.keys (Monitor.active_sessions started_monitor))
      ∧ msg = "Session non trouvée"
  | inr d =>
      PyDict.get "s1" (Monitor.active_sessions started_monitor)
      = Some (Views.sd_session d)
      ∧ ∃ st,
          Views.sd_stats d = Some st
          ∧ MonitorStats.total_events st = length session_events
          ∧ length (Views.sd_events d) = 500 `min` MonitorStats.total_events st
          ∧ Views.sd_events d `suffix_of` session_events
          ∧ (MonitorStats.total_events st ≤ 500 → Views.sd_events d = session_events)
  end.
Proof. apply (session_details_consistent "s1" 9%Z started_monitor). discriminate. Defined.

(** X11.  On a monitor built by its calls, [clear_old_events] leaves in the
    log exactly the events whose time, as the method computes it from
    their timestamps, is later than its cutoff, in their order; it leaves
    the sessions (with their counts of events) and the subscribers as they
    were.  The cutoff comes from the clock the method reads, so a second
    call leaves the events that pass both cutoffs: with the same age and a
    later clock it can remove more. *)
Theorem clear_old_events_keeps_recent (ops : list Monitor.op)
    (max_age_hours max_age_hours' : Z) (timestamp : time → Z) (now now' : Z) :
  let m := Monitor.run ops Monitor.init in
  let m' := Monitor.clear_old_events max_age_hours timestamp now m in
  let m'' := Monitor.clear_old_events max_age_hours' timestamp now' m' in
  let cutoff_time := (now - max_age_hours * 3600 * 1000000)%Z in
  let cutoff_time' := (now' - max_age_hours' * 3600 * 1000000)%Z in
  Monitor.events m'
  = filter (λ e, (cutoff_time < timestamp (Monitor.ev_timestamp e))%Z)
      (Monitor.events m)
  ∧ Monitor.events m' `sublist_of` Monitor.events m
  ∧ Monitor.active_sessions m' = Monitor.active_sessions m
  ∧ Monitor.subscribers m' = Monitor.subscribers m
  ∧ Monitor.events m''
    = filter (λ e, (cutoff_time `max` cutoff_time'
                    < timestamp (Monitor.ev_timestamp e))%Z)
        (Monitor.events m).
Proof.
  intros m m' m'' cutoff_time cutoff_time'.
  assert (∀ l : list Monitor.event, length l ≤ Monitor.maxlen →
            Deque.extend Monitor.maxlen l [] = l) as Hext.
  { intros l Hl. rewrite deque_extend_spec by (simpl; lia). simpl.
    by replace (length l - Monitor.maxlen) with 0 by lia. }
  assert (∀ c, length (filter (λ e, (c < timestamp (Monitor.ev_timestamp e))%Z)
                         (Monitor.events m)) ≤ Monitor.maxlen) as Hlen.
  { intros c. etrans; [apply length_filter|]. apply reachable_bounded. }
  assert (Monitor.events m'
          = filter (λ e, (cutoff_time < timestamp (Monitor.ev_timestamp e))%Z)
              (Monitor.events m))
    as Hev.
  { unfold m', Monitor.clear_old_events. simpl. fold cutoff_time. by apply Hext. }
  split_and!; try done.
  - rewrite Hev. apply sublist_filter.
  - unfold m'', Monitor.clear_old_events at 1. fold cutoff_time'.
    cbn [Monitor.events Monitor.with_events]. fold (Monitor.events m'). rewrite Hev.
    rewrite list_filter_filter.
    rewrite (list_filter_iff _
               (λ e, (cutoff_time `max` cutoff_time'
                      < timestamp (Monitor.ev_timestamp e))%Z))
      by (intros e; lia).
    by apply Hext.
Qed.

(** X12.  [unsubscribe] of a callback that is not subscribed changes
    nothing and raises nothing, so [subscribe] followed by [unsubscribe]
    of a new callback gives the monitor back as it was.  When the callback
    was subscribed before, the pair removes the earlier subscription and
    keeps the new one: the callback is then notified last. *)
Theorem subscription_round_trip (cb : Monitor.callback) (m : Monitor.AgentMonitor) :
  let ids := Monitor.cb_id <$> Monitor.subscribers m in
  (Monitor.cb_id cb ∉ ids →
   Monitor.unsubscribe cb m = m
   ∧ Monitor.unsubscribe cb (Monitor.subscribe cb m) = m)
  ∧ (Monitor.cb_id cb ∈ ids →
     Monitor.subscribers (Monitor.unsubscribe cb (Monitor.subscribe cb m))
     = Monitor.remove_first (Monitor.cb_id cb) (Monitor.subscribers m) ++ [cb]
     ∧ length (Monitor.subscribers (Monitor.unsubscribe cb m))
       = length (Monitor.subscribers m) - 1)
  ∧ Monitor.events (Monitor.unsubscribe cb m) = Monitor.events m
  ∧ Monitor.active_sessions (Monitor.unsubscribe cb m) = Monitor.active_sessions m.
Proof.
  intros ids.
  assert (∀ subs, Monitor.cb_id cb ∉ Monitor.cb_id <$> subs →
            Monitor.remove_first (Monitor.cb_id cb) (subs ++ [cb]) = subs) as Hfresh.
  { induction subs as [|c subs IH]; intros Hnot; simpl.
    - by rewrite decide_True.
    - rewrite fmap_cons, not_elem_of_cons in Hnot. destruct Hnot as [Hc Hnot].
      rewrite decide_False by done. by rewrite IH. }
  assert (∀ subs, Monitor.cb_id cb ∈ Monitor.cb_id <$> subs →
            Monitor.remove_first (Monitor.cb_id cb) (subs ++ [cb])
            = Monitor.remove_first (Monitor.cb_id cb) subs ++ [cb]
            ∧ length (Monitor.remove_first (Monitor.cb_id cb) subs) = length subs - 1)
    as Hold.
  { induction subs as [|c subs IH]; intros Hin; simpl.
    - by apply elem_of_nil in Hin.
    - destruct (decide (Monitor.cb_id c = Monitor.cb_id cb)) as [Heq|Hne].
      + split; [done|lia].
      + rewrite fmap_cons, elem_of_cons in Hin. destruct Hin as [Heq|Hin]; [done|].
        destruct (IH Hin) as [-> Hlen]. split; [done|]. simpl. rewrite Hlen.
        destruct subs; [by apply elem_of_nil in Hin|simpl; lia]. }
  split_and!.
  - intros Hnot. split.
    + unfold Monitor.unsubscribe. by rewrite bool_decide_eq_false_2.
    + unfold Monitor.unsubscribe, Monitor.subscribe. simpl.
      rewrite bool_decide_eq_true_2.
      2: { rewrite fmap_app. apply elem_of_app. right. by left. }
      unfold Monitor.with_subscribers. simpl. rewrite Hfresh by done. by destruct m.
  - intros Hin. split.
    + unfold Monitor.unsubscribe, Monitor.subscribe. simpl.
      rewrite bool_decide_eq_true_2.
      2: { rewrite fmap_app. apply elem_of_app. right. by left. }
      simpl. by apply Hold.
    + unfold Monitor.unsubscribe. rewrite bool_decide_eq_true_2 by done.
      simpl. by apply Hold.
  - unfold Monitor.unsubscribe. by destruct (bool_decide _).
  - unfold Monitor.unsubscribe. by destruct (bool_decide _).
Qed.

Lemma heartbeat_raises now : Views.heartbeat now = Raise (NameError "datetime").
Proof. reflexivity. Qed.

Lemma recent_events_last (n : nat) (m : Monitor.AgentMonitor) :
  0 < n →
  Monitor.get_recent_events (Z.of_nat n) None None m
  = drop (length (Monitor.events m) - n) (Monitor.events m).
Proof.
  intros Hn. unfold Monitor.get_recent_events. cbn [truthy].
  rewrite slice_from_last by lia. by rewrite Nat2Z.id.
Qed.

(** The one turn of the loop: the events it finds new, whatever they are,
    and the message of the error. *)
Lemma stream_turn_ends last_event_count m now :
  ∃ new_events,
    Views.event_stream_turn last_event_count m now
    = ((Views.Data <$> new_events)
       ++ [Views.StreamError "name 'datetime' is not defined"], None)
    ∧ new_events
      = drop (length (Monitor.events m)
              - (length (Monitor.events m) - last_event_count)) (Monitor.events m)
    ∧ (length (Monitor.events m) ≤ last_event_count → new_events = []).
Proof.
  unfold Views.event_stream_turn. rewrite heartbeat_raises.
  destruct (decide (last_event_count < length (Monitor.events m))) as [Hlt|Hge].
  - eexists. split; [reflexivity|]. split; [|lia].
    rewrite <- Nat2Z.inj_sub by lia. apply recent_events_last. lia.
  - exists []. split; [done|]. split; [|done].
    symmetry. apply drop_ge. lia.
Qed.

(** X13.  The stream of events ends in the first turn of its loop: the
    module binds neither [datetime] nor [time], so the heartbeat of the
    turn raises [NameError], and the handler of the loop sends the message
    of the error and breaks.  All the stream sends is the last 20 events of
    the log at its start, the events the first turn finds new, and the
    message; it sends no heartbeat, and nothing of what is logged after the
    first turn.  When actions were logged between the start and the first
    turn, the events sent as new are theirs, all of them when they found
    room in the log, and only the last of them, as many as the log grew by,
    when the log reached its bound. *)
Theorem stream_ends_in_first_turn (ops : list Monitor.op)
    (m1 : Monitor.AgentMonitor) (now : time)
    (later : list (Monitor.AgentMonitor * time)) :
  let m0 := Monitor.run ops Monitor.init in
  let n0 := length (Monitor.events m0) in
  let stream := Views.event_stream m0 ((m1, now) :: later) in
  (∃ new_events,
     stream
     = (Views.Data <$> drop (n0 - 20) (Monitor.events m0))
       ++ (Views.Data <$> new_events)
       ++ [Views.StreamError "name 'datetime' is not defined"])
  ∧ stream = Views.event_stream m0 [(m1, now)]
  ∧ Forall (λ item, ∀ timestamp, item ≠ Views.Heartbeat timestamp) stream
  ∧ Views.event_stream m0 [] = Views.Data <$> drop (n0 - 20) (Monitor.events m0)
  ∧ ∀ calls,
      m1 = Monitor.run (Monitor.LogAgentAction <$> calls) m0 →
      stream
      = (Views.Data <$> drop (n0 - 20) (Monitor.events m0))
        ++ (Views.Data
              <$> drop (n0 + length calls - Monitor.maxlen) (Monitor.event_of <$> calls))
        ++ [Views.StreamError "name 'datetime' is not defined"].
Proof.
  intros m0 n0 stream.
  pose proof (reachable_bounded ops) as Hn0. fold m0 n0 in Hn0.
  assert (Monitor.get_recent_events 20 None None m0
          = drop (n0 - 20) (Monitor.events m0)) as Hinit.
  { apply (recent_events_last 20). lia. }
  destruct (stream_turn_ends n0 m1 now) as (new_events & Hturn & Hnew & _).
  assert (stream
          = (Views.Data <$> drop (n0 - 20) (Monitor.events m0))
            ++ (Views.Data <$> new_events)
            ++ [Views.StreamError "name 'datetime' is not defined"]) as Hstream.
  { unfold stream, Views.event_stream, Views.event_stream_start.
    rewrite Hinit. cbn [Views.event_stream_loop]. fold n0. rewrite Hturn.
    by rewrite app_nil_r. }
  split_and!.
  - by exists new_events.
  - rewrite Hstream. unfold Views.event_stream, Views.event_stream_start.
    rewrite Hinit. cbn [Views.event_stream_loop]. fold n0. rewrite Hturn.
    by rewrite app_nil_r.
  - rewrite Hstream. rewrite !Forall_app. split_and!.
    + apply Forall_fmap, Forall_true. by intros e t.
    + apply Forall_fmap, Forall_true. by intros e t.
    + apply Forall_singleton. by intros t.
  - unfold Views.event_stream, Views.event_stream_start.
    rewrite Hinit. cbn [Views.event_stream_loop]. by rewrite app_nil_r.
  - intros calls ->. rewrite Hstream. do 3 f_equal. rewrite Hnew.
    set (new := Monitor.event_of <$> calls).
    assert (Monitor.events (Monitor.run (Monitor.LogAgentAction <$> calls) m0)
            = drop (n0 + length calls - Monitor.maxlen) (Monitor.events m0 ++ new))
      as Hev.
    { rewrite run_log_actions, deque_extend_spec by done.
      rewrite length_app. unfold new. by rewrite length_fmap. }
    rewrite Hev, length_drop, length_app. unfold new at 1 2. rewrite length_fmap.
    fold n0. rewrite drop_drop.
    replace (n0 + length calls - Monitor.maxlen
             + (n0 + length calls - (n0 + length calls - Monitor.maxlen)
                - (n0 + length calls - (n0 + length calls - Monitor.maxlen) - n0)))
      with (length (Monitor.events m0) + (n0 + length calls - Monitor.maxlen))
      by (fold n0; lia).
    by rewrite drop_app_add.
Qed.

(** X14.  When the log holds 1000 events as the stream starts, the stream
    sends none of the events logged afterwards, whatever is called on the
    monitor before its first turn: the length of the log cannot exceed the
    count the turn compares it with.  The stream is then the 20 events it
    starts with and the message of the error. *)
Theorem stream_stalls_when_log_full (ops before_turn : list Monitor.op)
    (now : time) (later : list (Monitor.AgentMonitor * time)) :
  let m0 := Monitor.run ops Monitor.init in
  length (Monitor.events m0) = Monitor.maxlen →
  Views.event_stream m0 ((Monitor.run before_turn m0, now) :: later)
  = (Views.Data <$> drop (Monitor.maxlen - 20) (Monitor.events m0))
    ++ [Views.StreamError "name 'datetime' is not defined"].
Proof.
  intros m0 Hfull.
  assert (Monitor.get_recent_events 20 None None m0
          = drop (Monitor.maxlen - 20) (Monitor.events m0)) as Hinit.
  { rewrite <- Hfull. apply (recent_events_last 20). lia. }
  destruct (stream_turn_ends Monitor.maxlen (Monitor.run before_turn m0) now)
    as (new_events & Hturn & _ & Hnone).
  rewrite Hnone in Hturn.
  2: { unfold m0. rewrite <- run_app. apply reachable_bounded. }
  unfold Views.event_stream, Views.event_stream_start.
  rewrite Hinit, Hfull. cbn [Views.event_stream_loop]. rewrite Hturn.
  by rewrite app_nil_r.
Qed.

Lemma stream_stalls_when_log_full_witness :
  Views.event_stream (Monitor.run filling_calls Monitor.init)
    [(Monitor.run [Monitor.LogAgentAction (numbered_call 1000)]
        (Monitor.run filling_calls Monitor.init), 5%Z)]
  = (Views.Data
       <$> drop (Monitor.maxlen - 20)
             (Monitor.events (Monitor.run filling_calls Monitor.init)))
    ++ [Views.StreamError "name 'datetime' is not defined"].
Proof.
  apply (stream_stalls_when_log_full filling_calls
           [Monitor.LogAgentAction (numbered_call 1000)] 5%Z []).
  vm_compute. reflexivity.
Defined.

Section mixin_facts.
Import Monitor Mixin.

Lemma app_underscore_nonempty (a b : string) : a +:+ "_" +:+ b ≠ "".
Proof. by destruct a. Qed.

Lemma log_actions_count (calls : list action_call) (self : MonitoringMixin)
    (sid : string) (m : AgentMonitor) (s : session) :
  session_id self = Some sid → sid ≠ "" →
  PyDict.get sid (active_sessions m) = Some s →
  ∃ s', PyDict.get sid (active_sessions (log_actions calls self m)) = Some s'
        ∧ s_events_count s' = s_events_count s + length calls
        ∧ s_description s' = s_description s
        ∧ s_started_at s' = s_started_at s.
Proof.
  intros Hself Hne. revert m s.
  induction calls as [|c calls IH]; intros m s Hs; simpl.
  - exists s. split_and!; [done|lia|done..].
  - unfold log_actions in *. simpl.
    edestruct (IH (monitor_after
                     (log_action (ac_action c) (ac_message c) (ac_level c)
                        (ac_data c) (ac_t_event c) (ac_t_activity c) self m)))
      as (s' & Hs' & Hcount & Hdesc & Hstart).
    { unfold log_action. rewrite Hself, truthy_Some by done.
      unfold log_agent_action. rewrite add_event_sessions. simpl. rewrite Hs.
      simpl. apply pd_get_set_eq. }
    exists s'. split; [done|]. rewrite Hcount, Hdesc, Hstart. simpl.
    split_and!; [lia|done..].
Qed.

End mixin_facts.

(** X15.  A service that has not called [start_monitoring] logs nothing:
    [log_action], [log_error] and [end_monitoring] leave the monitor as it
    is.  And two services of one class that start monitoring within the
    same second get the same session identifier: the start of the second
    replaces the session of the first, whose count of events is lost, and
    what either logs from then on is counted on the one session. *)
Theorem mixin_same_second_collision (cls d1 d2 : string) (u1 u2 : option string)
    (now_seconds : Z) (t1 t2 t3 t4 t5 t6 : time)
    (calls : list Mixin.action_call) (c : Mixin.action_call)
    (m : Monitor.AgentMonitor) :
  let fresh := Mixin.init cls in
  let started1 := Mixin.start_monitoring d1 u1 now_seconds t1 t2 t3 fresh m in
  let a := started1.1 in
  let m1 := Mixin.log_actions calls a (Monitor.monitor_after started1.2) in
  let started2 := Mixin.start_monitoring d2 u2 now_seconds t4 t5 t6 fresh m1 in
  let b := started2.1 in
  let m2 := Monitor.monitor_after started2.2 in
  let m3 := Mixin.log_actions [c] a m2 in
  (Mixin.log_actions calls fresh m = m
   ∧ (∀ msg exception, Mixin.log_error msg exception t1 t2 fresh m = Mixin.unchanged m)
   ∧ (∀ status, Mixin.end_monitoring status t1 t2 fresh m = Mixin.unchanged m))
  ∧ Mixin.session_id a = Mixin.session_id b
  ∧ ∃ sid s1 s2 s3,
      Mixin.session_id a = Some sid
      ∧ PyDict.get sid (Monitor.active_sessions m1) = Some s1
      ∧ Monitor.s_events_count s1 = length calls
      ∧ Monitor.s_description s1 = d1
      ∧ PyDict.get sid (Monitor.active_sessions m2) = Some s2
      ∧ Monitor.s_events_count s2 = 0
      ∧ Monitor.s_description s2 = d2
      ∧ PyDict.get sid (Monitor.active_sessions m3) = Some s3
      ∧ Monitor.s_events_count s3 = 1.
Proof.
  intros fresh started1 a m1 started2 b m2 m3.
  set (sid := cls +:+ "_" +:+ pretty now_seconds).
  assert (sid ≠ "") as Hne by apply app_underscore_nonempty.
  assert (Mixin.session_id a = Some sid) as Ha by done.
  split_and!.
  - unfold Mixin.log_actions. induction calls as [|c' calls IH]; [done|].
    simpl. apply IH.
  - done.
  - done.
  - done.
  - assert (PyDict.get sid
              (Monitor.active_sessions (Monitor.monitor_after started1.2))
            = Some {| Monitor.s_id := sid; Monitor.s_description := d1;
                      Monitor.s_user_id := u1; Monitor.s_started_at := t1;
                      Monitor.s_status := "active"; Monitor.s_events_count := 0;
                      Monitor.s_last_activity := t2; Monitor.s_ended_at := None |})
      as Hstart1.
    { unfold started1, Mixin.start_monitoring, Monitor.start_session. simpl.
      rewrite add_event_sessions. simpl. apply pd_get_set_eq. }
    destruct (log_actions_count calls a sid _ _ Ha Hne Hstart1)
      as (s1 & Hs1 & Hc1 & Hd1 & _).
    assert (PyDict.get sid (Monitor.active_sessions m2)
            = Some {| Monitor.s_id := sid; Monitor.s_description := d2;
                      Monitor.s_user_id := u2; Monitor.s_started_at := t4;
                      Monitor.s_status := "active"; Monitor.s_events_count := 0;
                      Monitor.s_last_activity := t5; Monitor.s_ended_at := None |})
      as Hstart2.
    { unfold m2, started2, Mixin.start_monitoring, Monitor.start_session. simpl.
      rewrite add_event_sessions. simpl. apply pd_get_set_eq. }
    destruct (log_actions_count [c] a sid _ _ Ha Hne Hstart2)
      as (s3 & Hs3 & Hc3 & _).
    eexists sid, s1, _, s3. split_and!; [done|exact Hs1|exact Hc1|exact Hd1
      |exact Hstart2|done|done|exact Hs3|exact Hc3].
Qed.

(** ** The projections and the charts of the graph *)

Section graph_views.
Import Graph.
Implicit Types (s : PayrollVariableGraph) (g : Nx.DiGraph attr_dict).


Lemma slice_from_5 {A : Type} (l : list A) :
  slice_from (-5) l = drop (length l - 5) l.
Proof. by rewrite (slice_from_last 5) by lia. Qed.

(** The dictionary [levels] of a list without repetition gives each item
    its index. *)
Lemma levels_get (order : list string) (n : string) (i : nat) :
  NoDup order →
  PyDict.get n (foldl (λ levels ni, PyDict.set ni.2 ni.1 levels) []
                  (imap (λ i n, (i, n)) order)) = Some i
  ↔ order !! i = Some n.
Proof.
  induction order as [|x order IH] using rev_ind; intros Hnd.
  - simpl. split; intros H; [done|by rewrite lookup_nil in H].
  - apply NoDup_app in Hnd as (Hnd & Hx & _).
    rewrite imap_app, foldl_app. simpl. rewrite Nat.add_0_r.
    destruct (decide (x = n)) as [->|Hne].
    + rewrite pd_get_set_eq. split.
      * intros [= <-]. by rewrite lookup_app_r, Nat.sub_diag by lia.
      * intros Hl. f_equal.
        destruct (decide (i < length order)) as [Hlt|Hge].
        -- rewrite lookup_app_l in Hl by done.
           apply list_elem_of_lookup_2 in Hl. exfalso. apply (Hx n); [done|by left].
        -- apply lookup_lt_Some in Hl. rewrite length_app in Hl. simpl in Hl. lia.
    + rewrite pd_get_set_ne by done. rewrite IH by done. split.
      * intros Hl. by apply lookup_app_l_Some.
      * intros Hl. apply lookup_app_Some in Hl as [Hl|[_ Hl]]; [done|].
        destruct (i - length order); simpl in Hl; [by injection Hl|done].
Qed.

Lemma levels_get_None (order : list string) (n : string) :
  n ∉ order →
  PyDict.get n (foldl (λ levels ni, PyDict.set ni.2 ni.1 levels) []
                  (imap (λ i n, (i, n)) order)) = None.
Proof.
  induction order as [|x order IH] using rev_ind; intros Hn; [done|].
  rewrite imap_app, foldl_app. simpl.
  rewrite not_elem_of_app, not_elem_of_cons in Hn. destruct Hn as (Hn & Hx & _).
  rewrite pd_get_set_ne by done. by apply IH.
Qed.

Lemma predecessors_ok g n :
  Nx.wf g → n ∈ Nx.nodes g → Charts.predecessors n g = Ok (Nx.preds g n).
Proof.
  intros Hwf Hn. unfold Charts.predecessors, Nx.preds.
  destruct (nx_pred_is_Some n g Hwf Hn) as [ps Hps].
  unfold PyDict.getitem. by rewrite Hps.
Qed.

End graph_views.

(** X16.  On every object built by the calls of the class,
    [list_all_components] lists no variable of a registry, no node and no
    connection twice, and both ends of every connection are among the
    nodes it lists; the totals of [get_variable_summary] are the lengths
    of its two lists of names. *)
Theorem components_consistent (ops : list Graph.op) :
  let s := Graph.run ops Graph.init in
  let c := Summary.list_all_components s in
  let v := Summary.get_variable_summary s in
  NoDup (Summary.variables_input c)
  ∧ NoDup (Summary.variables_intermediate c)
  ∧ NoDup (Summary.nodes c)
  ∧ NoDup (Summary.connections c)
  ∧ Forall (λ e, e.1 ∈ Summary.nodes c ∧ e.2 ∈ Summary.nodes c) (Summary.connections c)
  ∧ Summary.vs_input_variables v = Summary.variables_input c
  ∧ Summary.vs_intermediate_variables v = Summary.variables_intermediate c
  ∧ Summary.total_input_variables v = length (Summary.variables_input c)
  ∧ Summary.total_intermediate_variables v = length (Summary.variables_intermediate c).
Proof.
  intros s c v. pose proof (wf_reachable ops) as Hwf. fold s in Hwf.
  pose proof (Graph.wf_graph s Hwf) as Hg.
  split_and!.
  - apply (Graph.wf_input s Hwf).
  - apply (Graph.wf_intermediate s Hwf).
  - apply (Nx.wf_node _ Hg).
  - by apply nx_NoDup_edges.
  - apply Forall_forall. intros [a b] Hab. simpl.
    apply (nx_elem_of_edges a b _ Hg) in Hab. by apply nx_edge_nodes.
  - done.
  - done.
  - simpl. unfold PyDict.len, PyDict.keys. by rewrite length_fmap.
  - simpl. unfold PyDict.len, PyDict.keys. by rewrite length_fmap.
Qed.


(** X18.  The flowchart has one column for each node, in the order of the
    nodes.  When the graph has no cycle, the height of the column of a
    node is its position in the topological order, so that every
    connection goes from a lower column to a higher one; when it has a
    cycle, the height is the position of the node among the nodes. *)
Theorem flowchart_levels_follow_order (ops : list Graph.op) :
  let s := Graph.run ops Graph.init in
  let chart := Charts._generate_flowchart s in
  let level_of n :=
    default 0 (PyDict.get n (Graph.flowchart_levels s)) in
  Charts.fp_y <$> Charts.fc_data chart = level_of <$> Nx.nodes (Graph.graph s)
  ∧ Charts.fp_name <$> Charts.fc_data chart = Charts.fc_categories chart
  ∧ (¬ Nx.has_cycle (Graph.graph s) →
     ∃ order,
       Nx.topological_sort (Graph.graph s) = Ok order
       ∧ (∀ n, n ∈ Nx.nodes (Graph.graph s) → order !! level_of n = Some n)
       ∧ (∀ u v, Nx.edge (Graph.graph s) u v → level_of u < level_of v))
  ∧ (Nx.has_cycle (Graph.graph s) →
     ∀ n, n ∈ Nx.nodes (Graph.graph s) →
          Nx.nodes (Graph.graph s) !! level_of n = Some n).
Proof.
  intros s chart level_of. pose proof (wf_reachable ops) as Hwf. fold s in Hwf.
  pose proof (Graph.wf_graph s Hwf) as Hg.
  pose proof (Nx.wf_node _ Hg) as Hnd.
  assert (∀ (order : list string) (n : string), NoDup order → n ∈ order →
            order !! default 0
                       (PyDict.get n
                          (foldl (λ levels ni, PyDict.set ni.2 ni.1 levels) []
                             (imap (λ i n, (i, n)) order))) = Some n) as Hlevel.
  { intros order n Hno Hn. apply list_elem_of_lookup_1 in Hn as [i Hi].
    by rewrite (proj2 (levels_get order n i Hno) Hi). }
  split_and!.
  - unfold chart, Charts._generate_flowchart, Nx.nodes, PyDict.keys. simpl.
    rewrite <- !list_fmap_compose. done.
  - unfold chart, Charts._generate_flowchart. simpl.
    rewrite <- !list_fmap_compose. done.
  - intros Hacyc.
    destruct (topological_sort_acyclic _ Hg Hacyc) as (order & Hsort & Hord).
    exists order. split; [done|].
    assert (NoDup order) as Hno.
    { destruct Hord as [Hperm _]. by rewrite Hperm. }
    assert (∀ n, n ∈ Nx.nodes (Graph.graph s) → order !! level_of n = Some n) as Hl.
    { intros n Hn. unfold level_of, Graph.flowchart_levels. rewrite Hsort.
      apply Hlevel; [done|]. by apply (topological_order_nodes _ _ _ Hord). }
    split; [done|]. intros u v Huv.
    destruct (nx_edge_nodes u v _ Hg Huv) as [Hu Hv].
    destruct Hord as [_ Hbefore].
    destruct (Hbefore u v Huv) as (i & j & Hi & Hj & Hij).
    pose proof (Hl u Hu) as Hlu. pose proof (Hl v Hv) as Hlv.
    rewrite (NoDup_lookup order _ _ u Hno Hlu Hi).
    by rewrite (NoDup_lookup order _ _ v Hno Hlv Hj).
  - intros Hcyc n Hn. unfold level_of, Graph.flowchart_levels.
    rewrite (topological_sort_cycle _ Hg Hcyc). by apply Hlevel.
Qed.

(** ** Charts, updates and round trips on the graph *)

Section dict_more.
Context {V : Type}.
Implicit Types (d : PyDict.t string V) (k : string) (v : V).

Lemma pd_set_same k v d : PyDict.get k d = Some v → PyDict.set k v d = d.
Proof.
  induction d as [|[k' v'] d IH]; simpl; [done|].
  destruct (decide (k = k')) as [->|Hne]; [by intros [= ->]|].
  intros Hget. by rewrite IH.
Qed.



Lemma pd_set_new_app k v d : k ∉ PyDict.keys d → PyDict.set k v d = d ++ [(k, v)].
Proof.
  intros Hnot. induction d as [|[k0 v0] d IH]; [done|].
  unfold PyDict.keys in Hnot. rewrite fmap_cons, not_elem_of_cons in Hnot.
  destruct Hnot as [Hne Hnot]. simpl in *. rewrite decide_False by done.
  f_equal. by apply IH.
Qed.

End dict_more.

Lemma fmap_list_bind {A B C : Type} (f : A → list B) (h : B → C) (l : list A) :
  h <$> (l ≫= f) = l ≫= λ x, h <$> f x.
Proof.
  induction l as [|x l IH]; [done|]. by rewrite !bind_cons, fmap_app, IH.
Qed.

Section graph_more.
Import Graph.
Implicit Types (s : PayrollVariableGraph) (g : Nx.DiGraph attr_dict).


Lemma has_edge_edge u v g : Nx.has_edge u v g = true ↔ Nx.edge g u v.
Proof. done. Qed.

(** [remove_connection] on an edge of the graph. *)
Lemma remove_connection_present u v s :
  wf s → Nx.edge (graph s) u v →
  ∃ succ_u pred_v,
    PyDict.get u (Nx._succ (graph s)) = Some succ_u
    ∧ PyDict.get v (Nx._pred (graph s)) = Some pred_v
    ∧ remove_connection u v s
      = Ok (with_graph
              {| Nx._node := Nx._node (graph s);
                 Nx._succ := PyDict.set u (PyDict.remove v succ_u) (Nx._succ (graph s));
                 Nx._pred := PyDict.set v (PyDict.remove u pred_v) (Nx._pred (graph s)) |}
              s, true).
Proof.
  intros Hwf Huv. unfold remove_connection.
  pose proof Huv as E. unfold Nx.edge in E. rewrite E.
  destruct (nx_remove_edge_ok u v (graph s) (wf_graph s Hwf) Huv)
    as (succ_u & pred_v & Hsu & Hpv & ->).
  by exists succ_u, pred_v.
Qed.

Lemma remove_connection_absent u v s :
  ¬ Nx.edge (graph s) u v → remove_connection u v s = Ok (s, false).
Proof.
  intros Huv. unfold remove_connection, Nx.edge in *.
  by destruct (Nx.has_edge u v (graph s)).
Qed.

End graph_more.

(** X19.  On every object built by the calls of the class the network
    chart is produced without an error.  It has one node for each node of
    the graph, in order, named by the description of the node, and one
    link for each connection, whose two ends are nodes of the chart; the
    sankey diagram has the same connections, each of weight 1.  A node
    with an output variable is green; one without is orange when no
    connection arrives at it and blue when one does. *)
Theorem network_chart_spec (ops : list Graph.op) :
  let s := Graph.run ops Graph.init in
  let g := Graph.graph s in
  ∃ chart,
    Charts._generate_network_chart s = Ok chart
    ∧ Charts.cn_id <$> Charts.nc_nodes chart = Nx.nodes g
    ∧ (λ l, (Charts.cl_from l, Charts.cl_to l)) <$> Charts.nc_data chart = Nx.edges g
    ∧ (λ f, (Charts.sf_from f, Charts.sf_to f, Charts.sf_weight f))
        <$> Charts._generate_sankey_diagram s
      = (λ e, (e.1, e.2, 1)) <$> Nx.edges g
    ∧ Forall (λ l, Charts.cl_from l ∈ Charts.cn_id <$> Charts.nc_nodes chart
                   ∧ Charts.cl_to l ∈ Charts.cn_id <$> Charts.nc_nodes chart)
        (Charts.nc_data chart)
    ∧ ∀ cn, cn ∈ Charts.nc_nodes chart →
        ∃ attrs,
          PyDict.get (Charts.cn_id cn) (Nx._node g) = Some (Some attrs)
          ∧ Charts.cn_name cn = Graph.na_description attrs
          ∧ (truthy (Graph.na_output_variable attrs) = true →
             Charts.cn_color cn = "#90ed7d")
          ∧ (truthy (Graph.na_output_variable attrs) = false →
             (∀ u, ¬ Nx.edge g u (Charts.cn_id cn)) →
             Charts.cn_color cn = "#f7a35c")
          ∧ (truthy (Graph.na_output_variable attrs) = false →
             (∃ u, Nx.edge g u (Charts.cn_id cn)) →
             Charts.cn_color cn = "#7cb5ec").
Proof.
  intros s g. pose proof (wf_reachable ops) as Hwf. fold s in Hwf.
  pose proof (Graph.wf_graph s Hwf) as Hg. fold g in Hg.
  set (color_of := λ nd : string * Graph.attr_dict,
         if truthy (nd.2 ≫= Graph.na_output_variable) then "#90ed7d"
         else if decide (length (Nx.preds g nd.1) = 0) then "#f7a35c"
              else "#7cb5ec").
  set (h := λ nd : string * Graph.attr_dict,
         {| Charts.cn_id := nd.1; Charts.cn_name := Charts.display_name nd.1 nd.2;
            Charts.cn_color := color_of nd |}).
  assert (mapM (λ nd : string * Graph.attr_dict,
                  color ← Charts.node_color nd.1 nd.2 g;
                  Ok {| Charts.cn_id := nd.1;
                        Charts.cn_name := Charts.display_name nd.1 nd.2;
                        Charts.cn_color := color |}) (Nx._node g)
          = Ok (h <$> Nx._node g)) as Hnodes.
  { apply mapM_Ok. intros [n a] Hin. unfold Charts.node_color, h, color_of. simpl.
    destruct (truthy (a ≫= Graph.na_output_variable)); [done|].
    rewrite predecessors_ok; [|done|].
    - rewrite bind_Ok. by destruct (decide _).
    - unfold Nx.nodes, PyDict.keys. apply list_elem_of_fmap. by exists (n, a). }
  eexists. split.
  { unfold Charts._generate_network_chart. fold g. rewrite Hnodes. by rewrite bind_Ok. }
  cbn [Charts.nc_nodes Charts.nc_data].
  assert (Charts.cn_id <$> (h <$> Nx._node g) = Nx.nodes g) as Hids.
  { rewrite <- list_fmap_compose. done. }
  split_and!.
  - done.
  - rewrite <- list_fmap_compose. fold g.
    etrans; [|apply list_fmap_id]. apply list_fmap_ext. intros i [a b] _. reflexivity.
  - unfold Charts._generate_sankey_diagram. fold g. by rewrite <- list_fmap_compose.
  - rewrite Hids. apply Forall_forall. intros l Hl.
    apply list_elem_of_fmap in Hl as ([a b] & -> & Hab). simpl.
    fold g in Hab. apply (nx_elem_of_edges a b _ Hg) in Hab. by apply nx_edge_nodes.
  - intros cn Hcn. apply list_elem_of_fmap in Hcn as ([n a] & -> & Hin).
    pose proof (pd_elem_of_get n a _ (Nx.wf_node _ Hg) Hin) as Hget.
    destruct (Graph.wf_attrs s Hwf n a Hget) as [attrs ->].
    exists attrs. unfold h, color_of. simpl. split_and!; [done|done| | |].
    + by intros ->.
    + intros -> Hno. rewrite decide_True; [done|].
      destruct (Nx.preds g n) as [|u ps] eqn:Hps; [done|].
      exfalso. apply (Hno u). apply (edge_preds g Hg). rewrite Hps. by left.
    + intros -> [u Hu]. apply (edge_preds g Hg) in Hu.
      rewrite decide_False; [done|]. by destruct (Nx.preds g n); [apply elem_of_nil in Hu|].
Qed.

(** X20.  On every object built by the calls of the class, the lists of
    ['graph_structure'] in [to_mcp_context] are built without a
    [KeyError]: one item for each node, in order, with the attributes of
    the node, and one item for each connection, with the value of
    ['variable_passed'] of that connection. *)
Theorem graph_structure_total (ops : list Graph.op) :
  let s := Graph.run ops Graph.init in
  let g := Graph.graph s in
  ∃ ns es,
    Summary.graph_structure s = Ok (ns, es)
    ∧ Summary.sn_id <$> ns = Nx.nodes g
    ∧ (λ e, (Summary.se_from e, Summary.se_to e)) <$> es = Nx.edges g
    ∧ (∀ n, n ∈ ns →
         ∃ attrs,
           PyDict.get (Summary.sn_id n) (Nx._node g) = Some (Some attrs)
           ∧ Summary.sn_description n = Graph.na_description attrs
           ∧ Summary.sn_input_variables n = Graph.na_input_variables attrs
           ∧ Summary.sn_output_variable n = Graph.na_output_variable attrs
           ∧ Summary.sn_legal_reference n = Graph.na_legal_reference attrs)
    ∧ (∀ e, e ∈ es →
         ∃ dd,
           Nx.get_edge_data (Summary.se_from e) (Summary.se_to e) g = Some dd
           ∧ Summary.se_variable_passed e
             = default PNone (PyDict.get "variable_passed" dd)).
Proof.
  intros s g. pose proof (wf_reachable ops) as Hwf. fold s in Hwf.
  pose proof (Graph.wf_graph s Hwf) as Hg. fold g in Hg.
  set (h := λ nd : string * Graph.attr_dict,
         {| Summary.sn_id := nd.1; Summary.sn_type := "calculation";
            Summary.sn_description := from_option Graph.na_description "" nd.2;
            Summary.sn_input_variables := from_option Graph.na_input_variables [] nd.2;
            Summary.sn_output_variable := nd.2 ≫= Graph.na_output_variable;
            Summary.sn_legal_reference := nd.2 ≫= Graph.na_legal_reference |}).
  eexists (h <$> Nx._node g), _. split.
  { unfold Summary.graph_structure. fold g.
    rewrite (mapM_Ok _ h); [by rewrite bind_Ok|].
    intros [n a] Hin. simpl.
    pose proof (pd_elem_of_get n a _ (Nx.wf_node _ Hg) Hin) as Hget.
    by destruct (Graph.wf_attrs s Hwf n a Hget) as [attrs ->]. }
  split_and!.
  - rewrite <- list_fmap_compose. done.
  - unfold Nx.edges. rewrite fmap_list_bind. apply list_bind_ext; [|done].
    intros [u nbrs]. simpl. unfold PyDict.keys.
    rewrite <- !list_fmap_compose. done.
  - intros n Hn. apply list_elem_of_fmap in Hn as ([k a] & -> & Hin).
    pose proof (pd_elem_of_get k a _ (Nx.wf_node _ Hg) Hin) as Hget.
    destruct (Graph.wf_attrs s Hwf k a Hget) as [attrs ->]. by exists attrs.
  - intros e He. apply list_elem_of_bind in He as ([u nbrs] & He & Hu).
    apply list_elem_of_fmap in He as ([v dd] & -> & Hv). simpl.
    exists dd. split; [|done]. unfold Nx.get_edge_data, Nx.lookup2.
    rewrite (pd_elem_of_get u nbrs _ (nx_wf_succ g Hg) Hu). simpl.
    apply pd_elem_of_get; [|done].
    apply (Nx.wf_succ_inner g Hg u nbrs).
    by apply pd_elem_of_get; [apply nx_wf_succ|].
Qed.

(** X21.  The call [update_variable(var_name, **updates)] raises
    [TypeError] when an update is named [self] or [var_name], the two
    parameters the call has bound already.  Otherwise, for updates that
    give a key of the entry a value of the type the entry has under it, it
    looks the name up in the input registry first: for a name that is in
    both registries it updates the input entry alone and leaves the
    intermediate one as it is.  It never adds, removes or moves a key of
    either registry (changing the attribute ['name'] does not rename the
    entry), never touches the graph, and for a known name it returns [True]
    even when no key of the updates is a key of the entry and so nothing
    changes. *)
Theorem update_variable_prefers_input (var_name : string)
    (updates : list Graph.variable_update) (s : Graph.PayrollVariableGraph) :
  (Exists (λ u, Graph.update_key u ∈ ["self"; "var_name"]) updates →
   ∃ msg, Graph.update_variable var_name updates s = Raise (TypeError msg))
  ∧ (Forall (λ u, Graph.update_key u ∉ ["self"; "var_name"]) updates →
     ∃ r,
       Graph.update_variable var_name updates s = Ok r
       ∧ (∀ info, PyDict.get var_name (Graph.input_variables s) = Some info →
            r.2 = true
            ∧ PyDict.get var_name (Graph.input_variables r.1)
              = Some (foldl Graph.apply_variable_update info updates)
            ∧ Graph.intermediate_variables r.1 = Graph.intermediate_variables s)
       ∧ (PyDict.get var_name (Graph.input_variables s) = None →
          ∀ info, PyDict.get var_name (Graph.intermediate_variables s) = Some info →
            r.2 = true
            ∧ PyDict.get var_name (Graph.intermediate_variables r.1)
              = Some (foldl Graph.apply_variable_update info updates)
            ∧ Graph.input_variables r.1 = Graph.input_variables s)
       ∧ (PyDict.get var_name (Graph.input_variables s) = None →
          PyDict.get var_name (Graph.intermediate_variables s) = None →
          r = (s, false))
       ∧ PyDict.keys (Graph.input_variables r.1)
         = PyDict.keys (Graph.input_variables s)
       ∧ PyDict.keys (Graph.intermediate_variables r.1)
         = PyDict.keys (Graph.intermediate_variables s)
       ∧ (∀ n, n ≠ var_name →
            PyDict.get n (Graph.input_variables r.1)
            = PyDict.get n (Graph.input_variables s)
            ∧ PyDict.get n (Graph.intermediate_variables r.1)
              = PyDict.get n (Graph.intermediate_variables s))
       ∧ Graph.graph r.1 = Graph.graph s
       ∧ Graph._function_registry r.1 = Graph._function_registry s
       ∧ (Forall (λ u, Graph.update_key u ∉ Graph.variable_keys) updates →
          r.1 = s)).
Proof.
  split.
  - intros Hex. unfold Graph.update_variable.
    destruct (bind_keywords_raise "PayrollVariableGraph.update_variable"
                ["self"; "var_name"] (Graph.update_key <$> updates))
      as (name & _ & _ & ->); [|by eexists].
    apply Exists_fmap. by eapply Exists_impl.
  - intros Hall. unfold Graph.update_variable.
    rewrite bind_keywords_ok by by apply Forall_fmap. rewrite bind_Ok.
    assert (∀ info, Forall (λ u, Graph.update_key u ∉ Graph.variable_keys) updates →
                    foldl Graph.apply_variable_update info updates = info) as Hother.
    { clear Hall. intros info Hkeys. induction Hkeys as [|u us Hu _ IH]; [done|].
      cbn [foldl].
      assert (Graph.apply_variable_update info u = info) as ->; [|done].
      destruct info, u; try done; exfalso; apply Hu;
        apply (bool_decide_unpack _); reflexivity. }
    destruct (PyDict.get var_name (Graph.input_variables s)) as [info|] eqn:Hin.
    + eexists. split; [done|]. simpl. split_and!; try done.
      * intros info' [= <-]. split_and!; [done| |done]. apply pd_get_set_eq.
      * apply pd_keys_set_old. by eapply pd_get_Some_keys.
      * intros n Hne. split; [|done]. by apply pd_get_set_ne.
      * intros Hkeys. rewrite (Hother _ Hkeys), (pd_set_same _ _ _ Hin). by destruct s.
    + destruct (PyDict.get var_name (Graph.intermediate_variables s)) as [info|] eqn:Him.
      * eexists. split; [done|]. simpl. split_and!; try done.
        -- intros _ info' [= <-]. split_and!; [done| |done]. apply pd_get_set_eq.
        -- apply pd_keys_set_old. by eapply pd_get_Some_keys.
        -- intros n Hne. split; [done|]. by apply pd_get_set_ne.
        -- intros Hkeys. rewrite (Hother _ Hkeys), (pd_set_same _ _ _ Him).
           by destruct s.
      * eexists. split; [done|]. simpl. split_and!; done.
Qed.



(** X23.  [add_calculation_node] registers the function under the
    identifier in every case.  When the function has a name and a
    signature the call goes through: on the identifier of a node that
    exists it replaces all the attributes of the node and keeps its place
    and its connections, with their attributes; on a new identifier it puts
    the node last, with no connection.  When reading the name or the
    signature raises, the exception leaves the call and the graph is as it
    was, with the function registered all the same: in place of the one the
    node was added with, or under an identifier that is no node.  The other
    nodes and their functions are as before in every case. *)
Theorem readded_node_keeps_connections (ops : list Graph.op) (node_id : string)
    (function : Graph.func) (description : string) (output_variable : option string)
    (input_variables : option (list string)) (legal_reference : option string)
    (now : time) :
  let s := Graph.run ops Graph.init in
  let r := Graph.add_calculation_node node_id function description output_variable
             input_variables legal_reference now s in
  PyDict.get node_id (Graph._function_registry r.1) = Some function
  ∧ (∀ n, n ≠ node_id →
       PyDict.get n (Graph._function_registry r.1)
       = PyDict.get n (Graph._function_registry s)
       ∧ PyDict.get n (Nx._node (Graph.graph r.1))
         = PyDict.get n (Nx._node (Graph.graph s)))
  ∧ Nx.edges (Graph.graph r.1) = Nx.edges (Graph.graph s)
  ∧ (∀ u v, Nx.get_edge_data u v (Graph.graph r.1)
            = Nx.get_edge_data u v (Graph.graph s))
  ∧ match Graph.f_name function, Graph.f_signature function with
    | Ok function_name, Ok function_signature =>
        r.2 = None
        ∧ PyDict.get node_id (Nx._node (Graph.graph r.1))
          = Some (Some {| Graph.na_description := description;
                          Graph.na_function_name := function_name;
                          Graph.na_function_signature := function_signature;
                          Graph.na_function_doc := Graph.f_doc function;
                          Graph.na_output_variable := output_variable;
                          Graph.na_input_variables := default [] input_variables;
                          Graph.na_legal_reference := legal_reference;
                          Graph.na_node_type := "calculation";
                          Graph.na_created_at := now |})
        ∧ (node_id ∈ Nx.nodes (Graph.graph s) →
           Nx.nodes (Graph.graph r.1) = Nx.nodes (Graph.graph s))
        ∧ (node_id ∉ Nx.nodes (Graph.graph s) →
           Nx.nodes (Graph.graph r.1) = Nx.nodes (Graph.graph s) ++ [node_id]
           ∧ ∀ u, ¬ Nx.edge (Graph.graph r.1) u node_id
                  ∧ ¬ Nx.edge (Graph.graph r.1) node_id u)
    | Raise e, _ | Ok _, Raise e =>
        r.2 = Some e ∧ Graph.graph r.1 = Graph.graph s
    end.
Proof.
  intros s r. pose proof (wf_reachable ops) as Hwf. fold s in Hwf.
  pose proof (Graph.wf_graph s Hwf) as Hg.
  unfold r. rewrite add_calculation_node_spec by done.
  unfold Graph.make_node_attrs.
  destruct (Graph.f_name function) as [function_name|e].
  2: { simpl. split_and!; try done; [apply pd_get_set_eq|].
       intros n Hne. split; [|done]. by apply pd_get_set_ne. }
  rewrite bind_Ok.
  destruct (Graph.f_signature function) as [function_signature|e].
  2: { simpl. split_and!; try done; [apply pd_get_set_eq|].
       intros n Hne. split; [|done]. by apply pd_get_set_ne. }
  rewrite bind_Ok.
  destruct (decide (node_id ∈ Nx.nodes (Graph.graph s))) as [Hn|Hn].
  - cbn [fst snd Graph.graph Graph.with_graph Graph.with_function_registry
           Graph._function_registry Nx._node Nx._succ].
    split_and!; try done.
    + apply pd_get_set_eq.
    + intros n Hne. split; by apply pd_get_set_ne.
    + apply pd_get_set_eq.
    + intros _. unfold Nx.nodes. simpl. by apply pd_keys_set_old.
  - cbn [fst snd Graph.graph Graph.with_graph Graph.with_function_registry
           Graph._function_registry Nx._node Nx._succ].
    assert (node_id ∉ PyDict.keys (Nx._succ (Graph.graph s))) as Hns.
    { by rewrite (Nx.wf_succ_keys _ Hg). }
    assert (∀ u v,
              Nx.lookup2 (PyDict.set node_id [] (Nx._succ (Graph.graph s))) u v
              = Nx.lookup2 (Nx._succ (Graph.graph s)) u v) as Hlook.
    { intros u v. rewrite nx_lookup2_set_inner.
      destruct (decide (u = node_id)) as [->|Hne]; [|done].
      simpl. by rewrite nx_lookup2_absent. }
    split_and!.
    + apply pd_get_set_eq.
    + intros n Hne. split; by apply pd_get_set_ne.
    + unfold Nx.edges. cbn [Nx._succ].
      rewrite pd_set_new_app by done.
      rewrite bind_app, bind_singleton. cbn [fst snd PyDict.keys fmap list_fmap].
      by rewrite app_nil_r.
    + intros u v. unfold Nx.get_edge_data. cbn [Nx._succ]. apply Hlook.
    + done.
    + apply pd_get_set_eq.
    + intros Hin. by destruct Hn.
    + intros _. split.
      * unfold Nx.nodes. simpl. by apply pd_keys_set_new.
      * intros u. rewrite !nx_edge_lookup2. simpl. rewrite !Hlook.
        split; intros Hsome.
        -- apply (nx_mirror_nodes _ _ _ Hg) in Hsome. tauto.
        -- apply (nx_mirror_nodes _ _ _ Hg) in Hsome. tauto.
Qed.



(** ** The tools of the agent and the services *)

Section tool_facts.
Import Graph.
Implicit Types (s : PayrollVariableGraph).

Lemma remove_variable_keys name s :
  PyDict.keys (input_variables (remove_variable name s).1)
  = filter (λ k, k ≠ name) (PyDict.keys (input_variables s))
  ∧ PyDict.keys (intermediate_variables (remove_variable name s).1)
    = filter (λ k, k ≠ name) (PyDict.keys (intermediate_variables s))
  ∧ ((remove_variable name s).2 = true
     ↔ name ∈ PyDict.keys (input_variables s)
       ∨ name ∈ PyDict.keys (intermediate_variables s)).
Proof.
  unfold remove_variable.
  destruct (PyDict.mem name (input_variables s)) eqn:E1,
    (PyDict.mem name (intermediate_variables s)) eqn:E2; simpl.
  - apply pd_mem_true in E1, E2. rewrite !pd_keys_remove. tauto.
  - apply pd_mem_true in E1. apply pd_mem_false in E2. rewrite pd_keys_remove.
    split_and!; [done| |tauto]. symmetry. apply filter_all. intros k Hk ->. done.
  - apply pd_mem_false in E1. apply pd_mem_true in E2. rewrite pd_keys_remove.
    split_and!; [|done|tauto]. symmetry. apply filter_all. intros k Hk ->. done.
  - apply pd_mem_false in E1, E2. split_and!.
    + symmetry. apply filter_all. intros k Hk ->. done.
    + symmetry. apply filter_all. intros k Hk ->. done.
    + split; [done|]. tauto.
Qed.

End tool_facts.

(** X25.  The tool [connect_calculation_nodes] never raises.  When both
    nodes exist it answers that the connection is created, the connection
    is in the graph, and the attribute ['variable_passed'] of the
    connection is [None] when the tool received the empty string and the
    string it received otherwise.  When a node is missing it answers with
    the message of the error and the object is as before. *)
Theorem connect_tool_reports (ops : list Graph.op)
    (from_node to_node variable_passed : string) (now : time) :
  let s := Graph.run ops Graph.init in
  let r := Tools.connect_calculation_nodes from_node to_node variable_passed now s in
  if decide (from_node ∈ Nx.nodes (Graph.graph s) ∧ to_node ∈ Nx.nodes (Graph.graph s))
  then
    r.2 = "Connexion créée: " +:+ from_node +:+ " → " +:+ to_node
          +:+ (if String.eqb variable_passed "" then ""
               else " (via " +:+ variable_passed +:+ ")")
    ∧ Nx.edge (Graph.graph r.1) from_node to_node
    ∧ Nx.nodes (Graph.graph r.1) = Nx.nodes (Graph.graph s)
    ∧ ∃ dd,
        Nx.get_edge_data from_node to_node (Graph.graph r.1) = Some dd
        ∧ PyDict.get "variable_passed" dd
          = Some (if String.eqb variable_passed "" then PNone
                  else PStr variable_passed)
        ∧ PyDict.get "created_at" dd = Some (PTime now)
  else
    r = (s, "Erreur lors de la connexion: "
            +:+ "Les deux nœuds doivent exister avant de créer une connexion").
Proof.
  intros s r. pose proof (wf_reachable ops) as Hwf. fold s in Hwf.
  unfold r, Tools.connect_calculation_nodes.
  destruct (decide _) as [[Hu Hv]|Hnot].
  2: { by rewrite connect_calculations_raise. }
  destruct (connect_calculations_ok from_node to_node (Tools.or_None variable_passed)
              [] now s Hwf Hu Hv) as (su & pv & Hsu & Hpv & ->).
  cbn [fst snd Graph.graph Graph.with_graph Nx._succ Nx._node].
  assert (Nx.lookup2
            (PyDict.set from_node
               (PyDict.set to_node
                  (PyDict.update
                     (Graph.make_edge_attrs (Tools.or_None variable_passed) now [])
                     (default [] (PyDict.get to_node su))) su)
               (Nx._succ (Graph.graph s))) from_node to_node
          = Some (PyDict.update
                    (Graph.make_edge_attrs (Tools.or_None variable_passed) now [])
                    (default [] (PyDict.get to_node su)))) as Hlook.
  { rewrite (nx_lookup2_set_edge _ from_node to_node _ su _ _ Hsu).
    by rewrite decide_True. }
  split_and!.
  - done.
  - apply nx_edge_lookup2. cbn [Nx._succ]. by rewrite Hlook.
  - done.
  - eexists. split; [exact Hlook|].
    assert (PyDict.wf (Graph.make_edge_attrs (Tools.or_None variable_passed) now []))
      as Hnew.
    { unfold PyDict.wf, Graph.make_edge_attrs. simpl.
      apply (bool_decide_unpack _). reflexivity. }
    rewrite !pd_get_update by done. unfold Graph.make_edge_attrs, Tools.or_None. simpl.
    by destruct (String.eqb variable_passed "").
Qed.

(** X26.  The three removal tools never raise on an object built by the
    calls of the class, and their answers are true: the answer says
    removed exactly when the variable, the node or the connection was
    there, and it is then gone (a variable from both registries);
    otherwise the answer says not found and the object is as before. *)
Theorem removal_tools_report (ops : list Graph.op) (name u v : string) :
  let s := Graph.run ops Graph.init in
  (let r := Tools.remove_payroll_variable name s in
   if decide (name ∈ PyDict.keys (Graph.input_variables s)
              ∨ name ∈ PyDict.keys (Graph.intermediate_variables s))
   then r.2 = "Variable '" +:+ name +:+ "' supprimée avec succès du système"
        ∧ (name ∉ PyDict.keys (Graph.input_variables r.1))
        ∧ (name ∉ PyDict.keys (Graph.intermediate_variables r.1))
   else r = (s, "Variable '" +:+ name +:+ "' non trouvée dans le système"))
  ∧ (let r := Tools.remove_calculation_node name s in
     if decide (name ∈ Nx.nodes (Graph.graph s))
     then r.2 = "Nœud de calcul '" +:+ name +:+ "' et toutes ses connexions supprimés"
          ∧ (name ∉ Nx.nodes (Graph.graph r.1))
          ∧ PyDict.get name (Graph._function_registry r.1) = None
     else r = (s, "Nœud '" +:+ name +:+ "' non trouvé dans le graphe"))
  ∧ (let r := Tools.remove_node_connection u v s in
     if Nx.has_edge u v (Graph.graph s)
     then r.2 = "Connexion supprimée: " +:+ u +:+ " → " +:+ v
          ∧ ¬ Nx.edge (Graph.graph r.1) u v
          ∧ Nx.nodes (Graph.graph r.1) = Nx.nodes (Graph.graph s)
     else r = (s, "Aucune connexion trouvée entre '" +:+ u +:+ "' et '"
                  +:+ v +:+ "'")).
Proof.
  intros s. pose proof (wf_reachable ops) as Hwf. fold s in Hwf.
  pose proof (Graph.wf_graph s Hwf) as Hg. split_and!.
  - unfold Tools.remove_payroll_variable.
    destruct (remove_variable_keys name s) as (Hk1 & Hk2 & Hrem).
    destruct (Graph.remove_variable name s) as [s' removed] eqn:E. simpl in *.
    destruct (decide _) as [Hin|Hnot].
    + apply Hrem in Hin as ->. split_and!; [done| |].
      * rewrite Hk1, list_elem_of_filter. tauto.
      * rewrite Hk2, list_elem_of_filter. tauto.
    + destruct removed; [by destruct Hnot; apply Hrem|].
      f_equal. unfold Graph.remove_variable in E.
      rewrite (proj2 (pd_mem_false _ _)) in E by tauto.
      rewrite (proj2 (pd_mem_false _ _)) in E by tauto.
      injection E as <-. by destruct s.
  - unfold Tools.remove_calculation_node.
    destruct (decide _) as [Hin|Hnot].
    + destruct (remove_calculation_node_present name s Hwf Hin) as (g' & Hg' & ->).
      simpl. split_and!; [done| |apply pd_get_remove_eq].
      destruct (nx_remove_node_ok name _ Hg Hin) as (g'' & Hg'' & Hnode & _).
      rewrite Hg' in Hg''. injection Hg'' as <-.
      unfold Nx.nodes. rewrite Hnode, pd_keys_remove, list_elem_of_filter. tauto.
    + by rewrite remove_calculation_node_absent.
  - unfold Tools.remove_node_connection.
    destruct (Nx.has_edge u v (Graph.graph s)) eqn:E.
    + destruct (remove_connection_present u v s Hwf E) as (su & pv & Hsu & Hpv & ->).
      cbn [fst snd Graph.graph Graph.with_graph Nx._succ Nx._node].
      split_and!; [done| |done].
      rewrite nx_edge_lookup2. cbn [Nx._succ].
      rewrite (nx_lookup2_del_edge _ u v su u v Hsu), decide_True by done.
      by intros [? ?].
    + rewrite remove_connection_absent; [done|]. unfold Nx.edge. by rewrite E.
Qed.

(** ** The services around the graph *)

Section service_facts.
Import Graph Services.
Implicit Types (s : PayrollVariableGraph) (variables : list (var_dict * time)).

Lemma add_variable_other_fields n t d dt lr cf dep now s :
  graph (add_variable n t d dt lr cf dep now s) = graph s
  ∧ _function_registry (add_variable n t d dt lr cf dep now s) = _function_registry s
  ∧ _impact_source (add_variable n t d dt lr cf dep now s) = _impact_source s.
Proof. unfold add_variable. by destruct (String.eqb t "input"). Qed.

Lemma add_variable_keys_mono n t d dt lr cf dep now s ty k :
  k ∈ PyDict.keys (registry_of ty s) →
  k ∈ PyDict.keys (registry_of ty (add_variable n t d dt lr cf dep now s)).
Proof.
  unfold add_variable, registry_of.
  destruct (String.eqb t "input"), (String.eqb ty "input"); simpl; try done.
  - intros Hk. apply pd_keys_set_elem. by right.
  - intros Hk. apply pd_keys_set_elem. by right.
Qed.

Lemma add_variable_key n t d dt lr cf dep now s :
  PyDict.get n (registry_of t (add_variable n t d dt lr cf dep now s))
  = Some (make_variable_info n t d dt lr cf dep now).
Proof.
  unfold add_variable, registry_of.
  destruct (String.eqb t "input"); simpl; apply pd_get_set_eq.
Qed.

Lemma add_variables_app variables1 variables2 s :
  add_variables (variables1 ++ variables2) s
  = match add_variables variables1 s with
    | (s1, None) => add_variables variables2 s1
    | (s1, Some e) => (s1, Some e)
    end.
Proof.
  revert s. induction variables1 as [|vt l IH]; intros s; simpl; [done|].
  destruct (add_variable_of s vt); [apply IH|done].
Qed.

(** What the loop of [build_networkx_graph] keeps, whether it ends or
    stops early. *)
Lemma add_variables_keeps variables s :
  let r := add_variables variables s in
  graph r.1 = graph s
  ∧ _function_registry r.1 = _function_registry s
  ∧ _impact_source r.1 = _impact_source s
  ∧ (wf s → wf r.1)
  ∧ (∀ ty k, k ∈ PyDict.keys (registry_of ty s) → k ∈ PyDict.keys (registry_of ty r.1))
  ∧ (∀ e, r.2 = Some e → e = KeyError "name").
Proof.
  revert s. induction variables as [|[var t] l IH]; intros s; simpl.
  { split_and!; done. }
  destruct (vd_name var) as [name|]; simpl.
  2: { split_and!; try done. by intros e [= <-]. }
  match goal with
  | |- context [add_variables l ?s1] =>
      destruct (IH s1) as (Hg & Hf & Hi & Hwf & Hk & He);
      destruct (add_variable_other_fields name
                  (default "intermediate" (vd_type var))
                  (default "" (vd_description var))
                  (default "float" (vd_data_type var))
                  (default (Some "") (vd_legal_reference var))
                  (default (Some "") (vd_calculation_formula var))
                  (Some (default [] (vd_depends_on var))) t s) as (Hg1 & Hf1 & Hi1)
  end.
  split_and!.
  - by rewrite Hg.
  - by rewrite Hf.
  - by rewrite Hi.
  - intros Hs. apply Hwf. by apply wf_add_variable.
  - intros ty k Hin. apply Hk. by apply add_variable_keys_mono.
  - done.
Qed.

Lemma add_variables_named variables s :
  Forall (λ vt, is_Some (vd_name vt.1)) variables →
  (add_variables variables s).2 = None
  ∧ ∀ var t name, (var, t) ∈ variables → vd_name var = Some name →
      name ∈ PyDict.keys (registry_of (default "intermediate" (vd_type var))
                            (add_variables variables s).1).
Proof.
  intros Hall. revert s. induction Hall as [|[var t] l [name Hname] _ IH]; intros s.
  - split; [done|]. intros var t name Hin. by apply elem_of_nil in Hin.
  - simpl in Hname. simpl. rewrite Hname. simpl.
    match goal with
    | |- context [add_variables l ?s1] =>
        destruct (IH s1) as [Hnone Hkeys];
        destruct (add_variables_keeps l s1) as (_ & _ & _ & _ & Hmono & _)
    end.
    split; [done|]. intros var' t' name' Hin Hn'.
    apply elem_of_cons in Hin as [[= -> ->]|Hin].
    + rewrite Hname in Hn'. injection Hn' as <-.
      apply Hmono. eapply pd_get_Some_keys. apply add_variable_key.
    + by eapply Hkeys.
Qed.

(** The rows of [api_live_data] all go to the intermediate registry. *)
Lemma add_rows_intermediate (rows : list (variable_row * time)) s :
  let variables := (λ rt : variable_row * time, (dict_of_row rt.1, rt.2)) <$> rows in
  let r := add_variables variables s in
  r.2 = None
  ∧ input_variables r.1 = input_variables s
  ∧ ∀ k, k ∈ PyDict.keys (intermediate_variables r.1)
         ↔ k ∈ PyDict.keys (intermediate_variables s) ∨ k ∈ row_name <$> rows.*1.
Proof.
  revert s. induction rows as [|[row t] rows IH]; intros s; simpl.
  - split_and!; [done..|]. intros k. split; [by left|].
    intros [?|H]; [done|]. by apply elem_of_nil in H.
  - match goal with
    | |- context [add_variables _ ?s1] => destruct (IH s1) as (Hnone & Hin & Hk)
    end.
    split_and!; [exact Hnone|exact Hin|].
    intros k. rewrite Hk. unfold add_variable. simpl.
    rewrite pd_keys_set_elem, elem_of_cons. tauto.
Qed.

End service_facts.

(** X27.  [build_networkx_graph] starts from a cleared object, so what it
    builds does not depend on what the object held: no node, no
    connection, no function, the impact source with the description given
    and no convention.  When every dictionary has a ['name'], every
    variable is registered, in the registry its ['type'] selects
    (intermediate when it has none), and the last dictionary of the list
    is registered with its own attributes.  A dictionary without ['name']
    raises [KeyError] after the object was cleared and the dictionaries
    before it were registered: the object is then the one built from
    those. *)
Theorem build_graph_from_variables (variables : list (Services.var_dict * time))
    (analysis_description : string) (t_source : time)
    (s0 : Graph.PayrollVariableGraph) :
  let r := Services.build_networkx_graph variables analysis_description t_source s0 in
  r = Services.build_networkx_graph variables analysis_description t_source Graph.init
  ∧ Graph.wf r.1
  ∧ Nx.nodes (Graph.graph r.1) = []
  ∧ Nx.edges (Graph.graph r.1) = []
  ∧ Graph._function_registry r.1 = []
  ∧ Graph._impact_source r.1
    = Some {| Graph.is_description := analysis_description;
              Graph.is_convention := None; Graph.is_timestamp := t_source |}
  ∧ (Forall (λ vt, is_Some (Services.vd_name vt.1)) variables →
     r.2 = None
     ∧ ∀ var t name, (var, t) ∈ variables → Services.vd_name var = Some name →
         name ∈ PyDict.keys
                  (Graph.registry_of (default "intermediate" (Services.vd_type var))
                     r.1))
  ∧ (∀ before var t name,
       variables = before ++ [(var, t)] →
       Forall (λ vt, is_Some (Services.vd_name vt.1)) before →
       Services.vd_name var = Some name →
       let var_type := default "intermediate" (Services.vd_type var) in
       PyDict.get name (Graph.registry_of var_type r.1)
       = Some (Graph.make_variable_info name var_type
                 (default "" (Services.vd_description var))
                 (default "float" (Services.vd_data_type var))
                 (default (Some "") (Services.vd_legal_reference var))
                 (default (Some "") (Services.vd_calculation_formula var))
                 (Some (default [] (Services.vd_depends_on var))) t))
  ∧ (∀ before var t rest,
       variables = before ++ (var, t) :: rest →
       Forall (λ vt, is_Some (Services.vd_name vt.1)) before →
       Services.vd_name var = None →
       r = ((Services.build_networkx_graph before analysis_description t_source s0).1,
            Some (KeyError "name"))).
Proof.
  intros r. unfold r, Services.build_networkx_graph, Graph.clear_system.
  set (base := Graph.set_impact_source analysis_description None t_source Graph.init).
  destruct (add_variables_keeps variables base) as (Hg & Hf & Hi & Hwf & _ & _).
  split_and!.
  - done.
  - apply Hwf. pose proof graph_wf_init as Hinit. destruct Hinit. by split.
  - by rewrite Hg.
  - by rewrite Hg.
  - by rewrite Hf.
  - by rewrite Hi.
  - intros Hall. by apply add_variables_named.
  - intros before var t name -> Hall Hname.
    rewrite add_variables_app.
    destruct (add_variables_named before base Hall) as [Hnone _].
    destruct (Services.add_variables before base) as [s1 o]. simpl in Hnone.
    subst o. simpl. rewrite Hname. simpl. apply add_variable_key.
  - intros before var t rest -> Hall Hname.
    rewrite add_variables_app.
    destruct (add_variables_named before base Hall) as [Hnone _].
    destruct (Services.add_variables before base) as [s1 o]. simpl in Hnone.
    subst o. simpl. by rewrite Hname.
Qed.

(** X28.  The live data [api_live_data] computes from the rows of an
    analysis count every variable as intermediate, whatever its
    ['var_type']: the dictionaries of the rows have no key ['type'], which
    is the one [build_networkx_graph] reads.  The number of input
    variables is always 0, the number of intermediate variables is the
    number of distinct names, there is no node and no connection, and
    [latest_variables] holds at most five of the names. *)
Theorem live_data_ignores_var_type (rows : list (Services.variable_row * time))
    (analysis_description : string) (t_source t_now : time) :
  let names := Services.row_name <$> rows.*1 in
  ∃ d,
    Services.api_live_data rows analysis_description t_source t_now = inl d
    ∧ Summary.ls_input_variables (Summary.stats d) = 0
    ∧ Summary.ls_intermediate_variables (Summary.stats d) = length (remove_dups names)
    ∧ Summary.ls_calculation_nodes (Summary.stats d) = 0
    ∧ Summary.ls_connections (Summary.stats d) = 0
    ∧ Summary.graph_complexity d = 0
    ∧ length (Summary.latest_variables d) = 5 `min` length (remove_dups names)
    ∧ NoDup (Summary.latest_variables d)
    ∧ ∀ n, n ∈ Summary.latest_variables d → n ∈ names.
Proof.
  intros names. unfold Services.api_live_data, Services.build_networkx_graph.
  unfold Graph.clear_system.
  set (base := Graph.set_impact_source analysis_description None t_source Graph.init).
  set (variables := (λ rt : Services.variable_row * time,
                       (Services.dict_of_row rt.1, rt.2)) <$> rows).
  destruct (add_rows_intermediate rows base) as (Hnone & Hin & Hk).
  destruct (add_variables_keeps variables base) as (Hg & _ & _ & Hwf & _ & _).
  fold variables in Hnone, Hin, Hk.
  destruct (Services.add_variables variables base) as [s1 o] eqn:E.
  cbn [fst snd] in Hnone, Hin, Hk, Hg, Hwf. subst o. eexists. split; [done|].
  assert (Graph.wf s1) as Hwf1.
  { apply Hwf. pose proof graph_wf_init as Hinit. destruct Hinit. by split. }
  assert (PyDict.keys (Graph.intermediate_variables s1) ≡ₚ remove_dups names) as Hperm.
  { apply NoDup_Permutation.
    - apply (Graph.wf_intermediate s1 Hwf1).
    - apply NoDup_remove_dups.
    - intros k. rewrite Hk, elem_of_remove_dups. simpl. split; [|by right].
      intros [H|H]; [by apply elem_of_nil in H|done]. }
  assert (length (Graph.intermediate_variables s1) = length (remove_dups names)) as Hlen.
  { rewrite <- Hperm. unfold PyDict.keys. by rewrite length_fmap. }
  unfold Summary.get_live_update_data.
  cbn [Summary.stats Summary.ls_input_variables Summary.ls_intermediate_variables
       Summary.ls_calculation_nodes Summary.ls_connections Summary.graph_complexity
       Summary.latest_variables].
  rewrite Hg, Hin. unfold PyDict.len. rewrite Hlen. split_and!; try done.
  - rewrite slice_from_5, length_drop. unfold PyDict.keys.
    rewrite length_fmap, Hlen. lia.
  - rewrite slice_from_5.
    eapply sublist_NoDup; [apply (Graph.wf_intermediate s1 Hwf1)|apply sublist_drop].
  - intros n Hn. rewrite slice_from_5 in Hn.
    pose proof (elem_of_sublist _ _ _ Hn (sublist_drop _ _)) as Hn'.
    apply Hk in Hn' as [Hn'|Hn']; [|done]. by apply elem_of_nil in Hn'.
Qed.

(** ** The extraction of variables and the simulated base agent *)

Section extraction.
Import Graph Services.
Implicit Types (s : PayrollVariableGraph) (outs : list extracted_variable).

Lemma extract_output_step (acc : list extracted_variable) (n : string) (a : attr_dict) :
  extract_output acc (n, a)
  = match a with
    | Some attrs =>
        match na_output_variable attrs with
        | Some ov =>
            if truthy (Some ov) && negb (bool_decide (ov ∈ xv_name <$> acc))
            then acc ++ [{| xv_name := ov; xv_type := "output";
                            xv_description := "Variable de sortie générée par " +:+ n;
                            xv_data_type := "float";
                            xv_legal_reference := na_legal_reference attrs;
                            xv_calculation_formula :=
                              Some ("Calculée par le noeud " +:+ n);
                            xv_depends_on := na_input_variables attrs |}]
            else acc
        | None => acc
        end
    | None => acc
    end.
Proof. destruct a as [attrs|]; [|done]. simpl. by destruct (na_output_variable attrs). Qed.

Lemma extract_outputs_fold s registered nds outs :
  (∀ nd, nd ∈ nds → nd ∈ Nx._node (graph s)) →
  output_items s registered outs →
  ∃ outs',
    foldl extract_output (registered ++ outs) nds = registered ++ outs ++ outs'
    ∧ output_items s registered (outs ++ outs')
    ∧ ∀ n attrs ov, (n, Some attrs) ∈ nds → na_output_variable attrs = Some ov →
        ov ≠ "" → ov ∈ xv_name <$> registered ++ outs ++ outs'.
Proof.
  revert outs. induction nds as [|[n a] nds IH]; intros outs Hsub Hitems.
  - exists []. rewrite app_nil_r. split_and!; [done..|].
    intros n attrs ov Hin. by apply elem_of_nil in Hin.
  - assert (∀ nd, nd ∈ nds → nd ∈ Nx._node (graph s)) as Hsub'.
    { intros nd Hnd. apply Hsub. by right. }
    cbn [foldl]. rewrite extract_output_step.
    destruct a as [attrs|].
    2: { destruct (IH outs Hsub' Hitems) as (outs' & Hfold & Hitems' & Hcomplete).
         exists outs'. split_and!; [done..|].
         intros n' attrs' ov' Hin Hov' Hne.
         apply elem_of_cons in Hin as [[= ]|Hin]. by eapply Hcomplete. }
    destruct (na_output_variable attrs) as [ov|] eqn:Hov.
    2: { destruct (IH outs Hsub' Hitems) as (outs' & Hfold & Hitems' & Hcomplete).
         exists outs'. split_and!; [done..|].
         intros n' attrs' ov' Hin Hov' Hne.
         apply elem_of_cons in Hin as [[= -> ->]|Hin]; [|by eapply Hcomplete].
         by rewrite Hov in Hov'. }
    destruct (truthy (Some ov)) eqn:Htruthy.
    2: { cbn [andb].
         destruct (IH outs Hsub' Hitems) as (outs' & Hfold & Hitems' & Hcomplete).
         exists outs'. split_and!; [done..|].
         intros n' attrs' ov' Hin Hov' Hne.
         apply elem_of_cons in Hin as [[= -> ->]|Hin]; [|by eapply Hcomplete].
         rewrite Hov in Hov'. injection Hov' as <-.
         rewrite truthy_Some in Htruthy by done. done. }
    destruct (bool_decide (ov ∈ xv_name <$> registered ++ outs)) eqn:Hmem; cbn [andb negb].
    + destruct (IH outs Hsub' Hitems) as (outs' & Hfold & Hitems' & Hcomplete).
      exists outs'. split_and!; [done..|].
      intros n' attrs' ov' Hin Hov' Hne.
      apply elem_of_cons in Hin as [[= -> ->]|Hin]; [|by eapply Hcomplete].
      rewrite Hov in Hov'. injection Hov' as <-.
      apply bool_decide_eq_true_1 in Hmem.
      rewrite (assoc_L (++)), fmap_app. apply elem_of_app. by left.
    + apply bool_decide_eq_false_1 in Hmem.
      rewrite fmap_app, not_elem_of_app in Hmem. destruct Hmem as [Hreg Houts].
      set (new := {| xv_name := ov; xv_type := "output";
                     xv_description := "Variable de sortie générée par " +:+ n;
                     xv_data_type := "float";
                     xv_legal_reference := na_legal_reference attrs;
                     xv_calculation_formula := Some ("Calculée par le noeud " +:+ n);
                     xv_depends_on := na_input_variables attrs |}).
      assert (output_items s registered (outs ++ [new])) as Hitems1.
      { destruct Hitems as [Hall Hnd]. split.
        - apply Forall_app. split; [done|]. apply Forall_singleton. split_and!.
          + done.
          + simpl. intros ->. by revert Htruthy.
          + done.
          + exists n, attrs. split_and!; [|done..]. apply Hsub. by left.
        - rewrite fmap_app. apply NoDup_app. split_and!; [done| |].
          + intros x Hx Hx'. apply list_elem_of_singleton in Hx'. by subst x.
          + apply NoDup_singleton. }
      destruct (IH (outs ++ [new]) Hsub' Hitems1)
        as (outs' & Hfold & Hitems' & Hcomplete).
      exists (new :: outs').
      rewrite <- !(assoc_L (++)) in Hfold, Hitems', Hcomplete.
      cbn [app] in Hfold, Hitems', Hcomplete.
      rewrite <- (assoc_L (++)). split_and!; [done..|].
      intros n' attrs' ov' Hin Hov' Hne.
      apply elem_of_cons in Hin as [[= -> ->]|Hin]; [|by eapply Hcomplete].
      rewrite Hov in Hov'. injection Hov' as <-.
      rewrite !fmap_app, !elem_of_app. right. right. rewrite fmap_cons. by left.
Qed.

End extraction.

(** X29.  The list [_extract_variables_from_networkx_graph] builds holds
    the entries of the input registry, then those of the intermediate
    registry, each under the key it has in its registry, and after them
    the output variables of the nodes.  An output item is added only for a
    non-empty output variable whose name no earlier item has: the output
    items have names of their own, each named once, and every non-empty
    output variable of a node is the name of some item of the list. *)
Theorem extracted_outputs_are_new (s : Graph.PayrollVariableGraph) :
  let registered :=
    (Services.extract_registered "input" <$> Graph.input_variables s)
    ++ (Services.extract_registered "intermediate" <$> Graph.intermediate_variables s) in
  let variables := Services._extract_variables_from_networkx_graph s in
  Services.xv_name <$> registered
  = PyDict.keys (Graph.input_variables s)
    ++ PyDict.keys (Graph.intermediate_variables s)
  ∧ ∃ outputs,
      variables = registered ++ outputs
      ∧ Services.output_items s registered outputs
      ∧ ∀ n attrs ov,
          (n, Some attrs) ∈ Nx._node (Graph.graph s) →
          Graph.na_output_variable attrs = Some ov → ov ≠ "" →
          ov ∈ Services.xv_name <$> variables.
Proof.
  intros registered variables. split.
  - unfold registered. rewrite fmap_app. unfold PyDict.keys.
    by rewrite <- !list_fmap_compose.
  - destruct (extract_outputs_fold s registered (Nx._node (Graph.graph s)) [])
      as (outs & Hfold & Hitems & Hcomplete).
    + done.
    + split; [done|]. apply NoDup_nil_2.
    + rewrite app_nil_r in Hfold. simpl in Hitems, Hcomplete.
      exists outs. unfold variables, Services._extract_variables_from_networkx_graph.
      fold registered. rewrite Hfold. done.
Qed.

Section substrings.
Import Tools.

Lemma prefix_spec (a b : string) :
  String.prefix a b = true ↔ ∃ post, b = a +:+ post.
Proof.
  revert b. induction a as [|c a IH]; intros b.
  - split; [|by destruct b]. intros _. by exists b.
  - destruct b as [|c' b]; simpl.
    + split; [done|]. by intros [post [=]].
    + destruct (Ascii.ascii_dec c c') as [->|Hne].
      * rewrite IH. split; intros [post Hpost]; exists post; [by rewrite Hpost|].
        by injection Hpost.
      * split; [done|]. intros [post [= ? ?]]. done.
Qed.

Lemma contains_spec (needle haystack : string) :
  contains needle haystack = true ↔ occurs needle haystack.
Proof.
  unfold occurs. induction haystack as [|c hay IH].
  - cbn [contains]. rewrite orb_false_r, prefix_spec. split.
    + intros [post Hpost]. by exists "", post.
    + intros (pre & post & Heq). destruct pre; [by exists post|done].
  - cbn [contains]. rewrite orb_true_iff, prefix_spec, IH. split.
    + intros [[post Hpost]|(pre & post & Heq)].
      * by exists "", post.
      * exists (String c pre), post. simpl. by rewrite Heq.
    + intros (pre & post & Heq). destruct pre as [|c' pre].
      * left. by exists post.
      * right. simpl in Heq. injection Heq as -> Heq. by exists pre, post.
Qed.

Lemma contains_false (needle haystack : string) :
  contains needle haystack = false ↔ ¬ occurs needle haystack.
Proof. rewrite <- contains_spec. by destruct (contains needle haystack). Qed.

End substrings.

(** X30.  [_simulate_base_agent_response] returns [None], and no text,
    in two cases: the request (in lower case) mentions ["seuil"] or
    ["barème"] while the context mentions none of ["ancienneté"],
    ["heure"] and ["supplémentaire"]; or the request mentions neither of
    those two but ["montant"] or ["calcul"], while the context mentions
    neither ["transport"] nor ["prime"].  In every other case it returns
    one of its texts.  So a request about a ["seuil"] with an empty
    context is answered by [None]. *)
Theorem base_agent_answers_none (lower : string → string)
    (missing_info context : string) :
  let missing_lower := lower missing_info in
  let context_lower := lower context in
  let response := Tools._simulate_base_agent_response lower missing_info context in
  (response = None
   ↔ ((Tools.occurs "seuil" missing_lower ∨ Tools.occurs "barème" missing_lower)
      ∧ ¬ Tools.occurs "ancienneté" context_lower
      ∧ ¬ Tools.occurs "heure" context_lower
      ∧ ¬ Tools.occurs "supplémentaire" context_lower)
     ∨ (¬ Tools.occurs "seuil" missing_lower
        ∧ ¬ Tools.occurs "barème" missing_lower
        ∧ (Tools.occurs "montant" missing_lower ∨ Tools.occurs "calcul" missing_lower)
        ∧ ¬ Tools.occurs "transport" context_lower
        ∧ ¬ Tools.occurs "prime" context_lower))
  ∧ (context_lower = "" →
     Tools.occurs "seuil" missing_lower ∨ Tools.occurs "barème" missing_lower
     ∨ Tools.occurs "montant" missing_lower ∨ Tools.occurs "calcul" missing_lower →
     response = None)
  ∧ (¬ Tools.occurs "seuil" missing_lower → ¬ Tools.occurs "barème" missing_lower →
     ¬ Tools.occurs "montant" missing_lower → ¬ Tools.occurs "calcul" missing_lower →
     ¬ Tools.occurs "référence" missing_lower → ¬ Tools.occurs "article" missing_lower →
     ¬ Tools.occurs "condition" missing_lower →
     ¬ Tools.occurs "éligibilité" missing_lower →
     response = Some (Tools.ReponseGenerique missing_info)).
Proof.
  intros missing_lower context_lower response.
  assert (response = None
   ↔ ((Tools.occurs "seuil" missing_lower ∨ Tools.occurs "barème" missing_lower)
      ∧ ¬ Tools.occurs "ancienneté" context_lower
      ∧ ¬ Tools.occurs "heure" context_lower
      ∧ ¬ Tools.occurs "supplémentaire" context_lower)
     ∨ (¬ Tools.occurs "seuil" missing_lower
        ∧ ¬ Tools.occurs "barème" missing_lower
        ∧ (Tools.occurs "montant" missing_lower ∨ Tools.occurs "calcul" missing_lower)
        ∧ ¬ Tools.occurs "transport" context_lower
        ∧ ¬ Tools.occurs "prime" context_lower)) as Hnone.
  { unfold response, Tools._simulate_base_agent_response.
    fold missing_lower context_lower.
    rewrite <- !contains_spec.
    destruct (Tools.contains "seuil" missing_lower),
      (Tools.contains "barème" missing_lower),
      (Tools.contains "ancienneté" context_lower),
      (Tools.contains "heure" context_lower),
      (Tools.contains "supplémentaire" context_lower),
      (Tools.contains "montant" missing_lower),
      (Tools.contains "calcul" missing_lower),
      (Tools.contains "transport" context_lower),
      (Tools.contains "prime" context_lower);
      cbn [orb];
      repeat match goal with
             | |- context [if ?b then _ else _] => destruct b
             end;
      (split; [try discriminate; intros _|]); intuition congruence. }
  split; [exact Hnone|]. split.
  - intros Hempty Hany. apply Hnone.
    assert (∀ needle, needle ≠ "" → ¬ Tools.occurs needle context_lower) as Hno.
    { intros needle Hne (pre & post & Heq). rewrite Hempty in Heq.
      destruct pre; [|done]. destruct needle; done. }
    destruct (Tools.contains "seuil" missing_lower) eqn:E1;
      [apply contains_spec in E1|apply contains_false in E1].
    { left. split_and!; [by left|by apply Hno..]. }
    destruct (Tools.contains "barème" missing_lower) eqn:E2;
      [apply contains_spec in E2|apply contains_false in E2].
    { left. split_and!; [by right|by apply Hno..]. }
    right. split_and!; [done|done| |by apply Hno..].
    destruct Hany as [?|[?|[?|?]]]; [done|done|by left|by right].
  - intros H1 H2 H3 H4 H5 H6 H7 H8.
    apply contains_false in H1, H2, H3, H4, H5, H6, H7, H8.
    unfold response, Tools._simulate_base_agent_response.
    fold missing_lower context_lower.
    by rewrite H1, H2, H3, H4, H5, H6, H7, H8.
Qed.

(** ** The model at work on small inputs *)

(** A request about thresholds, already in lower case, with no context. *)
Example base_agent_none_on_thresholds :
  Tools._simulate_base_agent_response (λ text, text) "quels sont les seuils ?" ""
  = None.
Proof. reflexivity. Qed.

Example base_agent_generic_answer :
  Tools._simulate_base_agent_response (λ text, text) "bonjour" ""
  = Some (Tools.ReponseGenerique "bonjour").
Proof. reflexivity. Qed.

(** One row of type ['input'] is counted as an intermediate variable. *)
Example live_data_of_an_input_row :
  Services.api_live_data
    [({| Services.row_name := "salaire_base"; Services.row_var_type := "input";
         Services.row_description := "Salaire de base";
         Services.row_data_type := "float" |}, 1%Z)]
    "Prime..." 0%Z 2%Z
  = inl {| Summary.timestamp := 2%Z;
           Summary.stats :=
             {| Summary.ls_input_variables := 0;
                Summary.ls_intermediate_variables := 1;
                Summary.ls_calculation_nodes := 0;
                Summary.ls_connections := 0 |};
           Summary.latest_variables := ["salaire_base"];
           Summary.graph_complexity := 0 |}.
Proof. reflexivity. Qed.

(** The statistics of the session of [started_monitor]. *)
Example stats_of_started_monitor :
  MonitorStats.get_session_stats "s1" 10%Z started_monitor
  = Some {| MonitorStats.total_events := 3;
            MonitorStats.events_by_type := [("session_start", 1); ("agent_action", 2)];
            MonitorStats.events_by_level := [("info", 3)];
            MonitorStats.agents_involved := {["payroll_agent"]};
            MonitorStats.duration := 10%Z |}.
Proof. vm_compute. reflexivity. Qed.

(** The chart of the chain [A → B → C]: no node has an output variable,
    [A] is an entry. *)
Example network_chart_of_chain :
  Charts.cn_color <$> (from_option Charts.nc_nodes []
                         match Charts._generate_network_chart chain with
                         | Ok chart => Some chart
                         | Raise _ => None
                         end)
  = ["#f7a35c"; "#7cb5ec"; "#7cb5ec"].
Proof. reflexivity. Qed.

Example flowchart_of_chain :
  Charts.fp_y <$> Charts.fc_data (Charts._generate_flowchart chain) = [0; 1; 2].
Proof. reflexivity. Qed.

(** The stream of [started_monitor] when nothing is logged before its
    first turn: the three events of the log, then the message of the error
    the heartbeat raises. *)
Example stream_of_started_monitor :
  Views.event_stream started_monitor [(started_monitor, 7%Z); (started_monitor, 9%Z)]
  = (Views.Data <$> Monitor.events started_monitor)
    ++ [Views.StreamError "name 'datetime' is not defined"].
Proof. reflexivity. Qed.

(** An update under an unknown name changes nothing and is reported as
    done; one under the name of a parameter makes the call raise. *)
Example update_under_unknown_name :
  Graph.update_variable "x" [colour_update] one_variable = Ok (one_variable, true).
Proof. reflexivity. Qed.

Example update_under_parameter_name :
  Graph.update_variable "x" [Graph.UpdDescription "second"; var_name_update]
    one_variable
  = Raise (TypeError "PayrollVariableGraph.update_variable() got multiple values for argument 'var_name'").
Proof. reflexivity. Qed.

(** A call of [add_calculation_node] on a node that exists, with a
    function that has no name: the call raises, the node keeps the
    attributes of the function it was added with, and the registry holds
    the new function. *)
Example failed_add_replaces_function :
  (Graph.add_calculation_node "n1" partial_double "other" None None None 5%Z
     two_nodes).2
  = Some (AttributeError "'functools.partial' object has no attribute '__name__'")
  ∧ Graph.graph
      (Graph.add_calculation_node "n1" partial_double "other" None None None 5%Z
         two_nodes).1
    = Graph.graph two_nodes
  ∧ Graph.f_name
      <$> PyDict.get "n1"
            (Graph._function_registry
               (Graph.add_calculation_node "n1" partial_double "other" None None None
                  5%Z two_nodes).1)
    = Some (Raise (AttributeError
                     "'functools.partial' object has no attribute '__name__'")).
Proof. split_and!; reflexivity. Qed.
